(** * sqlow: dataclass-native SQLite CRUD, embedded in Rocq

    A shallow embedding of [src/sqlow/__init__.py].  Python values, the
    [json] text codec, the [sqlite3] parameter adapter and a small
    relational engine for the statements the module issues are modelled
    first; the functions of the module ([_get_sqlite_type], [_to_row],
    [_from_row], [Table.create], [Table.read], [Table.update],
    [Table.delete], [Table.count]) follow, in the order of the source, and
    then the theorems.

    Modelling decisions, stated once:
    - a Python [str] is a [string] (code points 0..255);
    - a Python [float] is identified by its [repr] literal ([PFloat "1.5"]):
      the module never computes with floats, it only passes them on, and
      [float(repr(x)) == x] is Python's own guarantee; [json.loads] keeps a
      float literal as it is written, which is exact on what [json.dumps]
      writes;
    - the engine stores and compares values by storage class, as bound;
      SQLite's column-affinity coercions (an integer bound to a TEXT
      column, integer against real comparison, the real -0.0 stored as
      0.0) are not modelled, so the engine is exact for the values
      [kept_as_bound] admits, whose storage class is the column's own;
    - a LIMIT or OFFSET beyond 64 bits is refused by the engine as SQLite
      refuses it, with sqlite3.IntegrityError;
    - a class carries its constructor, [cls_new], which [_from_row] calls
      with the decoded record; [generated_init] is the constructor
      [@dataclass] generates;
    - [uuid.uuid4()] and [datetime.now()] are read from the world, as two
      oracles with a counter each;
    - every statement handed to [_sql] is appended to a journal, so that
      "no statement is executed" is the journal being unchanged;
    - a mapping passed as a record is keyed by text; keys that collide with
      Python parameter names ([self], and the parameters of [read] when
      [delete] forwards a record to it) are outside the model. *)

From Stdlib Require Import List ZArith String Ascii Bool Lia Arith.
From Stdlib Require Import DecimalString DecimalZ DecimalFacts DecimalPos DecimalN.
Import ListNotations.

Local Open Scope string_scope.
Local Open Scope list_scope.

(** ** Python values *)

#[warnings="-register-all"]
Inductive pyval : Type :=
| PNone
| PBool (b : bool)
| PInt (z : Z)
| PFloat (r : string)                  (* a float, by its repr *)
| PStr (s : string)
| PBytes (b : string)
| PList (l : list pyval)
| PTuple (l : list pyval)
| PDict (d : list (pyval * pyval))     (* in insertion order *)
| POther (descr : string).             (* any other object: a set, object(), ... *)

(** Python exceptions the module raises or lets through. *)
Inductive error : Type :=
| KeyError (key : string)        (* "Unknown field: key" *)
| TypeError
| ValueError
| AttributeError (attr : string)
| IndexError (col : string)      (* sqlite3.Row has no such column *)
| JSONDecodeError
| OverflowError                  (* int too large for SQLite INTEGER *)
| ProgrammingError               (* parameter of an unsupported type *)
| OperationalError               (* syntax error, unknown column *)
| IntegrityError                 (* PRIMARY KEY violated *)
| ZeroDivisionError.

Inductive result (A : Type) : Type :=
| Ok (a : A)
| Err (e : error).
Arguments Ok {A} a.
Arguments Err {A} e.

Definition result_bind {A B} (r : result A) (k : A -> result B) : result B :=
  match r with
  | Ok a => k a
  | Err e => Err e
  end.

(** [[f(x) for x in xs]] for a fallible [f]: the first failure aborts. *)
Fixpoint result_map {A B} (f : A -> result B) (xs : list A) : result (list B) :=
  match xs with
  | [] => Ok []
  | x :: xs' =>
      match f x with
      | Ok y => match result_map f xs' with
                | Ok ys => Ok (y :: ys)
                | Err e => Err e
                end
      | Err e => Err e
      end
  end.

(** ** Python dicts keyed by text, as association lists in insertion order *)

Section Dict.
Context {V : Type}.

Fixpoint dict_get (k : string) (d : list (string * V)) : option V :=
  match d with
  | [] => None
  | (k', v) :: d' => if String.eqb k k' then Some v else dict_get k d'
  end.

Definition dict_has (k : string) (d : list (string * V)) : bool :=
  match dict_get k d with Some _ => true | None => false end.

(** [d[k] = v]: overwrite in place, or append. *)
Fixpoint dict_set (k : string) (v : V) (d : list (string * V)) : list (string * V) :=
  match d with
  | [] => [(k, v)]
  | (k', v') :: d' =>
      if String.eqb k k' then (k', v) :: d' else (k', v') :: dict_set k v d'
  end.

Definition dict_keys (d : list (string * V)) : list string := map fst d.
Definition dict_values (d : list (string * V)) : list V := map snd d.
End Dict.

Definition str_in (k : string) (ks : list string) : bool :=
  existsb (String.eqb k) ks.

(** ** The json module: [json.dumps] and [json.loads] on text

    Text is handled as a list of characters inside this section and
    converted at the two entry points. *)

Module Json.

Local Open Scope char_scope.
Local Open Scope nat_scope.

(** The double quote, code 34. *)
Abbreviation dquote := (Ascii false true false false false true false false).

Definition hex_digit (n : nat) : ascii :=
  if n <? 10 then ascii_of_nat (48 + n) else ascii_of_nat (87 + n).

(** [ESCAPE_ASCII] with [ensure_ascii=True]: everything outside
    space..tilde is escaped. *)
Definition escape_char (c : ascii) : list ascii :=
  let n := nat_of_ascii c in
  if Ascii.eqb c dquote then ["\"; dquote]
  else if Ascii.eqb c "\" then ["\"; "\"]
  else if n =? 10 then ["\"; "n"]
  else if n =? 13 then ["\"; "r"]
  else if n =? 9 then ["\"; "t"]
  else if n =? 8 then ["\"; "b"]
  else if n =? 12 then ["\"; "f"]
  else if (32 <=? n) && (n <=? 126) then [c]
  else ["\"; "u"; "0"; "0"; hex_digit (n / 16); hex_digit (n mod 16)].

Definition dumps_str (s : string) : list ascii :=
  dquote :: flat_map escape_char (list_ascii_of_string s) ++ [dquote].

Fixpoint chars_of_uint (u : Decimal.uint) : list ascii :=
  match u with
  | Decimal.Nil => []
  | Decimal.D0 u' => "0" :: chars_of_uint u'
  | Decimal.D1 u' => "1" :: chars_of_uint u'
  | Decimal.D2 u' => "2" :: chars_of_uint u'
  | Decimal.D3 u' => "3" :: chars_of_uint u'
  | Decimal.D4 u' => "4" :: chars_of_uint u'
  | Decimal.D5 u' => "5" :: chars_of_uint u'
  | Decimal.D6 u' => "6" :: chars_of_uint u'
  | Decimal.D7 u' => "7" :: chars_of_uint u'
  | Decimal.D8 u' => "8" :: chars_of_uint u'
  | Decimal.D9 u' => "9" :: chars_of_uint u'
  end.

(** [str(z)] for an int. *)
Definition chars_of_Z (z : Z) : list ascii :=
  match Z.to_int z with
  | Decimal.Pos u => chars_of_uint u
  | Decimal.Neg u => "-" :: chars_of_uint u
  end.

(** [float.__repr__], with the three non-finite spellings of json. *)
Definition dumps_float (r : string) : list ascii :=
  if String.eqb r "nan" then list_ascii_of_string "NaN"
  else if String.eqb r "inf" then list_ascii_of_string "Infinity"
  else if String.eqb r "-inf" then list_ascii_of_string "-Infinity"
  else list_ascii_of_string r.

Fixpoint join (sep : list ascii) (parts : list (list ascii)) : list ascii :=
  match parts with
  | [] => []
  | [p] => p
  | p :: ps => p ++ sep ++ join sep ps
  end.

Fixpoint sequence {A} (xs : list (option A)) : option (list A) :=
  match xs with
  | [] => Some []
  | Some x :: xs' => option_map (cons x) (sequence xs')
  | None :: _ => None
  end.

(** A dict key as json writes it; keys of other types are a TypeError. *)
Definition dumps_key (k : pyval) : option (list ascii) :=
  match k with
  | PStr s => Some (dumps_str s)
  | PInt z => Some (dquote :: chars_of_Z z ++ [dquote])
  | PFloat r => Some (dquote :: list_ascii_of_string r ++ [dquote])
  | PBool true => Some (dquote :: list_ascii_of_string "true" ++ [dquote])
  | PBool false => Some (dquote :: list_ascii_of_string "false" ++ [dquote])
  | PNone => Some (dquote :: list_ascii_of_string "null" ++ [dquote])
  | _ => None
  end.

(** [json.dumps(v)] with the default separators; [None] is the TypeError
    "Object of type ... is not JSON serializable". *)
Fixpoint dumps (v : pyval) : option (list ascii) :=
  match v with
  | PNone => Some (list_ascii_of_string "null")
  | PBool true => Some (list_ascii_of_string "true")
  | PBool false => Some (list_ascii_of_string "false")
  | PInt z => Some (chars_of_Z z)
  | PFloat r => Some (dumps_float r)
  | PStr s => Some (dumps_str s)
  | PList l | PTuple l =>
      option_map (fun parts => "[" :: join [","; " "] parts ++ ["]"])
                 (sequence (map dumps l))
  | PDict d =>
      option_map (fun parts => "{" :: join [","; " "] parts ++ ["}"])
                 (sequence (map (fun kv =>
                    match kv with
                    | (k, x) =>
                        match dumps_key k, dumps x with
                        | Some ks, Some xs => Some (ks ++ [":"; " "] ++ xs)
                        | _, _ => None
                        end
                    end) d))
  | PBytes _ | POther _ => None
  end.

(** *** Reading json text *)

Definition is_digit (c : ascii) : bool :=
  let n := nat_of_ascii c in (48 <=? n) && (n <=? 57).

(** [WHITESPACE]: space, tab, line feed, carriage return. *)
Definition is_ws (c : ascii) : bool :=
  let n := nat_of_ascii c in
  (n =? 32) || (n =? 9) || (n =? 10) || (n =? 13).

Fixpoint skip_ws (s : list ascii) : list ascii :=
  match s with
  | c :: r => if is_ws c then skip_ws r else s
  | [] => []
  end.

Fixpoint span_digits (s : list ascii) : list ascii * list ascii :=
  match s with
  | c :: r =>
      if is_digit c
      then let (ds, r') := span_digits r in (c :: ds, r')
      else ([], s)
  | [] => ([], [])
  end.

Definition digit_cons (c : ascii) (u : Decimal.uint) : Decimal.uint :=
  match nat_of_ascii c - 48 with
  | 0 => Decimal.D0 u | 1 => Decimal.D1 u | 2 => Decimal.D2 u
  | 3 => Decimal.D3 u | 4 => Decimal.D4 u | 5 => Decimal.D5 u
  | 6 => Decimal.D6 u | 7 => Decimal.D7 u | 8 => Decimal.D8 u
  | _ => Decimal.D9 u
  end%nat.

Definition uint_of_chars (ds : list ascii) : Decimal.uint :=
  fold_right digit_cons Decimal.Nil ds.

(** [int(text)] for text matched by the integer part of [NUMBER_RE]. *)
Definition Z_of_chars (s : list ascii) : Z :=
  match s with
  | c :: ds =>
      if Ascii.eqb c "-" then Z.of_int (Decimal.Neg (uint_of_chars ds))
      else Z.of_int (Decimal.Pos (uint_of_chars s))
  | [] => Z.of_int (Decimal.Pos Decimal.Nil)
  end.

(** The digits of the integer part of [NUMBER_RE]: either a single zero
    or a digit 1-9 followed by digits. *)
Definition scan_digits (s : list ascii) : option (list ascii * list ascii) :=
  match s with
  | c :: r =>
      if Ascii.eqb c "0" then Some (["0"], r)
      else if is_digit c
      then let (ds, r') := span_digits r in Some (c :: ds, r')
      else None
  | [] => None
  end.

(** The integer part of [NUMBER_RE]: an optional minus, then the digits. *)
Definition scan_int (s : list ascii) : option (list ascii * list ascii) :=
  match s with
  | c :: r =>
      if Ascii.eqb c "-" then
        match scan_digits r with
        | Some (ds, r') => Some ("-" :: ds, r')
        | None => None
        end
      else scan_digits s
  | [] => None
  end.

(** The optional fraction: a dot and at least one digit. *)
Definition scan_frac (s : list ascii) : list ascii * list ascii :=
  match s with
  | dot :: c :: r =>
      if Ascii.eqb dot "." && is_digit c
      then let (ds, r') := span_digits r in (dot :: c :: ds, r')
      else ([], s)
  | _ => ([], s)
  end.

Definition is_e (c : ascii) : bool := Ascii.eqb c "e" || Ascii.eqb c "E".
Definition is_sign (c : ascii) : bool := Ascii.eqb c "+" || Ascii.eqb c "-".

(** The optional exponent: e or E, an optional sign, at least one digit. *)
Definition scan_exp (s : list ascii) : list ascii * list ascii :=
  match s with
  | e :: c :: r =>
      if is_e e then
        if is_digit c
        then let (ds, r') := span_digits r in (e :: c :: ds, r')
        else if is_sign c then
          match r with
          | d :: r2 =>
              if is_digit d
              then let (ds, r') := span_digits r2 in (e :: c :: d :: ds, r')
              else ([], s)
          | [] => ([], s)
          end
        else ([], s)
      else ([], s)
  | _ => ([], s)
  end.

(** [match_number]: an int when there is neither fraction nor exponent,
    a float otherwise. *)
Definition scan_number (s : list ascii) : option (pyval * list ascii) :=
  match scan_int s with
  | Some (ip, r1) =>
      let (fp, r2) := scan_frac r1 in
      let (ep, r3) := scan_exp r2 in
      match fp, ep with
      | [], [] => Some (PInt (Z_of_chars ip), r3)
      | _, _ => Some (PFloat (string_of_list_ascii (ip ++ fp ++ ep)), r3)
      end
  | None => None
  end.

Definition hex_value (c : ascii) : option nat :=
  let n := nat_of_ascii c in
  if (48 <=? n) && (n <=? 57) then Some (n - 48)
  else if (97 <=? n) && (n <=? 102) then Some (n - 87)
  else if (65 <=? n) && (n <=? 70) then Some (n - 55)
  else None.

(** A [\uXXXX] escape; code points above 255 have no [ascii]. *)
Definition unescape_u (a b c d : ascii) : option ascii :=
  match hex_value a, hex_value b, hex_value c, hex_value d with
  | Some x3, Some x2, Some x1, Some x0 =>
      if (x3 =? 0) && (x2 =? 0) then Some (ascii_of_nat (16 * x1 + x0)) else None
  | _, _, _, _ => None
  end.

(** [py_scanstring] in strict mode, after the opening quote. *)
Fixpoint scan_string (s : list ascii) : option (list ascii * list ascii) :=
  match s with
  | [] => None
  | c :: r =>
      if Ascii.eqb c dquote then Some ([], r)
      else if Ascii.eqb c "\" then
        match r with
        | e :: r1 =>
            if Ascii.eqb e "u" then
              match r1 with
              | h3 :: h2 :: h1 :: h0 :: r2 =>
                  match unescape_u h3 h2 h1 h0, scan_string r2 with
                  | Some x, Some (cs, r') => Some (x :: cs, r')
                  | _, _ => None
                  end
              | _ => None
              end
            else
              let plain (x : ascii) :=
                match scan_string r1 with
                | Some (cs, r') => Some (x :: cs, r')
                | None => None
                end in
              if Ascii.eqb e dquote then plain dquote
              else if Ascii.eqb e "\" then plain "\"
              else if Ascii.eqb e "/" then plain "/"
              else if Ascii.eqb e "b" then plain (ascii_of_nat 8)
              else if Ascii.eqb e "f" then plain (ascii_of_nat 12)
              else if Ascii.eqb e "n" then plain (ascii_of_nat 10)
              else if Ascii.eqb e "r" then plain (ascii_of_nat 13)
              else if Ascii.eqb e "t" then plain (ascii_of_nat 9)
              else None
        | [] => None
        end
      else if nat_of_ascii c <? 32 then None
      else
        match scan_string r with
        | Some (cs, r') => Some (c :: cs, r')
        | None => None
        end
  end.

(** [dict(pairs)]: a repeated key keeps its first position and its last
    value. *)
Definition dict_of_pairs (pairs : list (string * pyval)) : list (pyval * pyval) :=
  map (fun kv => (PStr (fst kv), snd kv))
      (fold_left (fun d kv => dict_set (fst kv) (snd kv) d) pairs []).

(** [text.startswith(prefix)], giving what follows the prefix. *)
Fixpoint strip_prefix (prefix s : list ascii) : option (list ascii) :=
  match prefix, s with
  | [], _ => Some s
  | p :: prefix', c :: s' =>
      if Ascii.eqb p c then strip_prefix prefix' s' else None
  | _ :: _, [] => None
  end.

(** [s[idx:idx+1] == c] *)
Definition head_is (c : ascii) (s : list ascii) : bool :=
  match s with
  | x :: _ => Ascii.eqb x c
  | [] => false
  end.

(** [scan_once], [JSONArray] and [JSONObject], the cases of [scan_once] in
    its own order.  The fuel bounds the nesting and the number of items;
    [loads] supplies more than any text of its length can use. *)
Fixpoint parse_value (fuel : nat) (s : list ascii) {struct fuel}
  : option (pyval * list ascii) :=
  match fuel with
  | O => None
  | S f =>
      if head_is dquote s then
        match scan_string (tl s) with
        | Some (cs, r') => Some (PStr (string_of_list_ascii cs), r')
        | None => None
        end
      else if head_is "{" s then
        let r1 := skip_ws (tl s) in
        if head_is "}" r1 then Some (PDict [], tl r1)
        else
          match parse_members f r1 with
          | Some (pairs, r') => Some (PDict (dict_of_pairs pairs), r')
          | None => None
          end
      else if head_is "[" s then
        let r1 := skip_ws (tl s) in
        if head_is "]" r1 then Some (PList [], tl r1)
        else
          match parse_elems f r1 with
          | Some (vs, r') => Some (PList vs, r')
          | None => None
          end
      else
        match strip_prefix (list_ascii_of_string "null") s with
        | Some r' => Some (PNone, r')
        | None =>
        match strip_prefix (list_ascii_of_string "true") s with
        | Some r' => Some (PBool true, r')
        | None =>
        match strip_prefix (list_ascii_of_string "false") s with
        | Some r' => Some (PBool false, r')
        | None =>
        match scan_number s with
        | Some res => Some res
        | None =>
        match strip_prefix (list_ascii_of_string "NaN") s with
        | Some r' => Some (PFloat "nan", r')
        | None =>
        match strip_prefix (list_ascii_of_string "Infinity") s with
        | Some r' => Some (PFloat "inf", r')
        | None =>
        match strip_prefix (list_ascii_of_string "-Infinity") s with
        | Some r' => Some (PFloat "-inf", r')
        | None => None
        end end end end end end end
  end

with parse_elems (fuel : nat) (s : list ascii) {struct fuel}
  : option (list pyval * list ascii) :=
  match fuel with
  | O => None
  | S f =>
      match parse_value f s with
      | Some (v, r) =>
          let r1 := skip_ws r in
          if head_is "]" r1 then Some ([v], tl r1)
          else if head_is "," r1 then
            match parse_elems f (skip_ws (tl r1)) with
            | Some (vs, r') => Some (v :: vs, r')
            | None => None
            end
          else None
      | None => None
      end
  end

with parse_members (fuel : nat) (s : list ascii) {struct fuel}
  : option (list (string * pyval) * list ascii) :=
  match fuel with
  | O => None
  | S f =>
      if head_is dquote s then
        match scan_string (tl s) with
        | Some (k, r1) =>
            let r2 := skip_ws r1 in
            if head_is ":" r2 then
              match parse_value f (skip_ws (tl r2)) with
              | Some (v, r3) =>
                  let r4 := skip_ws r3 in
                  if head_is "}" r4
                  then Some ([(string_of_list_ascii k, v)], tl r4)
                  else if head_is "," r4 then
                    match parse_members f (skip_ws (tl r4)) with
                    | Some (kvs, r') =>
                        Some ((string_of_list_ascii k, v) :: kvs, r')
                    | None => None
                    end
                  else None
              | None => None
              end
            else None
        | None => None
        end
      else None
  end.

(** [JSONDecoder.decode]: leading whitespace, one value, trailing
    whitespace, nothing else. *)
Definition loads (s : list ascii) : option pyval :=
  match parse_value (S (List.length s)) (skip_ws s) with
  | Some (v, r) =>
      match skip_ws r with
      | [] => Some v
      | _ => None
      end
  | None => None
  end.

End Json.

(** [json.dumps(value)]: the text, or the TypeError of an object json
    cannot serialize. *)
Definition json_dumps (v : pyval) : result string :=
  match Json.dumps v with
  | Some cs => Ok (string_of_list_ascii cs)
  | None => Err TypeError
  end.

(** [json.loads(text)] *)
Definition json_loads (s : string) : result pyval :=
  match Json.loads (list_ascii_of_string s) with
  | Some v => Ok v
  | None => Err JSONDecodeError
  end.

(** ** Declared field types ([f.type] of a dataclass field) *)

(** The annotations of a dataclass field that the helpers of the module
    classify: a class, a union, or a parametrized alias, which carries its
    type arguments in [__args__].  A bare alias of [typing] ([typing.List],
    [typing.Dict]) has an origin and no [__args__]: the helpers raise
    AttributeError on it, so that [Table.__init__] fails and no table
    handle exists for such a dataclass; it is not among these
    annotations. *)
#[warnings="-register-all"]
Inductive pytype : Type :=
| TyInt | TyStr | TyFloat | TyBool | TyDict | TyList
| TyNoneType
| TyUnion (args : list pytype)                   (* Optional[X], X | None *)
| TyAlias (origin : pytype) (args : list pytype) (* list[int], dict[str, int] *)
| TyOther (descr : string).   (* a class, or an annotation kept as a string *)

(** [typing.get_origin] *)
Definition get_origin (t : pytype) : option pytype :=
  match t with
  | TyUnion _ => Some (TyOther "Union")
  | TyAlias origin _ => Some origin
  | _ => None
  end.

Definition type_args (t : pytype) : list pytype :=
  match t with
  | TyUnion args | TyAlias _ args => args
  | _ => []
  end.

Definition is_NoneType (t : pytype) : bool :=
  match t with TyNoneType => true | _ => false end.

(** [next((a for a in py_type.__args__ if a is not type(None)), str)] *)
Definition next_arg (t : pytype) : pytype :=
  match filter (fun a => negb (is_NoneType a)) (type_args t) with
  | a :: _ => a
  | [] => TyStr
  end.

(** [TYPE_MAP.get(py_type)] *)
Definition TYPE_MAP (t : pytype) : option string :=
  match t with
  | TyInt => Some "INTEGER"
  | TyStr => Some "TEXT"
  | TyFloat => Some "REAL"
  | TyBool => Some "INTEGER"
  | TyDict => Some "TEXT"
  | TyList => Some "TEXT"
  | _ => None
  end.

Definition AUTO_FIELDS : list string :=
  ["id"; "created_at"; "updated_at"; "deleted_at"].

Definition _get_sqlite_type (py_type : pytype) : string :=
  let py_type :=
    match get_origin py_type with
    | Some _ => next_arg py_type
    | None => py_type
    end in
  match TYPE_MAP py_type with
  | Some sql => sql
  | None => "TEXT"
  end.

Definition _is_json_type (py_type : pytype) : bool :=
  let py_type :=
    match get_origin py_type with
    | Some _ => next_arg py_type
    | None => py_type
    end in
  match py_type with
  | TyDict | TyList => true
  | _ => false
  end.

Definition _is_bool_type (py_type : pytype) : bool :=
  let py_type :=
    match get_origin py_type with
    | Some _ => next_arg py_type
    | None => py_type
    end in
  match py_type with
  | TyBool => true
  | _ => false
  end.

Record _FieldInfo : Type := {
  name : string;
  py_type : pytype;
  sql_type : string;
  is_json : bool;
  is_bool : bool
}.

Record Count : Type := {
  total : Z;
  pages : Z;
  per_page : Z
}.

(** A class object: its name; for a dataclass, its fields in declaration
    order (those of the bases first); and its constructor called with
    keyword arguments, which gives the attribute values of the instance it
    builds or the exception it raises. *)
Record pyclass : Type := {
  cls_name : string;
  cls_fields : option (list (string * pytype));
  cls_new : list (string * pyval) -> result (list (string * pyval))
}.

Definition is_dataclass (cls : pyclass) : bool :=
  match cls_fields cls with Some _ => true | None => false end.

Definition fields (cls : pyclass) : list (string * pytype) :=
  match cls_fields cls with Some fs => fs | None => [] end.

(** The [__init__] that [@dataclass] generates when every field is an init
    parameter (no [init=False] field, no [InitVar], no [__post_init__]):
    a keyword that is not a field is a TypeError, and the instance holds
    the values given.  A field left out would take its default, which is
    outside the model: [_from_row] passes a value for every field. *)
Definition generated_init (fs : list (string * pytype))
  (data : list (string * pyval)) : result (list (string * pyval)) :=
  if forallb (fun k => str_in k (map fst fs)) (dict_keys data)
  then Ok data
  else Err TypeError.

(** The fields of [Model].  The module postpones the evaluation of its
    annotations, so [f.type] of these four is the text "str | None". *)
Definition Model_fields : list (string * pytype) :=
  [("id", TyOther "str | None");
   ("created_at", TyOther "str | None");
   ("updated_at", TyOther "str | None");
   ("deleted_at", TyOther "str | None")].

(** The [_FieldInfo] that [_get_fields] builds for one dataclass field. *)
Definition field_info (f : string * pytype) : _FieldInfo :=
  {| name := fst f;
     py_type := snd f;
     sql_type := _get_sqlite_type (snd f);
     is_json := _is_json_type (snd f);
     is_bool := _is_bool_type (snd f) |}.

Definition _get_fields (cls : pyclass) : list _FieldInfo :=
  map field_info (fields cls).

Definition _has_soft_delete (cls : pyclass) : bool :=
  existsb (fun f => String.eqb (fst f) "deleted_at") (fields cls).

(** A dataclass instance: its class and its field values. *)
Record instance : Type := {
  inst_cls : string;
  inst_data : list (string * pyval)
}.

(** What a caller may pass as a positional argument. *)
Inductive pyobj : Type :=
| ODict (d : list (string * pyval))
| OInstance (i : instance)         (* an instance of some dataclass *)
| OOther (descr : string).         (* an int, a str, a class object, ... *)

(** ** The storage engine *)

Inductive sval : Type :=
| SNull
| SInteger (z : Z)
| SReal (r : string)
| SText (s : string)
| SBlob (b : string).

Definition srow : Type := list (string * sval).

(** How [sqlite3] adapts a bound parameter.  A bool is an int; an int
    outside 64 bits overflows; NaN is stored as NULL. *)
Definition sqlite_bind (v : pyval) : result sval :=
  match v with
  | PNone => Ok SNull
  | PBool b => Ok (SInteger (if b then 1 else 0))
  | PInt z =>
      if ((- 2 ^ 63 <=? z) && (z <? 2 ^ 63))%Z then Ok (SInteger z)
      else Err OverflowError
  | PFloat r => Ok (if String.eqb r "nan" then SNull else SReal r)
  | PStr s => Ok (SText s)
  | PBytes b => Ok (SBlob b)
  | PList _ | PTuple _ | PDict _ | POther _ => Err ProgrammingError
  end.

(** The Python value [sqlite3] returns for a stored value. *)
Definition py_of_sval (v : sval) : pyval :=
  match v with
  | SNull => PNone
  | SInteger z => PInt z
  | SReal r => PFloat r
  | SText s => PStr s
  | SBlob b => PBytes b
  end.

Inductive cond : Type :=
| Eq_ (col : string) (param : pyval)    (* col = ? *)
| IsNull (col : string).                (* col IS NULL *)

(** The statements the module writes, by shape.  [Malformed] is a text
    SQLite cannot parse (an empty condition list spliced after WHERE). *)
Inductive stmt : Type :=
| CreateTable (cols : list (string * string))
| InsertInto (row : list (string * pyval))
| SelectFrom (conds : list cond) (page : option (Z * Z))  (* LIMIT, OFFSET *)
| SelectCount (conds : list cond)
| UpdateSet (sets : list (string * pyval)) (conds : list cond)
| DeleteFrom (conds : list cond)
| Malformed.

Inductive bcond : Type :=
| BEq (col : string) (v : sval)
| BIsNull (col : string).

Definition cond_col (c : cond) : string :=
  match c with Eq_ col _ | IsNull col => col end.

Definition bind_cond (c : cond) : result bcond :=
  match c with
  | Eq_ col p => result_bind (sqlite_bind p) (fun v => Ok (BEq col v))
  | IsNull col => Ok (BIsNull col)
  end.

Definition bind_set (kv : string * pyval) : result (string * sval) :=
  result_bind (sqlite_bind (snd kv)) (fun v => Ok (fst kv, v)).

(** [a = b] in SQL: never true when either side is NULL. *)
Definition sql_eq (a b : sval) : bool :=
  match a, b with
  | SInteger x, SInteger y => Z.eqb x y
  | SReal x, SReal y => String.eqb x y
  | SText x, SText y => String.eqb x y
  | SBlob x, SBlob y => String.eqb x y
  | _, _ => false
  end.

Definition is_null (v : sval) : bool :=
  match v with SNull => true | _ => false end.

Definition holds (row : srow) (c : bcond) : bool :=
  match c with
  | BEq col v =>
      match dict_get col row with
      | Some x => sql_eq x v
      | None => false
      end
  | BIsNull col =>
      match dict_get col row with
      | Some x => is_null x
      | None => false
      end
  end.

Definition where_ (cs : list bcond) (row : srow) : bool :=
  forallb (holds row) cs.

(** A 64-bit integer.  A LIMIT or OFFSET written beyond this range is read
    by SQLite as a real number and refused ("datatype mismatch") when the
    statement runs, whatever the table holds; under LIMIT 0 the OFFSET is
    not evaluated. *)
Definition int64 (z : Z) : bool := ((- 2 ^ 63 <=? z) && (z <? 2 ^ 63))%Z.

Definition limit_accepted (page : option (Z * Z)) : bool :=
  match page with
  | None => true
  | Some (limit, offset) => int64 limit && ((limit =? 0)%Z || int64 offset)
  end.

(** [LIMIT n OFFSET k]; a negative limit is no limit, a negative offset
    is zero. *)
Definition paginate {A} (page : option (Z * Z)) (xs : list A) : list A :=
  match page with
  | None => xs
  | Some (limit, offset) =>
      let rest := skipn (Z.to_nat offset) xs in
      if (limit <? 0)%Z then rest else firstn (Z.to_nat limit) rest
  end.

Definition known_cols (cols : list string) (used : list string) : bool :=
  forallb (fun c => str_in c cols) used.

(** The row an INSERT stores: the given values, NULL in the other columns. *)
Definition stored_row (cols : list string) (vals : list (string * sval)) : srow :=
  map (fun c => (c, match dict_get c vals with
                    | Some v => v
                    | None => SNull
                    end)) cols.

(** The assignments of an UPDATE, applied to one row. *)
Definition assign (vals : list (string * sval)) (r : srow) : srow :=
  fold_left (fun r kv => dict_set (fst kv) (snd kv) r) vals r.

(** One statement on a table with columns [cols] and [id] as its primary
    key when it is a column: the result set and the rows afterwards.
    Unknown columns are reported when the statement is prepared, before
    any parameter is bound; LIMIT and OFFSET are checked when it runs.
    The key is checked on INSERT only: the module never assigns [id] in an
    UPDATE.  Values are stored and compared as they are bound: this is
    what SQLite does for a value of the storage class its column is
    declared with (other than the real -0.0, which a REAL column stores as
    0.0); the conversions SQLite applies to other values are not
    modelled, and the statements that depend on stored or compared values
    assume values of the declared class. *)
Definition execute (cols : list string) (s : stmt) (tbl : list srow)
  : result (list srow * list srow) :=
  match s with
  | CreateTable _ => Ok ([], tbl)            (* IF NOT EXISTS *)
  | Malformed => Err OperationalError
  | InsertInto row =>
      if negb (known_cols cols (dict_keys row)) then Err OperationalError
      else
        result_bind (result_map bind_set row) (fun vals =>
          let new := stored_row cols vals in
          let clash :=
            match dict_get "id" new with
            | Some v => existsb (fun r => holds r (BEq "id" v)) tbl
            | None => false
            end in
          if clash then Err IntegrityError else Ok ([], tbl ++ [new]))
  | SelectFrom conds page =>
      if negb (known_cols cols (map cond_col conds)) then Err OperationalError
      else
        result_bind (result_map bind_cond conds) (fun cs =>
          if limit_accepted page
          then Ok (paginate page (filter (where_ cs) tbl), tbl)
          else Err IntegrityError)
  | SelectCount conds =>
      if negb (known_cols cols (map cond_col conds)) then Err OperationalError
      else
        result_bind (result_map bind_cond conds) (fun cs =>
          let n := Z.of_nat (List.length (filter (where_ cs) tbl)) in
          Ok ([[("COUNT(*)", SInteger n)]], tbl))
  | UpdateSet sets conds =>
      if negb (known_cols cols (dict_keys sets ++ map cond_col conds))
      then Err OperationalError
      else
        result_bind (result_map bind_set sets) (fun vals =>
        result_bind (result_map bind_cond conds) (fun cs =>
          Ok ([], map (fun r => if where_ cs r then assign vals r else r) tbl)))
  | DeleteFrom conds =>
      if negb (known_cols cols (map cond_col conds)) then Err OperationalError
      else
        result_bind (result_map bind_cond conds) (fun cs =>
          Ok ([], filter (fun r => negb (where_ cs r)) tbl))
  end.

(** ** The world: the table, the journal of statements, the two oracles *)

Record world : Type := {
  rows : list srow;              (* the rows of the bound table *)
  journal : list stmt;           (* every statement handed to the engine *)
  clock : nat -> string;         (* the n-th reading of datetime.now() *)
  ticks : nat;
  uuid_source : nat -> string;   (* the n-th str(uuid.uuid4()) *)
  draws : nat
}.

(** A computation that may raise, in a world it may change.  Whatever was
    committed before the exception stays committed. *)
Definition M (A : Type) : Type := world -> result A * world.

Definition ret {A} (a : A) : M A := fun w => (Ok a, w).
Definition raise {A} (e : error) : M A := fun w => (Err e, w).
Definition lift {A} (r : result A) : M A := fun w => (r, w).

Definition bind {A B} (m : M A) (k : A -> M B) : M B :=
  fun w =>
    match m w with
    | (Ok a, w') => k a w'
    | (Err e, w') => (Err e, w')
    end.

Notation "x <- m ;; k" := (bind m (fun x => k))
  (at level 61, m at next level, right associativity).

(** [_now()]: the text of the next clock reading. *)
Definition _now : M string :=
  fun w =>
    (Ok (clock w (ticks w)),
     {| rows := rows w; journal := journal w; clock := clock w;
        ticks := S (ticks w); uuid_source := uuid_source w; draws := draws w |}).

(** [str(uuid.uuid4())] *)
Definition uuid4 : M string :=
  fun w =>
    (Ok (uuid_source w (draws w)),
     {| rows := rows w; journal := journal w; clock := clock w;
        ticks := ticks w; uuid_source := uuid_source w; draws := S (draws w) |}).

Definition lower_char (c : ascii) : ascii :=
  let n := nat_of_ascii c in
  if (65 <=? n)%nat && (n <=? 90)%nat then ascii_of_nat (n + 32) else c.

Fixpoint lower (s : string) : string :=
  match s with
  | EmptyString => EmptyString
  | String c s' => String (lower_char c) (lower s')
  end.

(** ** class Table *)

Record Table : Type := {
  _cls : pyclass;
  _table : string;
  _fields : list _FieldInfo;
  _soft_delete : bool
}.

(** [self._field_map[key]]; [None] when [key not in self._field_map]. *)
Definition _field_map (self : Table) (key : string) : option _FieldInfo :=
  find (fun f => String.eqb (name f) key) (_fields self).

Definition in_field_map (self : Table) (key : string) : bool :=
  match _field_map self key with Some _ => true | None => false end.

Definition columns (self : Table) : list string := map name (_fields self).

(** The type [_create_table] declares the column of a field with: TEXT
    for [id], whatever its annotation, and the field's [sql_type]
    otherwise. *)
Definition column_type (f : _FieldInfo) : string :=
  if String.eqb (name f) "id" then "TEXT" else sql_type f.

(** A bound value that the column of field [k] keeps as it is and
    compares as it is: NULL, a blob, or a value of the storage class the
    column is declared with, other than the real -0.0 (stored as 0.0).
    SQLite converts other values to the declared class where it can. *)
Definition kept_as_bound (self : Table) (k : string) (sv : sval) : bool :=
  match _field_map self k with
  | Some f =>
      match sv with
      | SNull | SBlob _ => true
      | SInteger _ => String.eqb (column_type f) "INTEGER"
      | SReal r => String.eqb (column_type f) "REAL" && negb (String.eqb r "-0.0")
      | SText _ => String.eqb (column_type f) "TEXT"
      end
  | None => false
  end.

(** [_sql]: a fresh connection, one statement, commit.  Only the rows are
    returned; no caller looks at [lastrowid]. *)
Definition _sql (self : Table) (s : stmt) : M (list srow) :=
  fun w =>
    let log := journal w ++ [s] in
    match execute (columns self) s (rows w) with
    | Ok (res, tbl) =>
        (Ok res,
         {| rows := tbl; journal := log; clock := clock w; ticks := ticks w;
            uuid_source := uuid_source w; draws := draws w |})
    | Err e =>
        (Err e,
         {| rows := rows w; journal := log; clock := clock w; ticks := ticks w;
            uuid_source := uuid_source w; draws := draws w |})
    end.

Definition _create_table (self : Table) : M unit :=
  let cols :=
    map (fun f => if String.eqb (name f) "id"
                  then ("id", "TEXT PRIMARY KEY")
                  else (name f, sql_type f))
        (_fields self) in
  _ <- _sql self (CreateTable cols) ;; ret tt.

(** The handle [Table.__init__] builds for a dataclass. *)
Definition handle (cls : pyclass) : Table :=
  {| _cls := cls;
     _table := lower (cls_name cls);
     _fields := _get_fields cls;
     _soft_delete := _has_soft_delete cls |}.

Definition Table_init (cls : pyclass) : M Table :=
  if negb (is_dataclass cls) then raise TypeError
  else _ <- _create_table (handle cls) ;; ret (handle cls).

Definition is_none (v : pyval) : bool :=
  match v with PNone => true | _ => false end.

(** The body of the loop of [_to_row], for one keyword. *)
Definition encode_field (self : Table) (kv : string * pyval)
  : result (string * pyval) :=
  let key := fst kv in
  let value := snd kv in
  match _field_map self key with
  | None => Err (KeyError key)
  | Some field =>
      if is_none value then Ok (key, PNone)
      else if is_json field
      then result_bind (json_dumps value) (fun text => Ok (key, PStr text))
      else Ok (key, value)
  end.

Definition _to_row (self : Table) (kwargs : list (string * pyval))
  : result (list (string * pyval)) :=
  result_map (encode_field self) kwargs.

(** [bool(value)] *)
Definition py_bool (v : pyval) : bool :=
  match v with
  | PNone => false
  | PBool b => b
  | PInt z => negb (Z.eqb z 0)
  | PFloat r => negb (String.eqb r "0.0" || String.eqb r "-0.0")
  | PStr s | PBytes s => negb (String.eqb s EmptyString)
  | PList l | PTuple l => match l with [] => false | _ => true end
  | PDict d => match d with [] => false | _ => true end
  | POther _ => true
  end.

(** [json.loads(value)] on what a row holds: text or bytes are parsed,
    anything else is a TypeError. *)
Definition json_loads_value (v : pyval) : result pyval :=
  match v with
  | PStr s | PBytes s => json_loads s
  | _ => Err TypeError
  end.

(** The body of the loop of [_from_row], for one field. *)
Definition decode_field (row : srow) (f : _FieldInfo) : result (string * pyval) :=
  match dict_get (name f) row with
  | None => Err (IndexError (name f))
  | Some stored =>
      let value := py_of_sval stored in
      if is_none value then Ok (name f, PNone)
      else if is_json f
      then result_bind (json_loads_value value) (fun v => Ok (name f, v))
      else if is_bool f then Ok (name f, PBool (py_bool value))
      else Ok (name f, value)
  end.

(** The last line of [_from_row]: the class called with [data] as its
    keyword arguments. *)
Definition new_instance (cls : pyclass) (data : list (string * pyval))
  : result instance :=
  result_bind (cls_new cls data)
    (fun attrs => Ok {| inst_cls := cls_name cls; inst_data := attrs |}).

Definition _from_row (self : Table) (row : srow) : result instance :=
  result_bind (result_map (decode_field row) (_fields self))
    (new_instance (_cls self)).

Definition getattr (item : instance) (attr : string) : result pyval :=
  match dict_get attr (inst_data item) with
  | Some v => Ok v
  | None => Err (AttributeError attr)
  end.

Definition not_auto (kv : string * pyval) : bool :=
  negb (str_in (fst kv) AUTO_FIELDS).

(** What the first loop of [create] appends for one positional argument. *)
Definition create_record (self : Table) (item : pyobj)
  : result (list (string * pyval)) :=
  match item with
  | OInstance i =>
      result_map
        (fun f => result_bind (getattr i (name f)) (fun v => Ok (name f, v)))
        (filter (fun f => negb (str_in (name f) AUTO_FIELDS)) (_fields self))
  | ODict d => Ok d
  | OOther _ => Err TypeError
  end.

(** The first loop of [create]: the keyword record first, then one record
    per argument. *)
Definition create_records (self : Table) (items : list pyobj)
  (kwargs : list (string * pyval)) : result (list (list (string * pyval))) :=
  result_bind (result_map (create_record self) items)
    (fun rs => Ok (match kwargs with [] => rs | _ => kwargs :: rs end)).

(** The body of the second loop of [create], for one record: the
    instances it appends to [results]. *)
Definition create_one (self : Table) (record : list (string * pyval))
  : M (list instance) :=
  row <- lift (_to_row self (filter not_auto record)) ;;
  id <- uuid4 ;;
  let row := dict_set "id" (PStr id) row in
  row <- (if in_field_map self "created_at"
          then now <- _now ;; ret (dict_set "created_at" (PStr now) row)
          else ret row) ;;
  row <- (if in_field_map self "updated_at"
          then now <- _now ;; ret (dict_set "updated_at" (PStr now) row)
          else ret row) ;;
  _ <- _sql self (InsertInto row) ;;
  rows <- _sql self (SelectFrom [Eq_ "id" (PStr id)] None) ;;
  match rows with
  | r :: _ => inst <- lift (_from_row self r) ;; ret [inst]
  | [] => ret []
  end.

(** [for record in records: results += body(record)] *)
Fixpoint for_records {R} (body : R -> M (list instance)) (records : list R)
  : M (list instance) :=
  match records with
  | [] => ret []
  | record :: rest =>
      found <- body record ;;
      more <- for_records body rest ;;
      ret (found ++ more)
  end.

Definition create (self : Table) (items : list pyobj)
  (kwargs : list (string * pyval)) : M (list instance) :=
  records <- lift (create_records self items kwargs) ;;
  for_records (create_one self) records.

(** The conditions [read] and [count] build from the keyword filters (the
    same lines in both). *)
Definition conditions (self : Table) (include_deleted : bool)
  (kwargs : list (string * pyval)) : result (list cond) :=
  result_bind
    (match kwargs with
     | [] => Ok []
     | _ => result_bind (_to_row self kwargs)
              (fun row => Ok (map (fun kv => Eq_ (fst kv) (snd kv)) row))
     end)
    (fun conds =>
       Ok (if _soft_delete self && negb include_deleted
           then conds ++ [IsNull "deleted_at"]
           else conds)).

Definition read (self : Table) (include_deleted : bool) (page : option Z)
  (per_page : Z) (kwargs : list (string * pyval)) : M (list instance) :=
  conds <- lift (conditions self include_deleted kwargs) ;;
  let limit :=
    match page with
    | Some p =>
        let offset := ((Z.max 1 p - 1) * per_page)%Z in
        Some (per_page, offset)
    | None => None
    end in
  rows <- _sql self (SelectFrom conds limit) ;;
  lift (result_map (_from_row self) rows).

(** What the first loop of [update] appends for one positional argument. *)
Definition update_record (self : Table) (item : pyobj)
  : result (list (string * pyval)) :=
  match item with
  | OInstance i =>
      result_map
        (fun f => result_bind (getattr i (name f)) (fun v => Ok (name f, v)))
        (_fields self)
  | ODict d => Ok d
  | OOther _ => Err TypeError
  end.

(** The first loop of [update]. *)
Definition update_records (self : Table) (items : list pyobj)
  (kwargs : list (string * pyval)) : result (list (list (string * pyval))) :=
  result_bind (result_map (update_record self) items)
    (fun rs => Ok (match kwargs with [] => rs | _ => kwargs :: rs end)).

(** ["id" not in record or record["id"] is None] *)
Definition lacks_id (record : list (string * pyval)) : bool :=
  match dict_get "id" record with
  | None => true
  | Some v => is_none v
  end.

Definition is_nil {A} (l : list A) : bool :=
  match l with [] => true | _ => false end.

(** The body of the second loop of [update], for one record. *)
Definition update_one (self : Table) (record : list (string * pyval))
  : M (list instance) :=
  match dict_get "id" record with
  | None => raise ValueError
  | Some item_id =>
      if is_none item_id then raise ValueError
      else
        let update_data :=
          filter (fun kv => negb (str_in (fst kv) ["id"; "created_at"; "deleted_at"]))
                 record in
        if is_nil update_data && negb (in_field_map self "updated_at")
        then ret []                                           (* continue *)
        else
          row <- lift (_to_row self
                         (filter (fun kv => negb (String.eqb (fst kv) "updated_at"))
                                 update_data)) ;;
          row <- (if in_field_map self "updated_at"
                  then now <- _now ;; ret (dict_set "updated_at" (PStr now) row)
                  else ret row) ;;
          if is_nil row then ret []                           (* continue *)
          else
            _ <- _sql self (UpdateSet row [Eq_ "id" item_id]) ;;
            rows <- _sql self (SelectFrom [Eq_ "id" item_id] None) ;;
            match rows with
            | r :: _ => inst <- lift (_from_row self r) ;; ret [inst]
            | [] => ret []
            end
  end.

Definition update (self : Table) (items : list pyobj)
  (kwargs : list (string * pyval)) : M (list instance) :=
  records <- lift (update_records self items kwargs) ;;
  for_records (update_one self) records.

(** What the first loop of [delete] appends for one positional argument:
    of an instance only the id is used. *)
Definition delete_record (item : pyobj) : result (list (string * pyval)) :=
  match item with
  | OInstance i =>
      match dict_get "id" (inst_data i) with   (* getattr(item, "id", None) *)
      | Some item_id =>
          if is_none item_id then Err ValueError
          else Ok [("id", item_id)]
      | None => Err ValueError
      end
  | ODict d => Ok d
  | OOther _ => Err TypeError
  end.

(** The first loop of [delete]. *)
Definition delete_records (items : list pyobj) (kwargs : list (string * pyval))
  : result (list (list (string * pyval))) :=
  result_bind (result_map delete_record items)
    (fun rs => Ok (match kwargs with [] => rs | _ => kwargs :: rs end)).

(** The body of the batch loop of [delete], for one record.  The record
    is forwarded to [read] as its filters: this is the call
    [self.read(include_deleted=hard, **record)] for a record without a key
    named as a parameter of [read] ([read_parameters]); with such a key the
    call raises TypeError (include_deleted) or paginates (page,
    per_page). *)
Definition delete_one (self : Table) (hard : bool) (record : list (string * pyval))
  : M (list instance) :=
  found <- read self hard None 10 record ;;
  if is_nil found then ret []                                 (* continue *)
  else
    row <- lift (_to_row self record) ;;
    let conds := map (fun kv => Eq_ (fst kv) (snd kv)) row in
    _ <- (if _soft_delete self && negb hard
          then now <- _now ;;
               _sql self (if is_nil row then Malformed
                          else UpdateSet [("deleted_at", PStr now)]
                                         (conds ++ [IsNull "deleted_at"]))
          else _sql self (if is_nil row then Malformed else DeleteFrom conds)) ;;
    ret found.

Definition delete (self : Table) (items : list pyobj) (hard : bool)
  (kwargs : list (string * pyval)) : M (list instance) :=
  records <- lift (delete_records items kwargs) ;;
  if negb (is_nil records) then for_records (delete_one self hard) records
  else
    all_items <- read self hard None 10 [] ;;
    if is_nil all_items then ret []
    else
      _ <- (if _soft_delete self && negb hard
            then now <- _now ;;
                 _sql self (UpdateSet [("deleted_at", PStr now)] [IsNull "deleted_at"])
            else _sql self (DeleteFrom [])) ;;
      ret all_items.

(** [rows[0][0] if rows else 0] *)
Definition first_cell (rs : list srow) : result Z :=
  match rs with
  | [] => Ok 0%Z
  | [] :: _ => Err (IndexError "0")
  | ((_, SInteger n) :: _) :: _ => Ok n
  | _ :: _ => Err TypeError
  end.

Definition count (self : Table) (include_deleted : bool) (per_page : Z)
  (kwargs : list (string * pyval)) : M Count :=
  conds <- lift (conditions self include_deleted kwargs) ;;
  rows <- _sql self (SelectCount conds) ;;
  total <- lift (first_cell rows) ;;
  if (0 <? total)%Z && (per_page =? 0)%Z then raise ZeroDivisionError
  else
  let pages :=
    if (0 <? total)%Z then ((total + per_page - 1) / per_page)%Z else 0%Z in
  ret {| total := total; pages := pages; per_page := per_page |}.

(** ** Vocabulary of the statements below *)

(** The statements that cannot change a row. *)
Definition read_only (s : stmt) : bool :=
  match s with
  | SelectFrom _ _ | SelectCount _ | CreateTable _ | Malformed => true
  | _ => false
  end.

(** One [col = ?] condition per entry of an encoded row. *)
Definition eq_conds (row : list (string * pyval)) : list cond :=
  map (fun kv => Eq_ (fst kv) (snd kv)) row.

(** ** What "a row matches the filters" means

    Two stored values are the same value. *)
Definition sval_eqb (x y : sval) : bool :=
  match x, y with
  | SNull, SNull => true
  | SInteger a, SInteger b => Z.eqb a b
  | SReal a, SReal b | SText a, SText b | SBlob a, SBlob b => String.eqb a b
  | _, _ => false
  end.

(** By the words of the specification: the row holds, under every
    filtered column, the value of the filter, which is a value and not
    NULL; and, when soft-deleted rows are excluded, its [deleted_at] is
    NULL.  This is said of the values alone, without the engine. *)
Definition row_matches (filters : list (string * sval)) (live_only : bool)
  (r : srow) : bool :=
  forallb (fun kv => match dict_get (fst kv) r with
                     | Some x => sval_eqb x (snd kv) && negb (is_null x)
                     | None => false
                     end) filters
  && (if live_only
      then match dict_get "deleted_at" r with
           | Some SNull => true
           | _ => false
           end
      else true).

(** The filters and the table on which the engine is exact: the value of
    every filter, and every value stored under a filtered column, is one
    its column keeps and compares as bound. *)
Definition typed_filters (self : Table) (filters : list (string * sval)) : Prop :=
  Forall (fun kv => kept_as_bound self (fst kv) (snd kv) = true) filters.

Definition typed_under (self : Table) (ks : list string) (tbl : list srow) : Prop :=
  Forall (fun r => forall k x, In k ks -> dict_get k r = Some x ->
                               kept_as_bound self k x = true) tbl.

(** ** A record type and a small table, used to exercise the statements

    [Component] is the class of the module's docstring, with a text field;
    [Note] does not inherit from [Model] and has no [deleted_at]. *)
Definition Component : pyclass :=
  {| cls_name := "Component";
     cls_fields := Some (Model_fields ++ [("name", TyStr)]);
     cls_new := generated_init (Model_fields ++ [("name", TyStr)]) |}.

Definition Note : pyclass :=
  {| cls_name := "Note";
     cls_fields := Some [("id", TyStr); ("name", TyStr)];
     cls_new := generated_init [("id", TyStr); ("name", TyStr)] |}.

(** A class with a [deleted_at] field that is declared as a mapping. *)
Definition Bin : pyclass :=
  {| cls_name := "Bin";
     cls_fields := Some [("id", TyStr); ("deleted_at", TyDict)];
     cls_new := generated_init [("id", TyStr); ("deleted_at", TyDict)] |}.

Definition component_row (id created name : string) (deleted : sval) : srow :=
  [("id", SText id); ("created_at", SText created); ("updated_at", SText created);
   ("deleted_at", deleted); ("name", SText name)].

(** A world whose clock reads "t0", "t1", ... and whose uuids are "u0",
    "u1", ... *)
Definition tick_text (prefix : string) (n : nat) : string :=
  prefix ++ string_of_list_ascii (Json.chars_of_Z (Z.of_nat n)).

Definition world_of (tbl : list srow) : world :=
  {| rows := tbl; journal := [];
     clock := tick_text "t"; ticks := 0;
     uuid_source := tick_text "u"; draws := 0 |}.

Definition three_components : list srow :=
  [component_row "a" "2024-01-01" "button" SNull;
   component_row "b" "2024-01-02" "card" SNull;
   component_row "c" "2024-01-03" "button" (SText "2024-02-01")].

(** Twenty-five live components, named "n0" .. "n24". *)
Definition twenty_five : list srow :=
  map (fun i => component_row (tick_text "r" i) "2024-01-01" (tick_text "n" i) SNull)
      (seq 0 25).

Definition instances_of {A} (r : result (list A)) : list A :=
  match r with Ok xs => xs | Err _ => [] end.

(** An instance has every attribute [create] reads from it. *)
Definition has_attrs (i : instance) (fs : list _FieldInfo) : bool :=
  forallb (fun f => dict_has (name f) (inst_data i)) fs.

(** The arguments the first loop of [create] turns into a record. *)
Definition accepted_by_create (self : Table) (item : pyobj) : bool :=
  match item with
  | ODict _ => true
  | OInstance i =>
      has_attrs i (filter (fun f => negb (str_in (name f) AUTO_FIELDS)) (_fields self))
  | OOther _ => false
  end.

(** An instance of a dataclass that is not the bound one. *)
Definition an_invoice : instance :=
  {| inst_cls := "Invoice";
     inst_data := [("name", PStr "paper"); ("amount", PInt 3)] |}.

(** The arguments the first loop of [delete] turns into a record. *)
Definition accepted_by_delete (item : pyobj) : bool :=
  match item with
  | ODict _ => true
  | OInstance i => negb (lacks_id (inst_data i))
  | OOther _ => false
  end.

Definition is_ok {A} (r : result A) : bool :=
  match r with Ok _ => true | Err _ => false end.

(** The value of a keyword can be encoded for its field: for a JSON field
    it is None or json can serialize it; other fields take any value. *)
Definition encodable (self : Table) (kv : string * pyval) : bool :=
  match _field_map self (fst kv) with
  | Some f =>
      if is_json f && negb (is_none (snd kv)) then is_ok (json_dumps (snd kv))
      else true
  | None => true
  end.

(** The parameters of [read]: a key of that name in a record [delete]
    forwards to [read] is taken by [read] as its own parameter. *)
Definition read_parameters : list string :=
  ["include_deleted"; "page"; "per_page"].

(** The stored rows whose id is the text [X]. *)
Definition rows_with_id (X : string) (tbl : list srow) : list srow :=
  filter (fun r => holds r (BEq "id" (SText X))) tbl.

(** The [Component] named "button" with the given id and timestamps. *)
Definition button_instance (id created updated : string) : instance :=
  {| inst_cls := "Component";
     inst_data := [("id", PStr id); ("created_at", PStr created);
                   ("updated_at", PStr updated); ("deleted_at", PNone);
                   ("name", PStr "button")] |}.

(** The world after a statement has been logged and the rows replaced. *)
Definition after (s : stmt) (tbl : list srow) (w : world) : world :=
  {| rows := tbl; journal := journal w ++ [s]; clock := clock w;
     ticks := ticks w; uuid_source := uuid_source w; draws := draws w |}.

(** ** JSON documents among the Python values

    The values [json.loads] can return: None, bools, ints, floats, text,
    lists, and dicts keyed by distinct texts.  A float is named by a literal
    that the number scanner reads back whole, or is one of nan, inf, -inf. *)
Definition float_repr_ok (r : string) : bool :=
  String.eqb r "nan" || String.eqb r "inf" || String.eqb r "-inf" ||
  match Json.scan_number (list_ascii_of_string r) with
  | Some (PFloat r', []) => String.eqb r' r
  | _ => false
  end.

Fixpoint distinct (ks : list string) : bool :=
  match ks with
  | [] => true
  | k :: ks' => negb (str_in k ks') && distinct ks'
  end.

Definition key_text (k : pyval) : string :=
  match k with PStr s => s | _ => EmptyString end.

Definition is_str (k : pyval) : bool :=
  match k with PStr _ => true | _ => false end.

Fixpoint json_value (v : pyval) : bool :=
  match v with
  | PNone | PBool _ | PInt _ | PStr _ => true
  | PFloat r => float_repr_ok r
  | PList l => forallb json_value l
  | PDict d =>
      forallb (fun kv => match kv with (k, x) => is_str k && json_value x end) d
      && distinct (map (fun kv => key_text (fst kv)) d)
  | PBytes _ | PTuple _ | POther _ => false
  end.

(** The fuel [parse_value] needs to read a value back. *)
Fixpoint size (v : pyval) : nat :=
  match v with
  | PList l | PTuple l => S (fold_right (fun x n => S (size x + n)) 0 l)
  | PDict d => S (fold_right (fun kv n => match kv with
                                          | (_, x) => S (size x + n)
                                          end) 0 d)
  | _ => 1
  end.

(** What may follow a value inside a json text: nothing, a comma, or a
    closing bracket or brace. *)
Definition delim (rest : list ascii) : bool :=
  match rest with
  | [] => true
  | c :: _ => (Ascii.eqb c "," || Ascii.eqb c "]" || Ascii.eqb c "}")%char
  end.

(** A text that starts as a json value does: not with whitespace, not with
    a closing bracket or brace. *)
Definition starts_value (cs : list ascii) : bool :=
  match cs with
  | c :: _ => negb (Json.is_ws c) && negb (Ascii.eqb c "]") && negb (Ascii.eqb c "}")
  | [] => false
  end.

(** [parse_value] reads [x] back from what [dumps] wrote for it, whatever
    follows, given fuel for its size. *)
Definition reads_back (x : pyval) : Prop :=
  forall cs, Json.dumps x = Some cs ->
  forall fuel rest, size x <= fuel -> delim rest = true ->
  Json.parse_value fuel (cs ++ rest) = Some (x, rest).

Definition elems_fuel (l : list pyval) : nat :=
  fold_right (fun x n => S (size x + n)) 0 l.

Definition members_fuel (d : list (pyval * pyval)) : nat :=
  fold_right (fun kv n => match kv with (_, x) => S (size x + n) end) 0 d.

(** The members of a dict keyed by text, as [JSONObject] collects them. *)
Definition pairs_of (d : list (pyval * pyval)) : list (string * pyval) :=
  map (fun kv => (key_text (fst kv), snd kv)) d.

(** What [dumps] writes for one member of a dict. *)
Definition dumps_member (kv : pyval * pyval) : option (list ascii) :=
  match kv with
  | (k, x) =>
      match Json.dumps_key k, Json.dumps x with
      | Some ks, Some xs => Some (ks ++ [":"; " "]%char ++ xs)
      | _, _ => None
      end
  end.

(** ** Supported logical types and their storable values *)

Definition base_type (t : pytype) : bool :=
  match t with
  | TyInt | TyStr | TyFloat | TyBool | TyDict | TyList => true
  | _ => false
  end.

(** The logical type of a declaration [_get_fields] classifies as that
    type: integer, text, real, boolean, mapping or sequence, declared
    bare ([int], [dict], [list]) or as the union of the bare type with
    NoneType ([Optional[dict]], [list | None]).  A parametrized
    declaration ([list[int]], [dict[str, int]], [Optional[list[int]]]) has
    none: the helpers of the module classify it by its first type
    argument, or by the alias itself inside a union, and so never as
    JSON. *)
Definition logical_type (t : pytype) : option pytype :=
  if base_type t then Some t
  else
    match t with
    | TyUnion args =>
        match filter (fun a => negb (is_NoneType a)) args with
        | [b] => if base_type b then Some b else None
        | _ => None
        end
    | _ => None
    end.

Definition has_type (b : pytype) (v : pyval) : bool :=
  match b, v with
  | TyInt, PInt _ | TyStr, PStr _ | TyFloat, PFloat _
  | TyBool, PBool _ | TyDict, PDict _ | TyList, PList _ => true
  | _, _ => false
  end.

(** The values that come back as they went: an int of 64 bits, a float
    other than NaN, any text, a bool, and a mapping or sequence that is a
    json document. *)
Definition storable (v : pyval) : bool :=
  match v with
  | PInt z => ((- 2 ^ 63 <=? z) && (z <? 2 ^ 63))%Z
  | PFloat r => negb (String.eqb r "nan")
  | PStr _ | PBool _ => true
  | PDict _ | PList _ => json_value v
  | _ => false
  end.

(** A value a field declared with type [t] may hold: None, or a storable
    value of its logical type. *)
Definition field_value_ok (t : pytype) (v : pyval) : bool :=
  is_none v ||
  match logical_type t with
  | Some b => has_type b v && storable v
  | None => false
  end.

(** Encode a whole record with [_to_row], bind it as [sqlite3] does, and
    decode the stored row with [_from_row]. *)
Definition roundtrip (self : Table) (data : list (string * pyval))
  : result instance :=
  result_bind (_to_row self data) (fun row =>
  result_bind (result_map bind_set row) (fun stored =>
  _from_row self stored)).

(** A dataclass with a parametrized sequence field, [items: list[int]]. *)
Definition Crate_fields : list (string * pytype) :=
  [("items", TyAlias TyList [TyInt])].

Definition Crate : pyclass :=
  {| cls_name := "Crate";
     cls_fields := Some Crate_fields;
     cls_new := generated_init Crate_fields |}.

(** A dataclass with a field left out of the generated constructor,
    [serial: int = field(init=False, default=0)]: [fields] reports it,
    the constructor does not take it. *)
Definition Sealed : pyclass :=
  {| cls_name := "Sealed";
     cls_fields := Some [("label", TyStr); ("serial", TyInt)];
     cls_new := generated_init [("label", TyStr)] |}.

(** A dataclass with one field of each supported kind. *)
Definition Gadget_fields : list (string * pytype) :=
  [("count", TyInt); ("label", TyStr); ("ratio", TyFloat);
   ("enabled", TyBool); ("hidden", TyBool);
   ("meta", TyDict); ("tags", TyList);
   ("note", TyUnion [TyStr; TyNoneType]);
   ("extra", TyUnion [TyDict; TyNoneType]);
   ("path", TyUnion [TyList; TyNoneType])].

Definition Gadget : pyclass :=
  {| cls_name := "Gadget";
     cls_fields := Some Gadget_fields;
     cls_new := generated_init Gadget_fields |}.

Definition a_gadget : list (string * pyval) :=
  [("count", PInt (-7)); ("label", PStr "knob"); ("ratio", PFloat "1.5e-07");
   ("enabled", PBool true); ("hidden", PBool false);
   ("meta", PDict []); ("tags", PList []);
   ("note", PNone);
   ("extra", PDict [(PStr "sizes", PList [PInt 1; PFloat "2.5"; PNone]);
                    (PStr "on", PBool true)]);
   ("path", PList [PStr "a"; PList []; PDict [(PStr "k", PStr "v")]])].

Definition Box : pyclass :=
  {| cls_name := "Box";
     cls_fields := Some [("meta", TyDict); ("tags", TyList)];
     cls_new := generated_init [("meta", TyDict); ("tags", TyList)] |}.

(** ** Induction on Python values, through the lists they nest *)

Section pyval_induction.
Variable P : pyval -> Prop.
Hypothesis HNone : P PNone.
Hypothesis HBool : forall b, P (PBool b).
Hypothesis HInt : forall z, P (PInt z).
Hypothesis HFloat : forall r, P (PFloat r).
Hypothesis HStr : forall s, P (PStr s).
Hypothesis HBytes : forall b, P (PBytes b).
Hypothesis HList : forall l, Forall P l -> P (PList l).
Hypothesis HTuple : forall l, Forall P l -> P (PTuple l).
Hypothesis HDict : forall d, Forall (fun kv => P (snd kv)) d -> P (PDict d).
Hypothesis HOther : forall s, P (POther s).

Fixpoint pyval_nested_ind (v : pyval) : P v :=
  match v with
  | PNone => HNone
  | PBool b => HBool b
  | PInt z => HInt z
  | PFloat r => HFloat r
  | PStr s => HStr s
  | PBytes b => HBytes b
  | PList l =>
      HList l ((fix all (l : list pyval) : Forall P l :=
                  match l with
                  | [] => Forall_nil P
                  | x :: l' => Forall_cons x (pyval_nested_ind x) (all l')
                  end) l)
  | PTuple l =>
      HTuple l ((fix all (l : list pyval) : Forall P l :=
                   match l with
                   | [] => Forall_nil P
                   | x :: l' => Forall_cons x (pyval_nested_ind x) (all l')
                   end) l)
  | PDict d =>
      HDict d ((fix all (d : list (pyval * pyval))
                  : Forall (fun kv => P (snd kv)) d :=
                  match d with
                  | [] => Forall_nil _
                  | (k, x) :: d' =>
                      Forall_cons (k, x) (pyval_nested_ind x) (all d')
                  end) d)
  | POther s => HOther s
  end.
End pyval_induction.

(** ** Relations between the table before and after a computation *)

(** Whatever the world, the rows before and after [m] are related by [R]. *)
Definition steps {A} (R : list srow -> list srow -> Prop) (m : M A) : Prop :=
  forall w, R (rows w) (rows (snd (m w))).

(** The columns [update] never assigns. *)
Definition protected_columns : list string := ["id"; "created_at"; "deleted_at"].

(** Two rows agree on [id], [created_at] and [deleted_at]. *)
Definition same_protected (r r' : srow) : Prop :=
  forall k, In k protected_columns -> dict_get k r' = dict_get k r.

(** The row is what it was, or it was live and has been stamped with a
    deletion time. *)
Definition stamped (r r' : srow) : Prop :=
  r' = r \/
  (holds r (BIsNull "deleted_at") = true /\
   exists t, r' = dict_set "deleted_at" (SText t) r).

(** Two rows carry the same non-NULL id. *)
Definition ids_clash (r1 r2 : srow) : bool :=
  match dict_get "id" r2 with
  | Some v => holds r1 (BEq "id" v)
  | None => false
  end.

(** No two rows of the table carry the same non-NULL id. *)
Fixpoint pk_unique (tbl : list srow) : bool :=
  match tbl with
  | [] => true
  | r :: rest => negb (existsb (ids_clash r) rest) && pk_unique rest
  end.

(** The primary-key test of an INSERT: an existing row carries the id of
    the new one. *)
Definition ids_clash_with (new r : srow) : bool := ids_clash r new.

(** [effect Q m]: [Q] relates the table before [m], what [m] returns or
    raises, and the table afterwards. *)
Definition effect {A} (Q : list srow -> result A -> list srow -> Prop) (m : M A)
  : Prop :=
  forall w, Q (rows w) (fst (m w)) (rows (snd (m w))).

(** A computation that leaves every row as it is. *)
Definition silent {A} (m : M A) : Prop :=
  forall w, rows (snd (m w)) = rows w.

(** The value [m] can return. *)
Definition returns {A} (m : M A) (a : A) : Prop :=
  exists w, fst (m w) = Ok a.

(** What [create] may do to the table: it appends rows [added], at most
    [n] of them, each with exactly the columns of the type; and when it
    returns, it has added [n] rows and returns them decoded. *)
Definition created_rows (self : Table) (n : nat)
  (tbl : list srow) (res : result (list instance)) (tbl' : list srow) : Prop :=
  exists added,
    tbl' = tbl ++ added /\
    Forall (fun r => dict_keys r = columns self) added /\
    (List.length added <= n)%nat /\
    (forall found, res = Ok found ->
       List.length added = n /\
       result_map (_from_row self) added = Ok found).

(** Unique ids before give unique ids after. *)
Definition ids_unique (tbl tbl' : list srow) : Prop :=
  pk_unique tbl = true -> pk_unique tbl' = true.

(** Two rows hold the same under id. *)
Definition same_id (r r' : srow) : Prop := dict_get "id" r' = dict_get "id" r.

(** The LIMIT and OFFSET [read] computes from [page] and [per_page]. *)
Definition limit_of (page : option Z) (per_page : Z) : option (Z * Z) :=
  match page with
  | Some p => Some (per_page, ((Z.max 1 p - 1) * per_page)%Z)
  | None => None
  end.

(** The condition [read] and [count] add for a type with soft delete. *)
Definition live_cond (self : Table) (include_deleted : bool) : list cond :=
  if _soft_delete self && negb include_deleted then [IsNull "deleted_at"] else [].

(** The bound form of [live_cond]. *)
Definition live_bcond (self : Table) (include_deleted : bool) : list bcond :=
  if _soft_delete self && negb include_deleted then [BIsNull "deleted_at"] else [].

(** A row that does not carry the id [v] is left as it is. *)
Definition untouched (v : sval) (r r' : srow) : Prop :=
  holds r (BEq "id" v) = false -> r' = r.

(** Every stored row has exactly the columns of the type, in their order. *)
Definition in_shape (self : Table) (tbl : list srow) : Prop :=
  Forall (fun r => dict_keys r = columns self) tbl.

(** A table in shape before is in shape after. *)
Definition keeps_shape (self : Table) (tbl tbl' : list srow) : Prop :=
  in_shape self tbl -> in_shape self tbl'.

(** What [_from_row] builds for one field, when the field is not JSON. *)
Definition decoded_as (f : _FieldInfo) (kv : string * pyval) : Prop :=
  fst kv = name f /\
  (is_bool f = true -> snd kv = PNone \/ exists b, snd kv = PBool b).


(** What [update] leaves in a row it has reached: under every keyword
    that is not an automatic field, the encoded and bound value of that
    keyword, when the column keeps it as bound; under updated_at, when the
    type has it, the reading [now] of the clock. *)
Definition updated_row (self : Table) (record : list (string * pyval))
  (now : string) (r' : srow) : Prop :=
  (forall k p, In (k, p) record -> ~ In k AUTO_FIELDS ->
     exists p' sv,
       encode_field self (k, p) = Ok (k, p') /\
       sqlite_bind p' = Ok sv /\
       (kept_as_bound self k sv = true -> dict_get k r' = Some sv)) /\
  (in_field_map self "updated_at" = true ->
   dict_get "updated_at" r' = Some (SText now)).

(** The column types [_create_table] can write. *)
Definition column_type_ok (c : string * string) : Prop :=
  if String.eqb (fst c) "id" then snd c = "TEXT PRIMARY KEY"
  else In (snd c) ["INTEGER"; "TEXT"; "REAL"].

(** The row [create] stores for one record, in a world [w]: the columns
    of the type; under id the next uuid; under each keyword that is not an
    automatic field its encoded and bound value, when the column keeps it
    as bound; under created_at and updated_at, when the type has them, the
    next readings of the clock, in that order; NULL everywhere else. *)
Definition created_row (self : Table) (record : list (string * pyval))
  (w : world) (new : srow) : Prop :=
  dict_keys new = columns self /\
  dict_get "id" new = Some (SText (uuid_source w (draws w))) /\
  (forall k p, In (k, p) record -> ~ In k AUTO_FIELDS ->
     exists p' sv,
       encode_field self (k, p) = Ok (k, p') /\
       sqlite_bind p' = Ok sv /\
       (kept_as_bound self k sv = true -> dict_get k new = Some sv)) /\
  (forall k, In k (columns self) ->
     In k AUTO_FIELDS \/ ~ In k (dict_keys record) ->
     ~ In k ["id"; "created_at"; "updated_at"] ->
     dict_get k new = Some SNull) /\
  (in_field_map self "created_at" = true ->
   dict_get "created_at" new = Some (SText (clock w (ticks w)))) /\
  (in_field_map self "updated_at" = true ->
   dict_get "updated_at" new =
     Some (SText (clock w (if in_field_map self "created_at"
                           then S (ticks w) else ticks w)))).

(** What [_from_row] gives for a text stored under a field that is not
    JSON. *)
Definition decoded_text (f : _FieldInfo) (text : string) : pyval :=
  if is_bool f then PBool (py_bool (PStr text)) else PStr text.

(** * Properties *)

(** ** Fallible maps *)

Lemma result_map_app {A B} (f : A -> result B) (xs1 xs2 : list A) ys1 ys2 :
  result_map f xs1 = Ok ys1 ->
  result_map f xs2 = Ok ys2 ->
  result_map f (xs1 ++ xs2) = Ok (ys1 ++ ys2).
Proof.
  revert ys1. induction xs1 as [|x xs1 IH]; simpl; intros ys1 H1 H2.
  - inversion H1; subst. exact H2.
  - destruct (f x) as [y|e]; [|discriminate].
    destruct (result_map f xs1) as [ys|e]; [|discriminate].
    inversion H1; subst. rewrite (IH ys eq_refl H2). reflexivity.
Qed.

Lemma result_map_firstn {A B} (f : A -> result B) k (xs : list A) ys :
  result_map f xs = Ok ys ->
  result_map f (firstn k xs) = Ok (firstn k ys).
Proof.
  revert xs ys. induction k as [|k IH]; intros xs ys H; [reflexivity|].
  destruct xs as [|x xs]; simpl in *.
  - inversion H; subst. reflexivity.
  - destruct (f x) as [y|e]; [|discriminate].
    destruct (result_map f xs) as [ys'|e] eqn:E; [|discriminate].
    inversion H; subst. simpl. rewrite (IH xs ys' E). reflexivity.
Qed.

Lemma result_map_skipn {A B} (f : A -> result B) k (xs : list A) ys :
  result_map f xs = Ok ys ->
  result_map f (skipn k xs) = Ok (skipn k ys).
Proof.
  revert xs ys. induction k as [|k IH]; intros xs ys H; [exact H|].
  destruct xs as [|x xs]; simpl in *.
  - inversion H; subst. reflexivity.
  - destruct (f x) as [y|e]; [|discriminate].
    destruct (result_map f xs) as [ys'|e] eqn:E; [|discriminate].
    inversion H; subst. simpl. apply IH. exact E.
Qed.

Lemma result_map_ext {A B} (f g : A -> result B) (xs : list A) :
  (forall x, In x xs -> f x = g x) ->
  result_map f xs = result_map g xs.
Proof.
  induction xs as [|x xs IH]; simpl; intros H; [reflexivity|].
  rewrite (H x (or_introl eq_refl)), IH; [reflexivity|].
  intros y Hy. apply H. right. exact Hy.
Qed.

(** ** Statements that only read *)

Lemma execute_read_only cols s tbl res tbl' :
  read_only s = true ->
  execute cols s tbl = Ok (res, tbl') -> tbl' = tbl.
Proof.
  destruct s; simpl; try discriminate; intros _ H.
  - inversion H; reflexivity.
  - destruct (negb _); [discriminate|].
    destruct (result_map bind_cond conds); simpl in H; [|discriminate].
    destruct (limit_accepted page); [|discriminate].
    inversion H; reflexivity.
  - destruct (negb _); [discriminate|].
    destruct (result_map bind_cond conds); simpl in H; [|discriminate].
    inversion H; reflexivity.
Qed.

Lemma _sql_read_only_rows self s w :
  read_only s = true -> rows (snd (_sql self s w)) = rows w.
Proof.
  intros Hs. unfold _sql.
  destruct (execute (columns self) s (rows w)) as [[res tbl]|e] eqn:E; simpl.
  - eapply execute_read_only; eauto.
  - reflexivity.
Qed.

Lemma _sql_journal self s w :
  journal (snd (_sql self s w)) = journal w ++ [s].
Proof.
  unfold _sql.
  destruct (execute (columns self) s (rows w)) as [[res tbl]|e]; reflexivity.
Qed.

(** C9: [read] and [count] leave the stored rows as they were, whatever
    the filters, [include_deleted] and the pagination, and whether they
    return or raise. *)
Theorem read_count_leave_rows_unchanged :
  forall self include_deleted page per_page kwargs w,
    rows (snd (read self include_deleted page per_page kwargs w)) = rows w /\
    rows (snd (count self include_deleted per_page kwargs w)) = rows w.
Proof.
  intros self incl page n kwargs w. split.
  - unfold read, bind, lift.
    destruct (conditions self incl kwargs) as [conds|e]; [|reflexivity].
    match goal with |- context [_sql self ?s w] =>
      pose proof (_sql_read_only_rows self s w eq_refl) as Hr;
      destruct (_sql self s w) as [[rs|e] w'] end; simpl in *; exact Hr.
  - unfold count, bind, lift, raise, ret.
    destruct (conditions self incl kwargs) as [conds|e]; [|reflexivity].
    match goal with |- context [_sql self ?s w] =>
      pose proof (_sql_read_only_rows self s w eq_refl) as Hr;
      destruct (_sql self s w) as [[rs|e] w'] end; simpl in *; [|exact Hr].
    destruct (first_cell rs) as [tot|e]; simpl; [|exact Hr].
    destruct ((0 <? tot)%Z && (n =? 0)%Z); exact Hr.
Qed.

(** ** Field names, columns and conditions *)

Lemma str_in_In k ks : str_in k ks = true <-> In k ks.
Proof.
  unfold str_in. rewrite existsb_exists. split.
  - intros [x [Hx He]]. apply String.eqb_eq in He. subst. exact Hx.
  - intros H. exists k. split; [exact H|apply String.eqb_refl].
Qed.

Lemma in_field_map_columns self k :
  in_field_map self k = true -> str_in k (columns self) = true.
Proof.
  unfold in_field_map, _field_map, columns. intros H.
  destruct (find _ (_fields self)) as [f|] eqn:E; [|discriminate].
  apply find_some in E. destruct E as [Hin He].
  apply String.eqb_eq in He. subst k.
  apply str_in_In. apply in_map. exact Hin.
Qed.

Lemma soft_delete_column cls :
  _has_soft_delete cls = true ->
  in_field_map (handle cls) "deleted_at" = true.
Proof.
  unfold _has_soft_delete, in_field_map, _field_map, handle, _get_fields; simpl.
  induction (fields cls) as [|[k t] fs IH]; simpl; [discriminate|].
  rewrite (String.eqb_sym k "deleted_at").
  destruct (String.eqb "deleted_at" k); simpl; [reflexivity|exact IH].
Qed.

Lemma _to_row_keys self kwargs row :
  _to_row self kwargs = Ok row ->
  dict_keys row = dict_keys kwargs /\
  forallb (in_field_map self) (dict_keys kwargs) = true.
Proof.
  unfold _to_row, encode_field, in_field_map. revert row.
  induction kwargs as [|[k v] kwargs IH]; simpl; intros row H.
  - inversion H; subst. split; reflexivity.
  - destruct (_field_map self k) as [f|]; [|discriminate].
    match type of H with
    | match ?x with _ => _ end = _ => destruct x as [kv|e] eqn:Ekv; [|discriminate]
    end.
    match type of H with
    | match ?x with _ => _ end = _ => destruct x as [row'|e] eqn:Er; [|discriminate]
    end.
    inversion H; subst. destruct (IH row' eq_refl) as [IH1 IH2].
    simpl. rewrite IH1, IH2. split; [|reflexivity]. f_equal.
    destruct (is_none v); [inversion Ekv; reflexivity|].
    destruct (is_json f).
    + destruct (json_dumps v); simpl in Ekv; inversion Ekv; reflexivity.
    + inversion Ekv; reflexivity.
Qed.

Lemma known_cols_fields self ks :
  forallb (in_field_map self) ks = true -> known_cols (columns self) ks = true.
Proof.
  unfold known_cols. rewrite !forallb_forall. intros H k Hk.
  apply in_field_map_columns. apply H. exact Hk.
Qed.

Lemma known_cols_app cols a b :
  known_cols cols (a ++ b) = known_cols cols a && known_cols cols b.
Proof. unfold known_cols. apply forallb_app. Qed.

Lemma eq_conds_cols row : map cond_col (eq_conds row) = dict_keys row.
Proof. unfold eq_conds, dict_keys. rewrite map_map. reflexivity. Qed.

Lemma bind_eq_conds row stored :
  result_map sqlite_bind (dict_values row) = Ok stored ->
  result_map bind_cond (eq_conds row) =
    Ok (map (fun kv => BEq (fst kv) (snd kv)) (combine (dict_keys row) stored)).
Proof.
  revert stored. induction row as [|[k v] row IH]; simpl; intros stored H.
  - inversion H; reflexivity.
  - destruct (sqlite_bind v) as [sv|e]; [|discriminate].
    destruct (result_map sqlite_bind (dict_values row)) as [svs|e] eqn:E;
      [|discriminate].
    inversion H; subst. simpl. rewrite (IH svs eq_refl). reflexivity.
Qed.

Lemma sval_eqb_eq x y : sval_eqb x y = true <-> x = y.
Proof.
  destruct x, y; simpl; split; intros H; try discriminate; try reflexivity.
  - apply Z.eqb_eq in H. subst. reflexivity.
  - inversion H. apply Z.eqb_refl.
  - apply String.eqb_eq in H. subst. reflexivity.
  - inversion H. apply String.eqb_refl.
  - apply String.eqb_eq in H. subst. reflexivity.
  - inversion H. apply String.eqb_refl.
  - apply String.eqb_eq in H. subst. reflexivity.
  - inversion H. apply String.eqb_refl.
Qed.

(** The engine's [=] holds exactly between a value and itself, NULL
    apart. *)
Lemma sql_eq_same_value x v : sql_eq x v = sval_eqb x v && negb (is_null x).
Proof. destruct x, v; simpl; rewrite ?andb_true_r; reflexivity. Qed.

Lemma where_row_matches filters (live : bool) r :
  where_ (map (fun kv => BEq (fst kv) (snd kv)) filters
          ++ (if live then [BIsNull "deleted_at"] else [])) r
  = row_matches filters live r.
Proof.
  unfold where_, row_matches. rewrite forallb_app. f_equal.
  - induction filters as [|[k v] fs IH]; simpl; [reflexivity|].
    rewrite IH. destruct (dict_get k r) as [x|]; [|reflexivity].
    rewrite sql_eq_same_value. reflexivity.
  - destruct live; simpl; [|reflexivity].
    destruct (dict_get "deleted_at" r) as [x|]; [destruct x|]; reflexivity.
Qed.

(** The conditions of [read] and [count], once bound, select exactly the
    matching rows. *)
Lemma conditions_select cls include_deleted kwargs row stored :
  _to_row (handle cls) kwargs = Ok row ->
  result_map sqlite_bind (dict_values row) = Ok stored ->
  exists conds cs,
    conditions (handle cls) include_deleted kwargs = Ok conds /\
    known_cols (columns (handle cls)) (map cond_col conds) = true /\
    result_map bind_cond conds = Ok cs /\
    forall r, where_ cs r =
              row_matches (combine (dict_keys kwargs) stored)
                          (_has_soft_delete cls && negb include_deleted) r.
Proof.
  intros Hrow Hst.
  destruct (_to_row_keys _ _ _ Hrow) as [Hk Hf].
  pose proof (bind_eq_conds _ _ Hst) as Hb. rewrite Hk in Hb.
  set (live := _has_soft_delete cls && negb include_deleted).
  exists (eq_conds row ++ (if live then [IsNull "deleted_at"] else [])).
  exists (map (fun kv => BEq (fst kv) (snd kv)) (combine (dict_keys kwargs) stored)
          ++ (if live then [BIsNull "deleted_at"] else [])).
  split; [|split; [|split]].
  - unfold conditions. simpl _soft_delete. fold live.
    destruct kwargs as [|kv kwargs].
    + simpl in Hrow. inversion Hrow; subst. simpl. destruct live; reflexivity.
    + rewrite Hrow. simpl. fold (eq_conds row).
      destruct live; [reflexivity|]. rewrite List.app_nil_r. reflexivity.
  - rewrite map_app, known_cols_app, eq_conds_cols, Hk.
    rewrite (known_cols_fields _ _ Hf). simpl.
    destruct live eqn:El; [|reflexivity]. simpl.
    unfold live in El. apply andb_true_iff in El. destruct El as [El _].
    rewrite (in_field_map_columns _ _ (soft_delete_column _ El)). reflexivity.
  - apply result_map_app; [exact Hb|]. destruct live; reflexivity.
  - intros r. apply where_row_matches.
Qed.

(** ** count *)

Lemma ceiling_division (a n : Z) :
  (0 < a)%Z -> (0 < n)%Z ->
  (((a + n - 1) / n - 1) * n < a <= (a + n - 1) / n * n)%Z.
Proof.
  intros Ha Hn.
  pose proof (Z.div_mod (a + n - 1) n ltac:(lia)) as Hd.
  pose proof (Z.mod_pos_bound (a + n - 1) n Hn) as Hm.
  nia.
Qed.



(** ** read: pagination *)

(** C7: with a page [p] and a page size [n > 0], [read] sends the
    selection with LIMIT [n] and OFFSET [(max(1, p) - 1) * n]; any [p <= 1]
    is page 1.  What it returns is that slice of what the unpaginated
    [read] returns, as long as LIMIT and OFFSET are 64-bit integers (beyond
    them SQLite refuses the statement).  Of 25 matching records page 1 of
    size 10 has 10 and page 3 has 5. *)
Theorem read_pagination :
  forall self include_deleted p n kwargs w all,
    (0 < n)%Z ->
    fst (read self include_deleted None n kwargs w) = Ok all ->
    let offset := ((Z.max 1 p - 1) * n)%Z in
    let page := firstn (Z.to_nat n) (skipn (Z.to_nat offset) all) in
    (exists conds,
        conditions self include_deleted kwargs = Ok conds /\
        journal (snd (read self include_deleted (Some p) n kwargs w)) =
          journal w ++ [SelectFrom conds (Some (n, offset))]) /\
    ((p <= 1)%Z -> offset = 0%Z /\ page = firstn (Z.to_nat n) all) /\
    fst (read self include_deleted (Some p) n kwargs w) =
      (if int64 n && int64 offset then Ok page else Err IntegrityError) /\
    (List.length all = 25%nat -> n = 10%Z ->
     (p = 1%Z ->
      fst (read self include_deleted (Some p) n kwargs w) = Ok page /\
      List.length page = 10%nat) /\
     (p = 3%Z ->
      fst (read self include_deleted (Some p) n kwargs w) = Ok page /\
      List.length page = 5%nat)).
Proof.
  intros self incl p n kwargs w all Hn Hall offset page.
  assert (Hlim : (n <? 0)%Z = false) by (apply Z.ltb_ge; lia).
  assert (Hzero : (n =? 0)%Z = false) by (apply Z.eqb_neq; lia).
  assert (Hres : fst (read self incl (Some p) n kwargs w) =
                 (if int64 n && int64 offset then Ok page else Err IntegrityError)).
  { revert Hall. unfold read, bind, lift, _sql.
    destruct (conditions self incl kwargs) as [conds|e]; simpl; [|discriminate].
    destruct (negb (known_cols _ _)); simpl; [discriminate|].
    destruct (result_map bind_cond conds) as [cs|e]; simpl; [|discriminate].
    fold offset. rewrite Hlim, Hzero. cbn [orb].
    destruct (int64 n && int64 offset); [|reflexivity].
    cbn [fst]. intros Hall.
    apply result_map_firstn, result_map_skipn. exact Hall. }
  split; [|split; [|split]].
  - revert Hall. unfold read, bind, lift.
    destruct (conditions self incl kwargs) as [conds|e]; simpl; [|discriminate].
    intros _. exists conds. split; [reflexivity|]. fold offset.
    pose proof (_sql_journal self (SelectFrom conds (Some (n, offset))) w) as Hj.
    destruct (_sql self (SelectFrom conds (Some (n, offset))) w) as [[rs|e] w1];
      simpl in *; exact Hj.
  - intros Hp. assert (Ho : offset = 0%Z) by (unfold offset; lia).
    split; [exact Ho|]. unfold page. rewrite Ho. reflexivity.
  - exact Hres.
  - intros Hlen Hten. rewrite Hres. subst n. unfold page, offset.
    split; intros Hp; subst p;
      (split; [reflexivity|rewrite length_firstn, length_skipn, Hlen; reflexivity]).
Qed.

Lemma read_pagination_witness :
  let w := world_of twenty_five in
  let all := instances_of (fst (read (handle Component) false None 10 [] w)) in
  (0 < 10)%Z /\
  fst (read (handle Component) false None 10 [] w) = Ok all /\
  List.length all = 25%nat /\
  List.length (instances_of (fst (read (handle Component) false (Some 1%Z) 10 [] w))) = 10%nat /\
  List.length (instances_of (fst (read (handle Component) false (Some 3%Z) 10 [] w))) = 5%nat.
Proof.
  intros w all.
  assert (Hn : (0 < 10)%Z) by lia.
  assert (Hall : fst (read (handle Component) false None 10 [] w) = Ok all)
    by (vm_compute; reflexivity).
  assert (Hlen : List.length all = 25%nat) by (vm_compute; reflexivity).
  split; [exact Hn|]. split; [exact Hall|]. split; [exact Hlen|]. split.
  - destruct (read_pagination (handle Component) false 1 10 [] w all Hn Hall)
      as [_ [_ [_ H4]]].
    destruct (proj1 (H4 Hlen eq_refl) eq_refl) as [H1 H10].
    rewrite H1. simpl instances_of. exact H10.
  - destruct (read_pagination (handle Component) false 3 10 [] w all Hn Hall)
      as [_ [_ [_ H4]]].
    destruct (proj2 (H4 Hlen eq_refl) eq_refl) as [H1 H5].
    rewrite H1. simpl instances_of. exact H5.
Defined.

(** ** create: which arguments are refused *)

Lemma result_map_err {A B} (f : A -> result B) (xs : list A) e :
  result_map f xs = Err e <->
  exists pre x post,
    xs = pre ++ x :: post /\
    (exists ys, result_map f pre = Ok ys) /\
    f x = Err e.
Proof.
  split.
  - induction xs as [|x xs IH]; simpl; [discriminate|].
    destruct (f x) as [y|e'] eqn:Ex.
    + destruct (result_map f xs) as [ys|e'] eqn:Er; [discriminate|].
      intros H. inversion H; subst e'.
      destruct (IH eq_refl) as [pre [x' [post [Hxs [[ys Hpre] Hx']]]]].
      exists (x :: pre), x', post. subst xs. split; [reflexivity|].
      split; [|exact Hx']. exists (y :: ys). simpl. rewrite Ex, Hpre. reflexivity.
    + intros H. inversion H; subst e'.
      exists [], x, xs. split; [reflexivity|]. split; [|exact Ex].
      exists []. reflexivity.
  - intros [pre [x [post [Hxs [[ys Hpre] Hx]]]]]. subst xs. revert ys Hpre.
    induction pre as [|p pre IH]; simpl; intros ys Hpre.
    + rewrite Hx. reflexivity.
    + destruct (f p) as [y|e']; [|discriminate].
      destruct (result_map f pre) as [ys'|e']; [|discriminate].
      rewrite (IH ys' eq_refl). reflexivity.
Qed.

Lemma result_map_ok {A B} (f : A -> result B) (xs : list A) :
  (exists ys, result_map f xs = Ok ys) <->
  Forall (fun x => exists y, f x = Ok y) xs.
Proof.
  induction xs as [|x xs IH]; simpl.
  - split; [constructor|]. intros _. exists []. reflexivity.
  - split.
    + intros [ys H]. destruct (f x) as [y|e] eqn:Ex; [|discriminate].
      destruct (result_map f xs) as [ys'|e]; [|discriminate].
      constructor; [exists y; exact Ex|]. apply IH. exists ys'. reflexivity.
    + intros H. inversion H as [|? ? [y Hy] Hxs]; subst.
      apply IH in Hxs. destruct Hxs as [ys Hys].
      exists (y :: ys). rewrite Hy, Hys. reflexivity.
Qed.

(** Reading attributes off an instance either yields them all or raises
    an AttributeError, never a TypeError. *)
Lemma getattrs_result (i : instance) (fs : list _FieldInfo) :
  (has_attrs i fs = true ->
   exists r, result_map
               (fun f => result_bind (getattr i (name f)) (fun v => Ok (name f, v)))
               fs = Ok r) /\
  (has_attrs i fs = false ->
   exists a, result_map
               (fun f => result_bind (getattr i (name f)) (fun v => Ok (name f, v)))
               fs = Err (AttributeError a)).
Proof.
  unfold has_attrs, getattr, dict_has.
  induction fs as [|f fs [IH1 IH2]]; simpl.
  - split; [intros _; exists []; reflexivity|discriminate].
  - destruct (dict_get (name f) (inst_data i)) as [v|]; simpl.
    + split; intros H.
      * destruct (IH1 H) as [r Hr]. rewrite Hr. eexists; reflexivity.
      * destruct (IH2 H) as [a Ha]. rewrite Ha. eexists; reflexivity.
    + split; [discriminate|]. intros _. eexists; reflexivity.
Qed.

Lemma create_record_accepted self item :
  accepted_by_create self item = true <->
  exists r, create_record self item = Ok r.
Proof.
  destruct item as [d|i|descr]; cbn [create_record accepted_by_create].
  - split; [intros _; exists d; reflexivity|reflexivity].
  - split.
    + intros H. apply (proj1 (getattrs_result i _)). exact H.
    + intros [r Hr].
      destruct (has_attrs i _) eqn:E; [reflexivity|].
      destruct (proj2 (getattrs_result i _) E) as [a Ha].
      rewrite Ha in Hr. discriminate.
  - split; [discriminate|]. intros [r Hr]. discriminate.
Qed.

Lemma create_record_type_error self item :
  create_record self item = Err TypeError <-> exists descr, item = OOther descr.
Proof.
  destruct item as [d|i|descr]; cbn [create_record accepted_by_create].
  - split; [discriminate|]. intros [x Hx]. discriminate.
  - split; [|intros [x Hx]; discriminate].
    intros H. destruct (has_attrs i
      (filter (fun f => negb (str_in (name f) AUTO_FIELDS)) (_fields self))) eqn:E.
    + destruct (proj1 (getattrs_result i _) E) as [r Hr]. rewrite Hr in H. discriminate.
    + destruct (proj2 (getattrs_result i _) E) as [a Ha]. rewrite Ha in H. discriminate.
  - split; [intros _; exists descr; reflexivity|reflexivity].
Qed.

(** C3, amended: the argument check of [create] raises a TypeError exactly
    when it meets an argument that is neither a mapping nor an instance of
    a dataclass - of any dataclass - every argument before it having been
    turned into a record; the call then fails with that error and the world
    is untouched.  An instance, of the bound class or of another, never
    makes the check raise a TypeError. *)
Theorem create_type_error_amended :
  forall self items kwargs,
    (create_records self items kwargs = Err TypeError <->
     exists pre descr post,
       items = pre ++ OOther descr :: post /\
       forallb (accepted_by_create self) pre = true) /\
    (forall e w, create_records self items kwargs = Err e ->
                 create self items kwargs w = (Err e, w)) /\
    (forall i, create_records self [OInstance i] kwargs <> Err TypeError).
Proof.
  intros self items kwargs. split; [|split].
  - unfold create_records. split.
    + intros H.
      destruct (result_map (create_record self) items) as [rs|e] eqn:E;
        simpl in H; [discriminate|].
      inversion H; subst e.
      apply result_map_err in E.
      destruct E as [pre [x [post [Hxs [Hpre Hx]]]]].
      apply create_record_type_error in Hx. destruct Hx as [descr Hd]. subst x.
      exists pre, descr, post. split; [exact Hxs|].
      apply forallb_forall. intros y Hy.
      apply create_record_accepted.
      apply result_map_ok in Hpre. rewrite Forall_forall in Hpre. auto.
    + intros [pre [descr [post [Hxs Hpre]]]].
      assert (E : result_map (create_record self) items = Err TypeError).
      { apply result_map_err. exists pre, (OOther descr), post.
        split; [exact Hxs|]. split; [|reflexivity].
        apply result_map_ok. apply Forall_forall. intros y Hy.
        apply create_record_accepted.
        rewrite forallb_forall in Hpre. auto. }
      rewrite E. reflexivity.
  - intros e w H. unfold create, bind, lift. rewrite H. reflexivity.
  - intros i H. unfold create_records in H. cbn [result_map] in H.
    destruct (create_record self (OInstance i)) as [r|e] eqn:E;
      cbn [result_bind] in H; [discriminate|].
    inversion H; subst e.
    apply create_record_type_error in E. destruct E as [d Hd]. discriminate.
Qed.

Lemma create_type_error_amended_witness :
  create_records (handle Component) [ODict [("name", PStr "a")]; OOther "42"] []
    = Err TypeError /\
  create (handle Component) [ODict [("name", PStr "a")]; OOther "42"] []
    (world_of three_components)
    = (Err TypeError, world_of three_components).
Proof.
  split; [reflexivity|].
  exact (proj1 (proj2 (create_type_error_amended (handle Component)
                         [ODict [("name", PStr "a")]; OOther "42"] []))
           TypeError (world_of three_components) eq_refl).
Defined.

(** C3, as stated, fails: an instance of another dataclass is not refused
    with a TypeError; its [name] is read and a row is inserted. *)
Lemma create_accepts_foreign_instance :
  inst_cls an_invoice <> cls_name Component /\
  fst (create (handle Component) [OInstance an_invoice] [] (world_of [])) =
    Ok [{| inst_cls := "Component";
           inst_data := [("id", PStr "u0"); ("created_at", PStr "t0");
                         ("updated_at", PStr "t1"); ("deleted_at", PNone);
                         ("name", PStr "paper")] |}] /\
  fst (create (handle Component) [OInstance an_invoice] [] (world_of [])) <>
    Err TypeError.
Proof.
  split; [discriminate|]. split; [vm_compute; reflexivity|].
  vm_compute. discriminate.
Qed.

(** ** update and delete: a record without an id *)

Lemma for_records_app {R} (body : R -> M (list instance)) (xs ys : list R) w :
  for_records body (xs ++ ys) w =
  match for_records body xs w with
  | (Ok a, w1) =>
      match for_records body ys w1 with
      | (Ok b, w2) => (Ok (a ++ b), w2)
      | (Err e, w2) => (Err e, w2)
      end
  | (Err e, w1) => (Err e, w1)
  end.
Proof.
  revert w. induction xs as [|x xs IH]; intros w; simpl.
  - unfold ret. destruct (for_records body ys w) as [[b|e] w2]; reflexivity.
  - unfold bind, ret. destruct (body x w) as [[a|e] w1]; [|reflexivity].
    rewrite IH.
    destruct (for_records body xs w1) as [[a'|e] w2]; [|reflexivity].
    destruct (for_records body ys w2) as [[b|e] w3]; [|reflexivity].
    rewrite List.app_assoc. reflexivity.
Qed.

Lemma update_one_lacks_id self record w :
  lacks_id record = true -> update_one self record w = (Err ValueError, w).
Proof.
  unfold lacks_id, update_one. intros H.
  destruct (dict_get "id" record) as [v|]; [|reflexivity].
  rewrite H. reflexivity.
Qed.

Lemma delete_record_accepted item :
  accepted_by_delete item = true <-> exists r, delete_record item = Ok r.
Proof.
  destruct item as [d|i|descr]; unfold accepted_by_delete, delete_record, lacks_id.
  - split; [intros _; exists d; reflexivity|reflexivity].
  - destruct (dict_get "id" (inst_data i)) as [v|].
    + destruct (is_none v); simpl.
      * split; [discriminate|]. intros [r Hr]. discriminate.
      * split; [intros _; eexists; reflexivity|reflexivity].
    + simpl. split; [discriminate|]. intros [r Hr]. discriminate.
  - split; [discriminate|]. intros [r Hr]. discriminate.
Qed.

Lemma delete_record_lacks_id i :
  lacks_id (inst_data i) = true -> delete_record (OInstance i) = Err ValueError.
Proof.
  unfold delete_record, lacks_id.
  destruct (dict_get "id" (inst_data i)) as [v|]; [|reflexivity].
  intros H. rewrite H. reflexivity.
Qed.

(** C5, amended.  [delete]: an instance without an id, the arguments
    before it being mappings or instances with an id, makes the call fail
    with a ValueError before any statement.  [update]: the records are
    processed in order; at the first record without a resolvable id the call
    fails with a ValueError, nothing being executed for that record or the
    later ones, after the records before it have been processed as a call of
    their own (their updates are committed; if one of them raises, that
    error is the outcome).  With the id-less record in first position no
    statement is executed at all. *)
Theorem missing_id_amended :
  forall self,
    (forall items hard kwargs w pre i post,
        items = pre ++ OInstance i :: post ->
        forallb accepted_by_delete pre = true ->
        lacks_id (inst_data i) = true ->
        delete self items hard kwargs w = (Err ValueError, w)) /\
    (forall items kwargs w good bad rest,
        update_records self items kwargs = Ok (good ++ bad :: rest) ->
        lacks_id bad = true ->
        update self items kwargs w =
          match for_records (update_one self) good w with
          | (Ok _, w') => (Err ValueError, w')
          | (Err e, w') => (Err e, w')
          end) /\
    (forall items kwargs w bad rest,
        update_records self items kwargs = Ok (bad :: rest) ->
        lacks_id bad = true ->
        update self items kwargs w = (Err ValueError, w)).
Proof.
  intros self. split; [|split].
  - intros items hard kwargs w pre i post Hitems Hpre Hbad.
    assert (E : result_map delete_record items = Err ValueError).
    { apply result_map_err. exists pre, (OInstance i), post.
      split; [exact Hitems|]. split; [|apply delete_record_lacks_id; exact Hbad].
      apply result_map_ok. apply Forall_forall. intros y Hy.
      apply delete_record_accepted. rewrite forallb_forall in Hpre. auto. }
    unfold delete, delete_records, bind, lift. rewrite E. reflexivity.
  - intros items kwargs w good bad rest Hrec Hbad.
    unfold update, bind, lift. rewrite Hrec.
    rewrite for_records_app.
    destruct (for_records (update_one self) good w) as [[a|e] w1]; [|reflexivity].
    simpl. unfold bind. rewrite (update_one_lacks_id self bad w1 Hbad). reflexivity.
  - intros items kwargs w bad rest Hrec Hbad.
    unfold update, bind, lift. rewrite Hrec. simpl. unfold bind.
    rewrite (update_one_lacks_id self bad w Hbad). reflexivity.
Qed.

Lemma missing_id_amended_witness :
  (delete (handle Component)
     [ODict [("id", PStr "a")];
      OInstance {| inst_cls := "Component";
                   inst_data := [("id", PNone); ("name", PStr "card")] |}]
     false [] (world_of three_components)
   = (Err ValueError, world_of three_components)) /\
  (update (handle Component) [ODict [("name", PStr "card")]] []
     (world_of three_components)
   = (Err ValueError, world_of three_components)).
Proof.
  split.
  - exact (proj1 (missing_id_amended (handle Component))
             _ false [] (world_of three_components)
             [ODict [("id", PStr "a")]]
             {| inst_cls := "Component";
                inst_data := [("id", PNone); ("name", PStr "card")] |}
             [] eq_refl eq_refl eq_refl).
  - exact (proj2 (proj2 (missing_id_amended (handle Component)))
             [ODict [("name", PStr "card")]] [] (world_of three_components)
             [("name", PStr "card")] [] eq_refl eq_refl).
Defined.

(** C5, as stated, fails for [update]: with the id-less record second in
    the batch, the first record has been updated - one UPDATE and one SELECT
    were executed - when the ValueError is raised. *)
Lemma update_batch_partly_applied :
  fst (update (handle Component)
         [ODict [("id", PStr "a"); ("name", PStr "renamed")];
          ODict [("name", PStr "card")]] []
         (world_of three_components)) = Err ValueError /\
  rows (snd (update (handle Component)
         [ODict [("id", PStr "a"); ("name", PStr "renamed")];
          ODict [("name", PStr "card")]] []
         (world_of three_components))) =
    [[("id", SText "a"); ("created_at", SText "2024-01-01");
      ("updated_at", SText "t0"); ("deleted_at", SNull);
      ("name", SText "renamed")];
     component_row "b" "2024-01-02" "card" SNull;
     component_row "c" "2024-01-03" "button" (SText "2024-02-01")] /\
  journal (snd (update (handle Component)
         [ODict [("id", PStr "a"); ("name", PStr "renamed")];
          ODict [("name", PStr "card")]] []
         (world_of three_components))) =
    [UpdateSet [("name", PStr "renamed"); ("updated_at", PStr "t0")]
               [Eq_ "id" (PStr "a")];
     SelectFrom [Eq_ "id" (PStr "a")] None].
Proof.
  split; [vm_compute; reflexivity|]. split; vm_compute; reflexivity.
Qed.

(** ** Unknown field names *)

Lemma _to_row_unknown self kwargs k :
  In k (dict_keys kwargs) ->
  in_field_map self k = false ->
  forallb (encodable self) kwargs = true ->
  exists k', in_field_map self k' = false /\ _to_row self kwargs = Err (KeyError k').
Proof.
  unfold _to_row, encode_field, in_field_map, encodable.
  induction kwargs as [|[k0 v0] kwargs IH]; simpl; intros Hin Hk Henc; [contradiction|].
  apply andb_true_iff in Henc. destruct Henc as [He Hrest].
  destruct (_field_map self k0) as [f|] eqn:Ef.
  - destruct Hin as [Hin|Hin]; [subst k0; rewrite Ef in Hk; discriminate|].
    destruct (IH Hin Hk Hrest) as [k' [Hk' Hr]]. exists k'. split; [exact Hk'|].
    rewrite Hr.
    destruct (is_none v0); [reflexivity|].
    destruct (is_json f); simpl in *; [|reflexivity].
    destruct (json_dumps v0); [reflexivity|discriminate].
  - exists k0. rewrite Ef. split; reflexivity.
Qed.

Lemma encodable_filter self (p : string * pyval -> bool) kwargs :
  forallb (encodable self) kwargs = true ->
  forallb (encodable self) (filter p kwargs) = true.
Proof.
  rewrite !forallb_forall. intros H x Hx. apply filter_In in Hx. apply H, Hx.
Qed.

Lemma in_keys_filter (p : string * pyval -> bool) kwargs k :
  In k (dict_keys kwargs) ->
  (forall v, p (k, v) = true) ->
  In k (dict_keys (filter p kwargs)).
Proof.
  unfold dict_keys. intros Hin Hp. apply in_map_iff in Hin.
  destruct Hin as [[k0 v0] [Hk Hin]]. simpl in Hk. subst k0.
  apply in_map_iff. exists (k, v0). split; [reflexivity|].
  apply filter_In. split; [exact Hin|apply Hp].
Qed.

Lemma conditions_unknown self include_deleted kwargs k :
  In k (dict_keys kwargs) ->
  in_field_map self k = false ->
  forallb (encodable self) kwargs = true ->
  exists k', in_field_map self k' = false /\
             conditions self include_deleted kwargs = Err (KeyError k').
Proof.
  intros Hin Hk Henc.
  destruct (_to_row_unknown self kwargs k Hin Hk Henc) as [k' [Hk' Hr]].
  exists k'. split; [exact Hk'|]. unfold conditions.
  destruct kwargs as [|kv kwargs]; [contradiction|]. rewrite Hr. reflexivity.
Qed.

(** C8, amended: a keyword call naming a field that is not in the schema
    fails with the unknown-field KeyError before any statement, the world
    unchanged, for [read], [count] and [delete] always (for [delete], the
    keys not being parameter names of [read]); for [create] when the name is
    not one of the four auto-managed names, which [create] strips; for
    [update] when moreover a non-null id is given, the id being checked
    first.  The values given for JSON fields are ones json can serialize. *)
Theorem unknown_field_amended :
  forall self kwargs k,
    In k (dict_keys kwargs) ->
    in_field_map self k = false ->
    forallb (encodable self) kwargs = true ->
    (forall include_deleted page n w,
        exists k', in_field_map self k' = false /\
          read self include_deleted page n kwargs w = (Err (KeyError k'), w)) /\
    (forall include_deleted n w,
        exists k', in_field_map self k' = false /\
          count self include_deleted n kwargs w = (Err (KeyError k'), w)) /\
    (forall hard w,
        Forall (fun key => ~ In key read_parameters) (dict_keys kwargs) ->
        exists k', in_field_map self k' = false /\
          delete self [] hard kwargs w = (Err (KeyError k'), w)) /\
    (forall w,
        str_in k AUTO_FIELDS = false ->
        exists k', in_field_map self k' = false /\
          create self [] kwargs w = (Err (KeyError k'), w)) /\
    (forall w,
        str_in k AUTO_FIELDS = false ->
        lacks_id kwargs = false ->
        exists k', in_field_map self k' = false /\
          update self [] kwargs w = (Err (KeyError k'), w)).
Proof.
  intros self kwargs k Hin Hk Henc.
  assert (Hne : exists kv rest, kwargs = kv :: rest).
  { destruct kwargs as [|kv rest]; [contradiction|]. exists kv, rest. reflexivity. }
  destruct Hne as [kv0 [rest0 Hne]].
  split; [|split; [|split; [|split]]].
  - intros incl page n w.
    destruct (conditions_unknown self incl kwargs k Hin Hk Henc) as [k' [Hk' Hc]].
    exists k'. split; [exact Hk'|]. unfold read, bind, lift. rewrite Hc. reflexivity.
  - intros incl n w.
    destruct (conditions_unknown self incl kwargs k Hin Hk Henc) as [k' [Hk' Hc]].
    exists k'. split; [exact Hk'|]. unfold count, bind, lift. rewrite Hc. reflexivity.
  - intros hard w _.
    destruct (conditions_unknown self hard kwargs k Hin Hk Henc) as [k' [Hk' Hc]].
    exists k'. split; [exact Hk'|].
    unfold delete, delete_records, bind, lift. rewrite Hne. simpl.
    rewrite <- Hne. unfold delete_one, read, bind, lift. rewrite Hc. reflexivity.
  - intros w Hauto.
    assert (Hin' : In k (dict_keys (filter not_auto kwargs))).
    { apply in_keys_filter; [exact Hin|]. intros v. unfold not_auto. simpl fst.
      rewrite Hauto. reflexivity. }
    destruct (_to_row_unknown self _ k Hin' Hk (encodable_filter self _ _ Henc))
      as [k' [Hk' Hr]].
    exists k'. split; [exact Hk'|].
    unfold create, create_records, bind, lift. rewrite Hne. simpl.
    rewrite <- Hne. unfold create_one, bind, lift. rewrite Hr. reflexivity.
  - intros w Hauto Hid.
    set (p1 := fun kv : string * pyval =>
                 negb (str_in (fst kv) ["id"; "created_at"; "deleted_at"])).
    set (p2 := fun kv : string * pyval => negb (String.eqb (fst kv) "updated_at")).
    assert (Hk1 : forall v, p1 (k, v) = true).
    { intros v. unfold p1. simpl fst. unfold str_in, AUTO_FIELDS in *. simpl in *.
      destruct (String.eqb k "id"); [discriminate|].
      destruct (String.eqb k "created_at"); [discriminate|].
      destruct (String.eqb k "updated_at"); [discriminate|].
      destruct (String.eqb k "deleted_at"); [discriminate|]. reflexivity. }
    assert (Hk2 : forall v, p2 (k, v) = true).
    { intros v. unfold p2. simpl fst. unfold str_in, AUTO_FIELDS in *. simpl in *.
      destruct (String.eqb k "id"); [discriminate|].
      destruct (String.eqb k "created_at"); [discriminate|].
      destruct (String.eqb k "updated_at"); [discriminate|]. reflexivity. }
    assert (Hin1 : In k (dict_keys (filter p1 kwargs)))
      by (apply in_keys_filter; assumption).
    assert (Hin2 : In k (dict_keys (filter p2 (filter p1 kwargs))))
      by (apply in_keys_filter; assumption).
    destruct (_to_row_unknown self _ k Hin2 Hk
                (encodable_filter self _ _ (encodable_filter self _ _ Henc)))
      as [k' [Hk' Hr]].
    exists k'. split; [exact Hk'|].
    unfold update, update_records, bind, lift. rewrite Hne. simpl.
    rewrite <- Hne. unfold update_one. unfold lacks_id in Hid.
    destruct (dict_get "id" kwargs) as [item_id|]; [|discriminate].
    rewrite Hid. fold p1 p2.
    destruct (filter p1 kwargs) as [|x xs] eqn:Ef; [contradiction|].
    simpl is_nil. simpl andb. unfold bind, lift. rewrite Hr. reflexivity.
Qed.

Lemma unknown_field_amended_witness :
  In "colour" (dict_keys [("id", PStr "a"); ("colour", PStr "red")]) /\
  in_field_map (handle Component) "colour" = false /\
  (exists k', in_field_map (handle Component) k' = false /\
     read (handle Component) false None 10 [("id", PStr "a"); ("colour", PStr "red")]
       (world_of three_components) = (Err (KeyError k'), world_of three_components)) /\
  (exists k', in_field_map (handle Component) k' = false /\
     create (handle Component) [] [("id", PStr "a"); ("colour", PStr "red")]
       (world_of three_components) = (Err (KeyError k'), world_of three_components)) /\
  (exists k', in_field_map (handle Component) k' = false /\
     update (handle Component) [] [("id", PStr "a"); ("colour", PStr "red")]
       (world_of three_components) = (Err (KeyError k'), world_of three_components)).
Proof.
  assert (Hin : In "colour" (dict_keys [("id", PStr "a"); ("colour", PStr "red")]))
    by (right; left; reflexivity).
  pose proof (unknown_field_amended (handle Component)
                [("id", PStr "a"); ("colour", PStr "red")] "colour"
                Hin eq_refl eq_refl) as [Hread [_ [_ [Hcreate Hupdate]]]].
  split; [exact Hin|]. split; [reflexivity|]. split; [|split].
  - exact (Hread false None 10%Z (world_of three_components)).
  - exact (Hcreate (world_of three_components) eq_refl).
  - exact (Hupdate (world_of three_components) eq_refl eq_refl).
Defined.

(** C8, as stated, fails.  [Note] has no [deleted_at]; [create] strips the
    name before it looks at the schema, so the call succeeds and a row is
    written.  And [update] without an id reports the missing id, not the
    unknown field. *)
Lemma unknown_auto_field_is_stripped :
  in_field_map (handle Note) "deleted_at" = false /\
  fst (create (handle Note) [] [("name", PStr "a"); ("deleted_at", PStr "x")]
         (world_of [])) =
    Ok [{| inst_cls := "Note";
           inst_data := [("id", PStr "u0"); ("name", PStr "a")] |}] /\
  rows (snd (create (handle Note) [] [("name", PStr "a"); ("deleted_at", PStr "x")]
               (world_of []))) =
    [[("id", SText "u0"); ("name", SText "a")]] /\
  in_field_map (handle Note) "colour" = false /\
  fst (update (handle Note) [] [("colour", PStr "red")] (world_of [])) =
    Err ValueError.
Proof.
  repeat split; vm_compute; reflexivity.
Qed.

(** ** One statement at a time *)

Lemma filter_nil_existsb {A} (p : A -> bool) (l : list A) :
  filter p l = [] -> existsb p l = false.
Proof.
  induction l as [|x l IH]; simpl; [reflexivity|].
  destruct (p x); [discriminate|exact IH].
Qed.

Lemma filter_and_nil {A} (p q : A -> bool) (l : list A) :
  filter p l = [] -> filter (fun x => p x && q x) l = [].
Proof.
  induction l as [|x l IH]; simpl; [reflexivity|].
  destruct (p x); [discriminate|]. simpl. exact IH.
Qed.

Lemma where_single c r : where_ [c] r = holds r c.
Proof. unfold where_. simpl. apply andb_true_r. Qed.

Lemma where_pair c d r : where_ [c; d] r = holds r c && holds r d.
Proof. unfold where_. simpl. rewrite andb_true_r. reflexivity. Qed.

Lemma _sql_insert_fresh self row vals w :
  known_cols (columns self) (dict_keys row) = true ->
  result_map bind_set row = Ok vals ->
  match dict_get "id" (stored_row (columns self) vals) with
  | Some v => existsb (fun r => holds r (BEq "id" v)) (rows w)
  | None => false
  end = false ->
  _sql self (InsertInto row) w =
    (Ok [], after (InsertInto row) (rows w ++ [stored_row (columns self) vals]) w).
Proof.
  intros Hk Hv Hc. unfold _sql, execute. rewrite Hk, Hv.
  cbn [negb result_bind]. rewrite Hc. reflexivity.
Qed.

Lemma _sql_select self conds cs page w :
  known_cols (columns self) (map cond_col conds) = true ->
  result_map bind_cond conds = Ok cs ->
  limit_accepted page = true ->
  _sql self (SelectFrom conds page) w =
    (Ok (paginate page (filter (where_ cs) (rows w))),
     after (SelectFrom conds page) (rows w) w).
Proof.
  intros Hk Hc Hl. unfold _sql, execute. rewrite Hk, Hc. cbn [negb result_bind].
  rewrite Hl. reflexivity.
Qed.

Lemma _sql_update self sets vals conds cs w :
  known_cols (columns self) (dict_keys sets ++ map cond_col conds) = true ->
  result_map bind_set sets = Ok vals ->
  result_map bind_cond conds = Ok cs ->
  _sql self (UpdateSet sets conds) w =
    (Ok [],
     after (UpdateSet sets conds)
       (map (fun r => if where_ cs r then assign vals r else r) (rows w)) w).
Proof.
  intros Hk Hv Hc. unfold _sql, execute. rewrite Hk, Hv, Hc. reflexivity.
Qed.

#[local] Arguments _sql : simpl never.
#[local] Arguments where_ : simpl never.
#[local] Arguments stored_row : simpl never.
#[local] Arguments after : simpl never.

(** ** create, then read *)

(** C4, amended: on [Component] (the four auto-managed fields and
    [name: str]), [create(name="button")], the drawn uuid not being a stored
    id already, returns exactly one instance: its id is the uuid, its
    [created_at] and [updated_at] are the texts of two successive clock
    readings (equal only when the clock gives the same text twice), its
    [deleted_at] is None and its name is "button"; a following
    [read(id=...)] returns exactly that instance. *)
Theorem create_then_read_amended :
  forall w,
    let u := uuid_source w (draws w) in
    let created := clock w (ticks w) in
    let updated := clock w (S (ticks w)) in
    let made := button_instance u created updated in
    rows_with_id u (rows w) = [] ->
    exists w1,
      create (handle Component) [] [("name", PStr "button")] w = (Ok [made], w1) /\
      dict_get "id" (inst_data made) = Some (PStr u) /\
      dict_get "created_at" (inst_data made) = Some (PStr created) /\
      dict_get "updated_at" (inst_data made) = Some (PStr updated) /\
      dict_get "deleted_at" (inst_data made) = Some PNone /\
      dict_get "name" (inst_data made) = Some (PStr "button") /\
      fst (read (handle Component) false None 10 [("id", PStr u)] w1) = Ok [made].
Proof.
  intros w u created updated made Hfresh.
  unfold create, create_records, bind, lift. cbn [result_map result_bind for_records].
  unfold create_one, bind, lift, ret, uuid4, _now.
  cbv [_to_row encode_field filter not_auto]. simpl.
  erewrite _sql_insert_fresh; [|reflexivity|reflexivity|].
  2:{ simpl. apply filter_nil_existsb. exact Hfresh. }
  assert (Hnone : filter (where_ [BEq "id" (SText u)]) (rows w) = []).
  { rewrite (filter_ext _ _ (where_single (BEq "id" (SText u)))). exact Hfresh. }
  unfold after. cbn [rows]. rewrite filter_app. fold u. rewrite Hnone.
  cbn [filter app].
  set (new := stored_row _ _).
  assert (Hnew : new = [("id", SText u); ("created_at", SText created);
                        ("updated_at", SText updated);
                        ("deleted_at", SNull); ("name", SText "button")])
    by reflexivity.
  clearbody new. subst new.
  unfold where_. simpl. rewrite String.eqb_refl. simpl.
  eexists. split; [reflexivity|].
  do 5 (split; [reflexivity|]).
  cbn [rows]. rewrite filter_app.
  match goal with |- context [filter ?p (rows w)] =>
    replace (filter p (rows w)) with (@nil srow)
      by (symmetry; apply (filter_and_nil (fun r => holds r (BEq "id" (SText u))));
          exact Hfresh)
  end.
  simpl. rewrite String.eqb_refl. simpl. reflexivity.
Qed.

Lemma create_then_read_amended_witness :
  rows_with_id "u0" three_components = [] /\
  exists w1,
    create (handle Component) [] [("name", PStr "button")] (world_of three_components)
      = (Ok [button_instance "u0" "t0" "t1"], w1) /\
    fst (read (handle Component) false None 10 [("id", PStr "u0")] w1)
      = Ok [button_instance "u0" "t0" "t1"].
Proof.
  split; [reflexivity|].
  destruct (create_then_read_amended (world_of three_components) eq_refl)
    as [w1 [Hc [_ [_ [_ [_ [_ Hr]]]]]]].
  exists w1. split; [exact Hc|exact Hr].
Defined.

(** C4, as stated, fails: [create] reads the clock twice, once for
    [created_at] and once for [updated_at]; with a clock that has moved
    between the two readings the two fields differ. *)
Lemma created_at_is_not_updated_at :
  fst (create (handle Component) [] [("name", PStr "button")] (world_of [])) =
    Ok [button_instance "u0" "t0" "t1"] /\
  dict_get "created_at" (inst_data (button_instance "u0" "t0" "t1")) <>
  dict_get "updated_at" (inst_data (button_instance "u0" "t0" "t1")).
Proof.
  split; [vm_compute; reflexivity|]. vm_compute. discriminate.
Qed.

(** ** Soft delete *)

Lemma dict_get_set_same {V} k (v : V) d : dict_get k (dict_set k v d) = Some v.
Proof.
  induction d as [|[k' v'] d IH]; simpl.
  - rewrite String.eqb_refl. reflexivity.
  - destruct (String.eqb k k') eqn:E; simpl; rewrite E; [reflexivity|exact IH].
Qed.

Lemma dict_get_set_other {V} k k2 (v : V) d :
  k <> k2 -> dict_get k2 (dict_set k v d) = dict_get k2 d.
Proof.
  intros Hne. induction d as [|[k' v'] d IH]; simpl.
  - destruct (String.eqb k2 k) eqn:E; [|reflexivity].
    apply String.eqb_eq in E. congruence.
  - destruct (String.eqb k k') eqn:E; simpl.
    + apply String.eqb_eq in E. subst k'.
      destruct (String.eqb k2 k) eqn:E2; [|reflexivity].
      apply String.eqb_eq in E2. congruence.
    + rewrite IH. reflexivity.
Qed.

Lemma filter_and {A} (p q : A -> bool) (l : list A) :
  filter (fun x => p x && q x) l = filter q (filter p l).
Proof.
  induction l as [|x l IH]; simpl; [reflexivity|].
  destruct (p x); simpl; [|exact IH].
  destruct (q x); rewrite IH; reflexivity.
Qed.

Lemma filter_map_same {A} (p : A -> bool) (f : A -> A) (l : list A) :
  (forall x, p (f x) = p x) ->
  filter p (map f l) = map f (filter p l).
Proof.
  intros H. induction l as [|x l IH]; simpl; [reflexivity|].
  rewrite H. destruct (p x); simpl; rewrite IH; reflexivity.
Qed.

Lemma filter_singleton_holds {A} (p : A -> bool) (l : list A) x :
  filter p l = [x] -> p x = true.
Proof.
  intros H. assert (Hin : In x (filter p l)) by (rewrite H; left; reflexivity).
  apply filter_In in Hin. apply Hin.
Qed.

Lemma read_unpaginated self include_deleted n kwargs conds cs w :
  conditions self include_deleted kwargs = Ok conds ->
  known_cols (columns self) (map cond_col conds) = true ->
  result_map bind_cond conds = Ok cs ->
  read self include_deleted None n kwargs w =
    (result_map (_from_row self) (filter (where_ cs) (rows w)),
     after (SelectFrom conds None) (rows w) w).
Proof.
  intros Hc Hk Hb. unfold read, bind, lift. rewrite Hc.
  rewrite (_sql_select self conds cs None w Hk Hb eq_refl). reflexivity.
Qed.

Lemma field_map_In self k f :
  _field_map self k = Some f -> In f (_fields self) /\ name f = k.
Proof.
  unfold _field_map. intros H. apply find_some in H. destruct H as [Hin He].
  apply String.eqb_eq in He. split; assumption.
Qed.

Lemma field_map_known self k f :
  _field_map self k = Some f -> str_in k (columns self) = true.
Proof.
  intros H. apply in_field_map_columns. unfold in_field_map. rewrite H. reflexivity.
Qed.

Lemma handle_field_names cls :
  map name (_fields (handle cls)) = map fst (fields cls).
Proof. simpl. unfold _get_fields. rewrite map_map. reflexivity. Qed.

Lemma has_soft_delete_field cls f :
  _field_map (handle cls) "deleted_at" = Some f -> _has_soft_delete cls = true.
Proof.
  intros H. apply field_map_In in H. destruct H as [Hin Hn].
  unfold _has_soft_delete. apply existsb_exists.
  simpl in Hin. unfold _get_fields in Hin. apply in_map_iff in Hin.
  destruct Hin as [kt [Hf Hkt]]. exists kt. split; [exact Hkt|].
  subst f. simpl in Hn. rewrite Hn. reflexivity.
Qed.

Lemma NoDup_name_unique (fs : list _FieldInfo) f g :
  NoDup (map name fs) -> In f fs -> In g fs -> name f = name g -> f = g.
Proof.
  induction fs as [|h fs IH]; simpl; intros Hnd Hf Hg Hn; [contradiction|].
  inversion Hnd as [|? ? Hnot Hnd']; subst.
  destruct Hf as [Hf|Hf], Hg as [Hg|Hg].
  - congruence.
  - subst h. exfalso. apply Hnot. rewrite Hn. apply in_map. exact Hg.
  - subst h. exfalso. apply Hnot. rewrite <- Hn. apply in_map. exact Hf.
  - apply IH; assumption.
Qed.

Lemma decode_field_name r f k v : decode_field r f = Ok (k, v) -> k = name f.
Proof.
  unfold decode_field. destruct (dict_get (name f) r) as [sv|]; [|discriminate].
  destruct (is_none _); [intros H; inversion H; reflexivity|].
  destruct (is_json f).
  - destruct (json_loads_value _); simpl; intros H; inversion H; reflexivity.
  - destruct (is_bool f); intros H; inversion H; reflexivity.
Qed.

Lemma decode_other_column r col sv fs :
  ~ In col (map name fs) ->
  result_map (decode_field (dict_set col sv r)) fs = result_map (decode_field r) fs.
Proof.
  intros Hnot. apply result_map_ext. intros f Hf. unfold decode_field.
  rewrite dict_get_set_other; [reflexivity|].
  intros He. apply Hnot. rewrite He. apply in_map. exact Hf.
Qed.

(** The generated constructor takes what [_from_row] decodes. *)
Lemma decode_keys r (fs : list _FieldInfo) data :
  result_map (decode_field r) fs = Ok data -> dict_keys data = map name fs.
Proof.
  revert data. induction fs as [|f fs IH]; simpl; intros data H.
  - inversion H. reflexivity.
  - destruct (decode_field r f) as [[k v]|e] eqn:Ef; [|discriminate].
    destruct (result_map (decode_field r) fs) as [data'|e]; [|discriminate].
    inversion H. simpl. rewrite (IH data' eq_refl).
    rewrite (decode_field_name _ _ _ _ Ef). reflexivity.
Qed.

Lemma generated_init_fields fs data :
  (forall k, In k (dict_keys data) -> In k (map fst fs)) ->
  generated_init fs data = Ok data.
Proof.
  intros H. unfold generated_init.
  replace (forallb (fun k => str_in k (map fst fs)) (dict_keys data)) with true;
    [reflexivity|].
  symmetry. apply forallb_forall. intros k Hk. apply str_in_In. apply H. exact Hk.
Qed.

Lemma from_row_generated cls r :
  cls_new cls = generated_init (fields cls) ->
  _from_row (handle cls) r =
    result_bind (result_map (decode_field r) (_fields (handle cls)))
      (fun data => Ok {| inst_cls := cls_name cls; inst_data := data |}).
Proof.
  intros Hnew. unfold _from_row.
  destruct (result_map (decode_field r) (_fields (handle cls))) as [data|e] eqn:E;
    [|reflexivity].
  cbn [result_bind _cls handle]. unfold new_instance. rewrite Hnew.
  rewrite generated_init_fields; [reflexivity|].
  intros k Hk. rewrite (decode_keys _ _ _ E), handle_field_names in Hk. exact Hk.
Qed.

(** Decoding a row whose [deleted_at] has been set to a timestamp gives the
    values decoded before, with [deleted_at] set to what that timestamp
    decodes to. *)
Lemma decode_after_soft_delete (fs : list _FieldInfo) r now data stamp :
  NoDup (map name fs) ->
  (forall f, In f fs -> name f = "deleted_at" ->
             is_json f = false /\ stamp = decoded_text f now) ->
  In "deleted_at" (map name fs) ->
  result_map (decode_field r) fs = Ok data ->
  result_map (decode_field (dict_set "deleted_at" (SText now) r)) fs =
    Ok (dict_set "deleted_at" stamp data).
Proof.
  revert data. induction fs as [|f fs IH]; simpl; intros data Hnd Hplain Hin Hdec;
    [contradiction|].
  inversion Hnd as [|? ? Hnot Hnd']; subst.
  destruct (decode_field r f) as [[k v]|e] eqn:Ef; [|discriminate].
  destruct (result_map (decode_field r) fs) as [data'|e] eqn:Er; [|discriminate].
  inversion Hdec; subst data. clear Hdec.
  pose proof (decode_field_name _ _ _ _ Ef) as Hk. subst k.
  destruct (String.eqb "deleted_at" (name f)) eqn:En.
  - apply String.eqb_eq in En.
    destruct (Hplain f (or_introl eq_refl) (eq_sym En)) as [Hj Hb].
    rewrite <- En in Hnot. rewrite (decode_other_column _ _ _ _ Hnot), Er.
    unfold decode_field. rewrite <- En, dict_get_set_same. simpl.
    rewrite Hj, Hb. unfold decoded_text. cbn [py_bool].
    destruct (is_bool f); reflexivity.
  - assert (Hne : "deleted_at" <> name f) by (apply String.eqb_neq; exact En).
    destruct Hin as [Hin|Hin]; [congruence|].
    rewrite (IH data' Hnd' (fun g Hg => Hplain g (or_intror Hg)) Hin eq_refl).
    replace (decode_field (dict_set "deleted_at" (SText now) r) f)
      with (decode_field r f)
      by (unfold decode_field; rewrite dict_get_set_other; [reflexivity|exact Hne]).
    rewrite Ef. cbn [dict_set]. rewrite En. reflexivity.
Qed.

(** C2, amended: for a record type with a [deleted_at] field, where
    neither [id] nor [deleted_at] is declared as a JSON (mapping or
    sequence) field and instances are built by the generated constructor,
    and the one stored record with id [X], its [deleted_at] NULL: after
    [delete(id=X)] (soft), [read(id=X)] returns the empty list and
    [read(id=X, include_deleted=True)] returns exactly that record with
    [deleted_at] set to a value that is not None.  The call itself returns
    the record as it was. *)
Theorem soft_delete_visibility_amended :
  forall cls X w r inst fid fdel,
    NoDup (map fst (fields cls)) ->
    cls_new cls = generated_init (fields cls) ->
    _field_map (handle cls) "id" = Some fid -> is_json fid = false ->
    _field_map (handle cls) "deleted_at" = Some fdel -> is_json fdel = false ->
    rows_with_id X (rows w) = [r] ->
    dict_get "deleted_at" r = Some SNull ->
    _from_row (handle cls) r = Ok inst ->
    let w1 := snd (delete (handle cls) [] false [("id", PStr X)] w) in
    fst (delete (handle cls) [] false [("id", PStr X)] w) = Ok [inst] /\
    fst (read (handle cls) false None 10 [("id", PStr X)] w1) = Ok [] /\
    exists stamp,
      stamp <> PNone /\
      fst (read (handle cls) true None 10 [("id", PStr X)] w1) =
        Ok [{| inst_cls := inst_cls inst;
               inst_data := dict_set "deleted_at" stamp (inst_data inst) |}] /\
      dict_get "deleted_at" (dict_set "deleted_at" stamp (inst_data inst))
        = Some stamp.
Proof.
  intros cls X w r inst fid fdel Hnd Hnew Hid Hidj Hdel Hdelj Hrows Hnull Hdec w1.
  set (now := clock w (ticks w)).
  set (self := handle cls) in *.
  assert (Hsoft : _soft_delete self = true)
    by (exact (has_soft_delete_field cls fdel Hdel)).
  pose proof (field_map_known _ _ _ Hid) as Hkid.
  pose proof (field_map_known _ _ _ Hdel) as Hkdel.
  assert (Hrow : _to_row self [("id", PStr X)] = Ok [("id", PStr X)]).
  { unfold _to_row. cbn [result_map]. unfold encode_field. cbn [fst snd].
    rewrite Hid. cbn [is_none]. rewrite Hidj. reflexivity. }
  assert (Hlive : conditions self false [("id", PStr X)]
                  = Ok [Eq_ "id" (PStr X); IsNull "deleted_at"]).
  { unfold conditions. rewrite Hrow, Hsoft. reflexivity. }
  assert (Hall : conditions self true [("id", PStr X)] = Ok [Eq_ "id" (PStr X)]).
  { unfold conditions. rewrite Hrow, Hsoft. reflexivity. }
  assert (Hklive : known_cols (columns self)
                     (map cond_col [Eq_ "id" (PStr X); IsNull "deleted_at"]) = true).
  { unfold known_cols. cbn [map cond_col forallb]. rewrite Hkid, Hkdel. reflexivity. }
  assert (Hkall : known_cols (columns self) (map cond_col [Eq_ "id" (PStr X)]) = true).
  { unfold known_cols. cbn [map cond_col forallb]. rewrite Hkid. reflexivity. }
  set (cs := [BEq "id" (SText X); BIsNull "deleted_at"]).
  assert (Hr_id : holds r (BEq "id" (SText X)) = true)
    by (exact (filter_singleton_holds _ _ _ Hrows)).
  assert (Hr_null : holds r (BIsNull "deleted_at") = true)
    by (unfold holds; rewrite Hnull; reflexivity).
  assert (Hsel : filter (where_ cs) (rows w) = [r]).
  { unfold cs. rewrite (filter_ext _ _ (where_pair _ _)), filter_and.
    fold (rows_with_id X (rows w)). rewrite Hrows. cbn [filter].
    rewrite Hr_null. reflexivity. }
  assert (Hdel_run : exists w',
    delete self [] false [("id", PStr X)] w = (Ok [inst], w') /\
    rows w' =
      map (fun r0 => if where_ cs r0
                     then assign [("deleted_at", SText now)] r0 else r0)
          (rows w)).
  { eexists. split.
    - unfold delete, delete_records, bind, lift.
      cbn [result_map result_bind is_nil negb for_records].
      unfold bind, delete_one, bind.
      rewrite (read_unpaginated self false 10 _ _ cs w Hlive Hklive eq_refl).
      rewrite Hsel. cbn [result_map]. fold self. rewrite Hdec.
      cbn [is_nil]. unfold lift. rewrite Hrow, Hsoft.
      cbn [andb negb is_nil map fst snd].
      unfold _now.
      erewrite (_sql_update self _ [("deleted_at", SText now)] _ cs);
        [| unfold known_cols; cbn [dict_keys map fst cond_col app forallb];
           rewrite Hkid, Hkdel; reflexivity
         | reflexivity | reflexivity].
      unfold ret. reflexivity.
    - reflexivity. }
  destruct Hdel_run as [w' [Hrun Hrows1]].
  assert (Hw1 : w1 = w') by (unfold w1; rewrite Hrun; reflexivity).
  clearbody w1. subst w1.
  rewrite Hrun. cbn [fst].
  split; [reflexivity|].
  set (upd := fun r0 : srow => if where_ cs r0
                  then assign [("deleted_at", SText now)] r0 else r0) in *.
  assert (Hupd_id : forall r0, holds (upd r0) (BEq "id" (SText X))
                               = holds r0 (BEq "id" (SText X))).
  { intros r0. unfold upd. destruct (where_ cs r0); [|reflexivity].
    unfold assign, holds. cbn [fold_left fst snd].
    rewrite dict_get_set_other; [reflexivity|discriminate]. }
  assert (Hupd_r : upd r = dict_set "deleted_at" (SText now) r).
  { unfold upd, cs. rewrite where_pair, Hr_id, Hr_null. reflexivity. }
  assert (Hids : rows_with_id X (rows w') = [upd r]).
  { unfold rows_with_id. rewrite Hrows1.
    rewrite (filter_map_same _ upd _ Hupd_id).
    fold (rows_with_id X (rows w)). rewrite Hrows. reflexivity. }
  split.
  - rewrite (read_unpaginated self false 10 _ _ cs w' Hlive Hklive eq_refl).
    cbn [fst]. unfold cs.
    rewrite (filter_ext _ _ (where_pair _ _)), filter_and.
    fold (rows_with_id X (rows w')). rewrite Hids. cbn [filter].
    rewrite Hupd_r. unfold holds at 1. rewrite dict_get_set_same. reflexivity.
  - exists (decoded_text fdel now). split; [|split].
    + unfold decoded_text. destruct (is_bool fdel); discriminate.
    + rewrite (read_unpaginated self true 10 _ _ [BEq "id" (SText X)] w'
                 Hall Hkall eq_refl).
      cbn [fst]. rewrite (filter_ext _ _ (where_single _)).
      fold (rows_with_id X (rows w')). rewrite Hids, Hupd_r. cbn [result_map].
      unfold self in *. rewrite (from_row_generated cls r Hnew) in Hdec.
      rewrite (from_row_generated cls _ Hnew).
      destruct (result_map (decode_field r) (_fields (handle cls)))
        as [data|e] eqn:Edata; [|discriminate].
      cbn [result_bind] in Hdec. inversion Hdec; subst inst. clear Hdec.
      destruct (field_map_In _ _ _ Hdel) as [Hin_del Hname_del].
      assert (Hnd' : NoDup (map name (_fields (handle cls)))).
      { rewrite handle_field_names. exact Hnd. }
      rewrite (decode_after_soft_delete (_fields (handle cls)) r now data
                 (decoded_text fdel now) Hnd').
      * reflexivity.
      * intros f Hf Hn.
        assert (f = fdel)
          by (apply (NoDup_name_unique (_fields (handle cls))); congruence).
        subst f. split; [assumption|reflexivity].
      * rewrite <- Hname_del. apply in_map. exact Hin_del.
      * exact Edata.
    + apply dict_get_set_same.
Qed.

Lemma soft_delete_visibility_amended_witness :
  let w := world_of three_components in
  let r := component_row "a" "2024-01-01" "button" SNull in
  let inst := button_instance "a" "2024-01-01" "2024-01-01" in
  let w1 := snd (delete (handle Component) [] false [("id", PStr "a")] w) in
  NoDup (map fst (fields Component)) /\
  rows_with_id "a" (rows w) = [r] /\
  dict_get "deleted_at" r = Some SNull /\
  _from_row (handle Component) r = Ok inst /\
  fst (delete (handle Component) [] false [("id", PStr "a")] w) = Ok [inst] /\
  fst (read (handle Component) false None 10 [("id", PStr "a")] w1) = Ok [] /\
  exists stamp,
    stamp <> PNone /\
    fst (read (handle Component) true None 10 [("id", PStr "a")] w1) =
      Ok [{| inst_cls := inst_cls inst;
             inst_data := dict_set "deleted_at" stamp (inst_data inst) |}] /\
    dict_get "deleted_at" (dict_set "deleted_at" stamp (inst_data inst))
      = Some stamp.
Proof.
  intros w r inst w1.
  assert (Hnd : NoDup (map fst (fields Component))).
  { repeat (constructor; [simpl; intuition discriminate|]). constructor. }
  split; [exact Hnd|]. split; [reflexivity|]. split; [reflexivity|].
  split; [reflexivity|].
  exact (soft_delete_visibility_amended Component "a" w r inst
           (field_info ("id", TyOther "str | None"))
           (field_info ("deleted_at", TyOther "str | None"))
           Hnd eq_refl eq_refl eq_refl eq_refl eq_refl eq_refl eq_refl eq_refl).
Defined.

(** C2 as stated fails on a record type that has a [deleted_at] field
    declared as a mapping: the soft delete writes a timestamp into the
    column, which [read] with [include_deleted] then cannot decode. *)
Lemma soft_delete_of_json_deleted_at :
  let w := world_of [[("id", SText "a"); ("deleted_at", SNull)]] in
  let stored := {| inst_cls := "Bin";
                   inst_data := [("id", PStr "a"); ("deleted_at", PNone)] |} in
  let w1 := snd (delete (handle Bin) [] false [("id", PStr "a")] w) in
  _has_soft_delete Bin = true /\
  fst (read (handle Bin) true None 10 [("id", PStr "a")] w) = Ok [stored] /\
  fst (delete (handle Bin) [] false [("id", PStr "a")] w) = Ok [stored] /\
  rows w1 = [[("id", SText "a"); ("deleted_at", SText "t0")]] /\
  fst (read (handle Bin) true None 10 [("id", PStr "a")] w1) = Err JSONDecodeError.
Proof. vm_compute. repeat split. Qed.


(** * The json codec reads back what it writes *)

(** ** Text *)

Lemma scan_string_escape (c : ascii) (tail : list ascii) :
  Json.scan_string (Json.escape_char c ++ tail) =
  match Json.scan_string tail with
  | Some (cs, r) => Some (c :: cs, r)
  | None => None
  end.
Proof.
  destruct c as [b0 b1 b2 b3 b4 b5 b6 b7].
  destruct b0, b1, b2, b3, b4, b5, b6, b7; reflexivity.
Qed.

Lemma scan_string_dumps (cs tail : list ascii) :
  Json.scan_string (flat_map Json.escape_char cs ++ Json.dquote :: tail) = Some (cs, tail).
Proof.
  induction cs as [|c cs IH]; [reflexivity|].
  cbn [flat_map]. rewrite <- List.app_assoc, scan_string_escape, IH. reflexivity.
Qed.

(** ** Numbers *)

Lemma delim_head c r :
  delim (c :: r) = true ->
  Json.is_digit c = false /\ Ascii.eqb c "." = false /\ Json.is_e c = false /\
  Json.is_sign c = false /\ Json.is_ws c = false.
Proof.
  unfold delim. intros H.
  apply orb_prop in H. destruct H as [H|H]; [apply orb_prop in H; destruct H as [H|H]|];
    apply Ascii.eqb_eq in H; subst c; repeat split; reflexivity.
Qed.

Lemma span_digits_frame s ds r rest :
  Json.span_digits s = (ds, r) -> delim rest = true ->
  Json.span_digits (s ++ rest) = (ds, r ++ rest).
Proof.
  intros H Hd. revert ds r H. induction s as [|c s IH]; intros ds r H.
  - simpl in H. inversion H; subst. simpl.
    destruct rest as [|c rest]; [reflexivity|].
    simpl. destruct (delim_head c rest Hd) as [Hc _]. rewrite Hc. reflexivity.
  - simpl in *. destruct (Json.is_digit c).
    + destruct (Json.span_digits s) as [ds' r'] eqn:E.
      inversion H; subst. rewrite (IH ds' r eq_refl). reflexivity.
    + inversion H; subst. reflexivity.
Qed.

Lemma scan_digits_frame s ds r rest :
  Json.scan_digits s = Some (ds, r) -> delim rest = true ->
  Json.scan_digits (s ++ rest) = Some (ds, r ++ rest).
Proof.
  intros H Hd. destruct s as [|c s]; [discriminate|].
  unfold Json.scan_digits in *. cbn [app].
  destruct (Ascii.eqb c "0"); [inversion H; reflexivity|].
  destruct (Json.is_digit c); [|discriminate].
  destruct (Json.span_digits s) as [ds' r'] eqn:E. inversion H; subst.
  rewrite (span_digits_frame _ _ _ _ E Hd). reflexivity.
Qed.

Lemma scan_int_frame s ip r rest :
  Json.scan_int s = Some (ip, r) -> delim rest = true ->
  Json.scan_int (s ++ rest) = Some (ip, r ++ rest).
Proof.
  intros H Hd. destruct s as [|c s]; [discriminate|].
  unfold Json.scan_int in *. cbn [app].
  destruct (Ascii.eqb c "-").
  - destruct (Json.scan_digits s) as [[ds r']|] eqn:E; [|discriminate].
    inversion H; subst. rewrite (scan_digits_frame _ _ _ _ E Hd). reflexivity.
  - change (c :: s ++ rest) with ((c :: s) ++ rest).
    apply scan_digits_frame; assumption.
Qed.

Lemma scan_frac_frame s fp r rest :
  Json.scan_frac s = (fp, r) -> delim rest = true ->
  Json.scan_frac (s ++ rest) = (fp, r ++ rest).
Proof.
  intros H Hd. unfold Json.scan_frac in *.
  destruct s as [|d [|c s]]; cbn [app].
  - inversion H; subst. simpl.
    destruct rest as [|c1 [|c2 rest]]; try reflexivity.
    destruct (delim_head c1 _ Hd) as [_ [Hdot _]]. rewrite Hdot. reflexivity.
  - inversion H; subst. destruct rest as [|c rest]; [reflexivity|].
    destruct (delim_head c _ Hd) as [Hc _]. rewrite Hc, andb_false_r. reflexivity.
  - destruct (Ascii.eqb d "." && Json.is_digit c).
    + destruct (Json.span_digits s) as [ds r'] eqn:E. inversion H; subst.
      rewrite (span_digits_frame _ _ _ _ E Hd). reflexivity.
    + inversion H; subst. reflexivity.
Qed.

Lemma scan_exp_frame s ep r rest :
  Json.scan_exp s = (ep, r) -> delim rest = true ->
  Json.scan_exp (s ++ rest) = (ep, r ++ rest).
Proof.
  intros H Hd. unfold Json.scan_exp in *.
  destruct s as [|e [|c s]]; cbn [app].
  - inversion H; subst. simpl.
    destruct rest as [|c1 [|c2 rest]]; try reflexivity.
    destruct (delim_head c1 _ Hd) as [_ [_ [He _]]]. rewrite He. reflexivity.
  - inversion H; subst. destruct rest as [|c rest]; [reflexivity|].
    destruct (delim_head c _ Hd) as [Hc [_ [_ [Hs _]]]]. rewrite Hc, Hs.
    destruct (Json.is_e e); reflexivity.
  - destruct (Json.is_e e); [|inversion H; subst; reflexivity].
    destruct (Json.is_digit c).
    + destruct (Json.span_digits s) as [ds r'] eqn:E. inversion H; subst.
      rewrite (span_digits_frame _ _ _ _ E Hd). reflexivity.
    + destruct (Json.is_sign c); [|inversion H; subst; reflexivity].
      destruct s as [|d s]; cbn [app].
      * inversion H; subst. destruct rest as [|c1 rest]; [reflexivity|].
        destruct (delim_head c1 _ Hd) as [Hc _]. rewrite Hc. reflexivity.
      * destruct (Json.is_digit d); [|inversion H; subst; reflexivity].
        destruct (Json.span_digits s) as [ds r'] eqn:E. inversion H; subst.
        rewrite (span_digits_frame _ _ _ _ E Hd). reflexivity.
Qed.

Lemma scan_number_frame s v r rest :
  Json.scan_number s = Some (v, r) -> delim rest = true ->
  Json.scan_number (s ++ rest) = Some (v, r ++ rest).
Proof.
  intros H Hd. unfold Json.scan_number in *.
  destruct (Json.scan_int s) as [[ip r1]|] eqn:Ei; [|discriminate].
  rewrite (scan_int_frame _ _ _ _ Ei Hd).
  destruct (Json.scan_frac r1) as [fp r2] eqn:Ef.
  rewrite (scan_frac_frame _ _ _ _ Ef Hd).
  destruct (Json.scan_exp r2) as [ep r3] eqn:Ee.
  rewrite (scan_exp_frame _ _ _ _ Ee Hd).
  destruct fp; [destruct ep|]; inversion H; subst; reflexivity.
Qed.

Lemma chars_of_uint_digits u : forallb Json.is_digit (Json.chars_of_uint u) = true.
Proof. induction u; simpl; auto. Qed.

Lemma span_digits_all ds :
  forallb Json.is_digit ds = true -> Json.span_digits ds = (ds, []).
Proof.
  induction ds as [|c ds IH]; simpl; [reflexivity|]. intros H.
  apply andb_true_iff in H. destruct H as [Hc Hds].
  rewrite Hc, (IH Hds). reflexivity.
Qed.

Lemma uint_of_chars_of_uint u : Json.uint_of_chars (Json.chars_of_uint u) = u.
Proof.
  unfold Json.uint_of_chars.
  induction u; simpl; try rewrite IHu; reflexivity.
Qed.

Lemma digit_not_minus c : Json.is_digit c = true -> Ascii.eqb c "-" = false.
Proof.
  intros H. destruct (Ascii.eqb c "-") eqn:E; [|reflexivity].
  apply Ascii.eqb_eq in E. subst c. discriminate.
Qed.

Lemma to_uint_head p :
  Pos.to_uint p <> Decimal.Nil /\ forall u, Pos.to_uint p <> Decimal.D0 u.
Proof.
  split; [apply DecimalPos.Unsigned.to_uint_nonnil|].
  intros u Hu.
  assert (Hnorm : Decimal.unorm (Pos.to_uint p) = Pos.to_uint p).
  { rewrite <- DecimalPos.Unsigned.to_of, DecimalPos.Unsigned.of_to. reflexivity. }
  rewrite Hu in Hnorm. unfold Decimal.unorm in Hnorm. simpl in Hnorm.
  destruct (Decimal.nzhead u) eqn:En;
    try (rewrite <- En in Hnorm; exact (DecimalFacts.nzhead_nonzero _ _ Hnorm)).
  inversion Hnorm; subst u.
  exact (DecimalPos.Unsigned.to_uint_nonzero p Hu).
Qed.

Lemma scan_digits_uint u :
  u <> Decimal.Nil -> (forall u', u <> Decimal.D0 u') ->
  Json.scan_digits (Json.chars_of_uint u) = Some (Json.chars_of_uint u, []).
Proof.
  intros Hnil H0.
  destruct u; try congruence; try (exfalso; eapply H0; reflexivity);
    unfold Json.scan_digits; cbn [Json.chars_of_uint];
    rewrite (span_digits_all _ (chars_of_uint_digits _)); reflexivity.
Qed.

Lemma chars_of_uint_head u :
  u <> Decimal.Nil ->
  exists c ds, Json.chars_of_uint u = c :: ds /\ Json.is_digit c = true.
Proof.
  intros Hnil. destruct u; try congruence; simpl; eexists; eexists; split; reflexivity.
Qed.

Lemma scan_number_int z :
  Json.scan_number (Json.chars_of_Z z) = Some (PInt z, []).
Proof.
  assert (Hpos : forall p,
    Json.scan_int (Json.chars_of_uint (Pos.to_uint p))
      = Some (Json.chars_of_uint (Pos.to_uint p), []) /\
    Json.Z_of_chars (Json.chars_of_uint (Pos.to_uint p)) = Z.pos p).
  { intros p. destruct (to_uint_head p) as [Hnil H0].
    destruct (chars_of_uint_head _ Hnil) as [c [ds [Hc Hd]]].
    split.
    - unfold Json.scan_int. rewrite Hc, (digit_not_minus c Hd), <- Hc.
      apply scan_digits_uint; assumption.
    - unfold Json.Z_of_chars. rewrite Hc, (digit_not_minus c Hd), <- Hc.
      rewrite uint_of_chars_of_uint.
      exact (DecimalZ.of_to (Z.pos p)). }
  unfold Json.scan_number, Json.chars_of_Z.
  destruct z as [|p|p]; [reflexivity| |]; cbn [Z.to_int].
  - destruct (Hpos p) as [Hs Hz]. rewrite Hs. cbn. rewrite Hz. reflexivity.
  - destruct (Hpos p) as [Hs Hz]. destruct (to_uint_head p) as [Hnil H0].
    unfold Json.scan_int. cbn [Ascii.eqb Bool.eqb].
    rewrite (scan_digits_uint _ Hnil H0). cbn.
    rewrite uint_of_chars_of_uint.
    change (- Z.of_uint (Pos.to_uint p))%Z with (Z.of_int (Z.to_int (Z.neg p))).
    rewrite (DecimalZ.of_to (Z.neg p)). reflexivity.
Qed.

Lemma scan_number_head c s v r :
  Json.scan_number (c :: s) = Some (v, r) ->
  Json.is_digit c = true \/ c = "-"%char.
Proof.
  unfold Json.scan_number, Json.scan_int, Json.scan_digits.
  destruct (Ascii.eqb c "-") eqn:Em; [apply Ascii.eqb_eq in Em; auto|].
  destruct (Ascii.eqb c "0") eqn:E0; [apply Ascii.eqb_eq in E0; subst; auto|].
  destruct (Json.is_digit c); [auto|discriminate].
Qed.

(** ** Dispatch on the first character *)

Lemma number_head_facts c :
  Json.is_digit c = true \/ c = "-"%char ->
  Json.is_ws c = false /\
  Ascii.eqb c Json.dquote = false /\ Ascii.eqb c "{" = false /\
  Ascii.eqb c "[" = false /\ Ascii.eqb c "]" = false /\ Ascii.eqb c "}" = false /\
  Ascii.eqb "n" c = false /\ Ascii.eqb "t" c = false /\ Ascii.eqb "f" c = false.
Proof.
  destruct c as [b0 b1 b2 b3 b4 b5 b6 b7].
  destruct b0, b1, b2, b3, b4, b5, b6, b7;
    (intros [H|H]; [try discriminate H|try discriminate H]);
    repeat split; reflexivity.
Qed.

Lemma parse_value_number f s res :
  Json.scan_number s = Some res -> Json.parse_value (S f) s = Some res.
Proof.
  intros H. destruct s as [|c s]; [discriminate|]. destruct res as [v r].
  destruct (number_head_facts c (scan_number_head _ _ _ _ H))
    as [_ [H1 [H2 [H3 [_ [_ [H4 [H5 H6]]]]]]]].
  cbn [Json.parse_value Json.head_is Json.strip_prefix list_ascii_of_string].
  rewrite H1, H2, H3, H4, H5, H6, H. reflexivity.
Qed.

Lemma skip_ws_head c s : Json.is_ws c = false -> Json.skip_ws (c :: s) = c :: s.
Proof. intros H. simpl. rewrite H. reflexivity. Qed.

Lemma skip_ws_space s : Json.skip_ws (" "%char :: s) = Json.skip_ws s.
Proof. reflexivity. Qed.

Lemma skip_ws_delim rest :
  delim rest = true -> Json.skip_ws rest = rest.
Proof.
  destruct rest as [|c rest]; [reflexivity|]. intros H.
  apply skip_ws_head. apply (delim_head c rest H).
Qed.

Lemma parse_value_str f s rest :
  Json.parse_value (S f) (Json.dumps_str s ++ rest) = Some (PStr s, rest).
Proof.
  unfold Json.dumps_str.
  cbn [Json.parse_value app Json.head_is tl Ascii.eqb Bool.eqb].
  rewrite <- List.app_assoc. cbn [app].
  rewrite scan_string_dumps, string_of_list_ascii_of_string. reflexivity.
Qed.

Lemma scan_number_starts s v r :
  Json.scan_number s = Some (v, r) -> starts_value s = true.
Proof.
  intros H. destruct s as [|c s]; [discriminate|].
  destruct (number_head_facts c (scan_number_head _ _ _ _ H))
    as [H0 [_ [_ [_ [H1 [H2 _]]]]]].
  simpl. rewrite H0, H1, H2. reflexivity.
Qed.

Lemma parse_value_float f r rest :
  float_repr_ok r = true -> delim rest = true ->
  Json.parse_value (S f) (Json.dumps_float r ++ rest) = Some (PFloat r, rest) /\
  starts_value (Json.dumps_float r) = true.
Proof.
  unfold float_repr_ok, Json.dumps_float. intros H Hd.
  destruct (String.eqb r "nan") eqn:E1;
    [apply String.eqb_eq in E1; subst r; split; reflexivity|].
  destruct (String.eqb r "inf") eqn:E2;
    [apply String.eqb_eq in E2; subst r; split; reflexivity|].
  destruct (String.eqb r "-inf") eqn:E3;
    [apply String.eqb_eq in E3; subst r; split; reflexivity|].
  simpl in H.
  destruct (Json.scan_number (list_ascii_of_string r)) as [[v tl]|] eqn:Es;
    [|discriminate].
  destruct v; try discriminate. destruct tl; [|discriminate].
  apply String.eqb_eq in H. subst r0. split.
  - apply parse_value_number.
    exact (scan_number_frame _ _ _ _ Es Hd).
  - exact (scan_number_starts _ _ _ Es).
Qed.

Lemma parse_value_int f z rest :
  delim rest = true ->
  Json.parse_value (S f) (Json.chars_of_Z z ++ rest) = Some (PInt z, rest) /\
  starts_value (Json.chars_of_Z z) = true.
Proof.
  intros Hd. split.
  - apply parse_value_number.
    exact (scan_number_frame _ _ _ _ (scan_number_int z) Hd).
  - exact (scan_number_starts _ _ _ (scan_number_int z)).
Qed.

Lemma starts_value_app cs rest :
  starts_value cs = true ->
  Json.skip_ws (cs ++ rest) = cs ++ rest /\
  Json.head_is "]" (cs ++ rest) = false /\
  Json.head_is "}" (cs ++ rest) = false.
Proof.
  destruct cs as [|c cs]; [discriminate|]. simpl. intros H.
  apply andb_true_iff in H. destruct H as [H H3].
  apply andb_true_iff in H. destruct H as [H1 H2].
  apply negb_true_iff in H1, H2, H3. rewrite H1, H2, H3. repeat split.
Qed.

(** Whatever [dumps] writes for a json document starts as a value does. *)
Lemma dumps_starts_value v cs :
  json_value v = true -> Json.dumps v = Some cs -> starts_value cs = true.
Proof.
  destruct v; simpl; intros Hv Hd; try discriminate.
  - inversion Hd; reflexivity.
  - destruct b; inversion Hd; reflexivity.
  - inversion Hd; subst. apply (parse_value_int 0 z [] eq_refl).
  - inversion Hd; subst. apply (parse_value_float 0 r [] Hv eq_refl).
  - inversion Hd; reflexivity.
  - destruct (Json.sequence _); simpl in Hd; inversion Hd; reflexivity.
  - destruct (Json.sequence _); simpl in Hd; inversion Hd; reflexivity.
Qed.

(** ** Sequences and mappings *)

Lemma join_cons_app sep (q : list ascii) ps tail :
  exists tail', Json.join sep (q :: ps) ++ tail = q ++ tail'.
Proof.
  destruct ps as [|p ps]; cbn [Json.join].
  - exists tail. reflexivity.
  - eexists. rewrite <- List.app_assoc. reflexivity.
Qed.

Lemma sequence_cons {A} (o : option A) os :
  Json.sequence (o :: os) =
  match o with
  | Some a => option_map (cons a) (Json.sequence os)
  | None => None
  end.
Proof. reflexivity. Qed.

Lemma parse_elems_dumps x l :
  Forall (fun y => json_value y = true /\ reads_back y) (x :: l) ->
  forall parts, Json.sequence (map Json.dumps (x :: l)) = Some parts ->
  forall fuel rest, elems_fuel (x :: l) <= fuel ->
  Json.parse_elems fuel (Json.join [","; " "]%char parts ++ "]"%char :: rest)
    = Some (x :: l, rest).
Proof.
  revert x. induction l as [|y l IH]; intros x Hall parts Hparts fuel rest Hfuel.
  - inversion Hall as [|? ? [Hv Hx] _]; subst.
    cbn [map Json.sequence] in Hparts.
    destruct (Json.dumps x) as [p|] eqn:Ep; [|discriminate].
    inversion Hparts; subst parts. cbn [Json.join].
    destruct fuel as [|f]; [simpl in Hfuel; lia|].
    cbn [Json.parse_elems].
    rewrite (Hx p Ep f ("]"%char :: rest)); [reflexivity| |reflexivity].
    simpl in Hfuel. lia.
  - inversion Hall as [|? ? [Hv Hx] Hrest]; subst.
    change (map Json.dumps (x :: y :: l))
      with (Json.dumps x :: map Json.dumps (y :: l)) in Hparts.
    rewrite sequence_cons in Hparts.
    destruct (Json.dumps x) as [p|] eqn:Ep; [|discriminate].
    destruct (Json.sequence (map Json.dumps (y :: l))) as [ps|] eqn:Eps;
      [|discriminate].
    cbn [option_map] in Hparts. inversion Hparts; subst parts. clear Hparts.
    assert (Hps : exists q qs, ps = q :: qs /\ Json.dumps y = Some q).
    { change (map Json.dumps (y :: l))
        with (Json.dumps y :: map Json.dumps l) in Eps.
      rewrite sequence_cons in Eps.
      destruct (Json.dumps y) as [q|]; [|discriminate].
      destruct (Json.sequence (map Json.dumps l)) as [qs|]; [|discriminate].
      inversion Eps. exists q, qs. split; reflexivity. }
    destruct Hps as [q [qs [Hps Eq]]]. subst ps.
    destruct fuel as [|f]; [simpl in Hfuel; lia|].
    assert (Hf : size x <= f /\ elems_fuel (y :: l) <= f).
    { unfold elems_fuel in *. cbn [fold_right] in *. lia. }
    destruct Hf as [Hfx Hfl].
    change (Json.join [","; " "]%char (p :: q :: qs))
      with (p ++ [","; " "]%char ++ Json.join [","; " "]%char (q :: qs)).
    rewrite <- !List.app_assoc. cbn [Json.parse_elems].
    rewrite (Hx p Ep f _ Hfx); [|reflexivity].
    cbn [app]. rewrite (skip_ws_head ","%char _ eq_refl).
    cbn [Json.head_is tl Ascii.eqb Bool.eqb].
    rewrite skip_ws_space.
    destruct (join_cons_app [","; " "]%char q qs ("]"%char :: rest)) as [tail' Ht].
    inversion Hrest as [|? ? [Hvy _] _]; subst.
    assert (Hskip : Json.skip_ws (Json.join [","; " "]%char (q :: qs) ++ "]"%char :: rest)
                    = Json.join [","; " "]%char (q :: qs) ++ "]"%char :: rest).
    { rewrite Ht.
      apply (starts_value_app q tail' (dumps_starts_value y q Hvy Eq)). }
    rewrite Hskip.
    rewrite (IH y Hrest (q :: qs) Eps f rest Hfl). reflexivity.
Qed.

Lemma join_cons2 sep (p q : list ascii) qs :
  Json.join sep (p :: q :: qs) = p ++ sep ++ Json.join sep (q :: qs).
Proof. reflexivity. Qed.

Lemma dumps_member_str k x part :
  dumps_member (PStr k, x) = Some part ->
  exists xs, Json.dumps x = Some xs /\
             part = Json.dquote :: flat_map Json.escape_char (list_ascii_of_string k)
                    ++ Json.dquote :: ":"%char :: " "%char :: xs.
Proof.
  unfold dumps_member, Json.dumps_key, Json.dumps_str.
  destruct (Json.dumps x) as [xs|]; [|discriminate].
  intros H. inversion H. exists xs. split; [reflexivity|].
  cbn [app]. rewrite <- List.app_assoc. reflexivity.
Qed.

Lemma parse_member_step f k x xs tail :
  json_value x = true -> reads_back x -> Json.dumps x = Some xs ->
  size x <= f -> delim tail = true ->
  Json.parse_members (S f)
    (Json.dquote :: flat_map Json.escape_char (list_ascii_of_string k)
     ++ Json.dquote :: ":"%char :: " "%char :: xs ++ tail) =
  (if Json.head_is "}" tail then Some ([(k, x)], tl tail)
   else if Json.head_is "," tail then
     match Json.parse_members f (Json.skip_ws (tl tail)) with
     | Some (kvs, r') => Some ((k, x) :: kvs, r')
     | None => None
     end
   else None).
Proof.
  intros Hv Hx Ex Hf Hd.
  cbn [Json.parse_members Json.head_is tl Ascii.eqb Bool.eqb].
  rewrite scan_string_dumps.
  rewrite (skip_ws_head ":"%char _ eq_refl).
  cbn [Json.head_is tl Ascii.eqb Bool.eqb].
  rewrite skip_ws_space.
  rewrite (proj1 (starts_value_app xs tail (dumps_starts_value x xs Hv Ex))).
  rewrite (Hx xs Ex f tail Hf Hd).
  rewrite (skip_ws_delim tail Hd).
  rewrite string_of_list_ascii_of_string. reflexivity.
Qed.

Lemma parse_members_dumps kv d :
  Forall (fun kv => is_str (fst kv) = true /\ json_value (snd kv) = true /\
                    reads_back (snd kv)) (kv :: d) ->
  forall parts, Json.sequence (map dumps_member (kv :: d)) = Some parts ->
  forall fuel rest, members_fuel (kv :: d) <= fuel ->
  Json.parse_members fuel (Json.join [","; " "]%char parts ++ "}"%char :: rest)
    = Some (pairs_of (kv :: d), rest).
Proof.
  revert kv. induction d as [|kv2 d IH]; intros kv Hall parts Hparts fuel rest Hfuel.
  - inversion Hall as [|? ? [Hk [Hv Hx]] _]; subst.
    destruct kv as [k x]. destruct k; try discriminate. cbn [fst snd] in *.
    cbn [map] in Hparts. rewrite sequence_cons in Hparts.
    destruct (dumps_member (PStr s, x)) as [part|] eqn:Ep; [|discriminate].
    cbn in Hparts. inversion Hparts; subst parts.
    destruct (dumps_member_str _ _ _ Ep) as [xs [Ex Hpart]]. subst part.
    cbn [Json.join]. destruct fuel as [|f]; [simpl in Hfuel; lia|].
    cbn [app]. rewrite <- List.app_assoc. cbn [app].
    rewrite (parse_member_step f s x xs ("}"%char :: rest) Hv Hx Ex);
      [reflexivity| |reflexivity].
    simpl in Hfuel. lia.
  - inversion Hall as [|? ? [Hk [Hv Hx]] Hrest]; subst.
    destruct kv as [k x]. destruct k; try discriminate. cbn [fst snd] in *.
    change (map dumps_member ((PStr s, x) :: kv2 :: d))
      with (dumps_member (PStr s, x) :: map dumps_member (kv2 :: d)) in Hparts.
    rewrite sequence_cons in Hparts.
    destruct (dumps_member (PStr s, x)) as [part|] eqn:Ep; [|discriminate].
    destruct (Json.sequence (map dumps_member (kv2 :: d))) as [ps|] eqn:Eps;
      [|discriminate].
    cbn [option_map] in Hparts. inversion Hparts; subst parts. clear Hparts.
    destruct (dumps_member_str _ _ _ Ep) as [xs [Ex Hpart]]. subst part.
    assert (Hps : exists q qs, ps = q :: qs /\ starts_value q = true).
    { change (map dumps_member (kv2 :: d))
        with (dumps_member kv2 :: map dumps_member d) in Eps.
      rewrite sequence_cons in Eps.
      destruct (dumps_member kv2) as [q|] eqn:Eq2; [|discriminate].
      destruct (Json.sequence (map dumps_member d)) as [qs|]; [|discriminate].
      inversion Eps. exists q, qs. split; [reflexivity|].
      inversion Hrest as [|? ? [Hk2 _] _]; subst.
      destruct kv2 as [k2 x2]. destruct k2; try discriminate.
      destruct (dumps_member_str _ _ _ Eq2) as [xs2 [_ Hq]]. subst q. reflexivity. }
    destruct Hps as [q [qs [Hps Hq]]]. subst ps.
    destruct fuel as [|f]; [simpl in Hfuel; lia|].
    assert (Hf : size x <= f /\ members_fuel (kv2 :: d) <= f).
    { unfold members_fuel in *. cbn [fold_right] in *. destruct kv2. lia. }
    destruct Hf as [Hfx Hfl].
    rewrite join_cons2.
    set (J := Json.join [","; " "]%char (q :: qs)) in *.
    assert (Htext :
      ((Json.dquote :: flat_map Json.escape_char (list_ascii_of_string s)
          ++ Json.dquote :: ":"%char :: " "%char :: xs)
       ++ [","; " "]%char ++ J) ++ "}"%char :: rest
      = Json.dquote :: flat_map Json.escape_char (list_ascii_of_string s)
          ++ Json.dquote :: ":"%char :: " "%char :: xs
          ++ (","%char :: " "%char :: J ++ "}"%char :: rest)).
    { cbn [app]. rewrite <- ?List.app_assoc. cbn [app].
      rewrite <- ?List.app_assoc. reflexivity. }
    rewrite Htext.
    rewrite (parse_member_step f s x xs _ Hv Hx Ex Hfx); [|reflexivity].
    cbn [Json.head_is tl Ascii.eqb Bool.eqb].
    rewrite skip_ws_space.
    destruct (join_cons_app [","; " "]%char q qs ("}"%char :: rest)) as [tail' Ht].
    fold J in Ht.
    assert (Hskip : Json.skip_ws (J ++ "}"%char :: rest) = J ++ "}"%char :: rest).
    { rewrite Ht. apply (starts_value_app q tail' Hq). }
    rewrite Hskip. unfold J.
    rewrite (IH kv2 Hrest (q :: qs) Eps f rest Hfl). reflexivity.
Qed.

Lemma dict_set_fresh {V} k (v : V) d :
  str_in k (dict_keys d) = false -> dict_set k v d = d ++ [(k, v)].
Proof.
  induction d as [|[k' v'] d IH]; simpl; [reflexivity|]. intros H.
  apply orb_false_iff in H. destruct H as [Hk Hd].
  rewrite Hk, (IH Hd). reflexivity.
Qed.

Lemma str_in_app k a b : str_in k (a ++ b) = str_in k a || str_in k b.
Proof. unfold str_in. apply existsb_app. Qed.

Lemma fold_dict_set_distinct (pairs acc : list (string * pyval)) :
  distinct (dict_keys pairs) = true ->
  (forall k, In k (dict_keys pairs) -> str_in k (dict_keys acc) = false) ->
  fold_left (fun d kv => dict_set (fst kv) (snd kv) d) pairs acc = acc ++ pairs.
Proof.
  revert acc. induction pairs as [|[k v] pairs IH]; intros acc Hd Hacc; simpl.
  - rewrite List.app_nil_r. reflexivity.
  - simpl in Hd. apply andb_true_iff in Hd. destruct Hd as [Hk Hd].
    apply negb_true_iff in Hk.
    rewrite (dict_set_fresh k v acc (Hacc k (or_introl eq_refl))).
    rewrite IH; [rewrite <- List.app_assoc; reflexivity|exact Hd|].
    intros k' Hk'. unfold dict_keys. rewrite map_app.
    fold (dict_keys acc). rewrite str_in_app.
    rewrite (Hacc k' (or_intror Hk')). simpl.
    destruct (String.eqb k' k) eqn:E; [|reflexivity].
    apply String.eqb_eq in E. subst k'.
    apply str_in_In in Hk'. fold (dict_keys pairs) in Hk. congruence.
Qed.

Lemma dict_of_pairs_of d :
  forallb (fun kv => match kv with (k, x) => is_str k && json_value x end) d = true ->
  distinct (map (fun kv => key_text (fst kv)) d) = true ->
  Json.dict_of_pairs (pairs_of d) = d.
Proof.
  intros Hall Hd. unfold Json.dict_of_pairs.
  rewrite (fold_dict_set_distinct (pairs_of d) []).
  - simpl. unfold pairs_of. rewrite map_map. simpl.
    induction d as [|[k x] d IH]; [reflexivity|].
    simpl in Hall. apply andb_true_iff in Hall. destruct Hall as [Hk Hall].
    apply andb_true_iff in Hk. destruct Hk as [Hk _].
    simpl in Hd. apply andb_true_iff in Hd. destruct Hd as [_ Hd].
    simpl. rewrite (IH Hall Hd). destruct k; try discriminate. reflexivity.
  - unfold pairs_of, dict_keys. rewrite map_map. exact Hd.
  - intros k _. reflexivity.
Qed.

(** [parse_value] reads every json document back from its [dumps]. *)
Lemma parse_value_dumps v : json_value v = true -> reads_back v.
Proof.
  induction v using pyval_nested_ind; intros Hv; try discriminate;
    unfold reads_back; intros cs Hd fuel rest Hfuel Hdelim;
    (destruct fuel as [|f]; [simpl in Hfuel; lia|]).
  - simpl in Hd. inversion Hd; subst. reflexivity.
  - simpl in Hd. destruct b; inversion Hd; subst; reflexivity.
  - simpl in Hd. inversion Hd; subst. apply parse_value_int. exact Hdelim.
  - simpl in Hd. inversion Hd; subst. apply parse_value_float; assumption.
  - simpl in Hd. inversion Hd; subst. apply parse_value_str.
  - (* list *)
    assert (Hall : Forall (fun y => json_value y = true /\ reads_back y) l).
    { simpl in Hv. rewrite forallb_forall in Hv. rewrite Forall_forall in *.
      intros y Hy. split; [apply Hv, Hy|apply H; [exact Hy|apply Hv, Hy]]. }
    cbn [Json.dumps] in Hd.
    destruct (Json.sequence (map Json.dumps l)) as [parts|] eqn:Eparts;
      [|discriminate].
    cbn [option_map] in Hd. inversion Hd; subst cs. clear Hd.
    cbn [app]. rewrite <- List.app_assoc. cbn [app].
    cbn [Json.parse_value Json.head_is tl Ascii.eqb Bool.eqb].
    destruct l as [|x l].
    + simpl in Eparts. inversion Eparts; subst parts. cbn [Json.join app].
      rewrite (skip_ws_head "]"%char rest eq_refl). reflexivity.
    + assert (Hp : exists p ps, parts = p :: ps /\ Json.dumps x = Some p).
      { change (map Json.dumps (x :: l)) with (Json.dumps x :: map Json.dumps l)
          in Eparts.
        rewrite sequence_cons in Eparts.
        destruct (Json.dumps x) as [p|]; [|discriminate].
        destruct (Json.sequence (map Json.dumps l)) as [ps|]; [|discriminate].
        inversion Eparts. exists p, ps. split; reflexivity. }
      destruct Hp as [p [ps [Hp Ep]]]. subst parts.
      destruct (join_cons_app [","; " "]%char p ps ("]"%char :: rest)) as [tail' Ht].
      inversion Hall as [|? ? [Hvx _] _]; subst.
      destruct (starts_value_app p tail' (dumps_starts_value x p Hvx Ep))
        as [Hs [Hb _]].
      rewrite Ht, Hs, Hb, <- Ht.
      rewrite (parse_elems_dumps x l Hall _ Eparts f rest); [reflexivity|].
      simpl in Hfuel. unfold elems_fuel. simpl. lia.
  - (* dict *)
    simpl in Hv. apply andb_true_iff in Hv. destruct Hv as [Hkv Hdist].
    assert (Hall : Forall (fun kv => is_str (fst kv) = true /\
                                     json_value (snd kv) = true /\
                                     reads_back (snd kv)) d).
    { rewrite forallb_forall in Hkv. rewrite Forall_forall in *.
      intros [k x] Hy. specialize (Hkv _ Hy). simpl in Hkv.
      apply andb_true_iff in Hkv. destruct Hkv as [Hk Hx].
      repeat split; [exact Hk|exact Hx|]. apply (H _ Hy). exact Hx. }
    cbn [Json.dumps] in Hd. fold dumps_member in Hd.
    change (fun kv : pyval * pyval =>
              match kv with
              | (k, x) =>
                  match Json.dumps_key k, Json.dumps x with
                  | Some ks, Some xs => Some (ks ++ [":"%char; " "%char] ++ xs)
                  | _, _ => None
                  end
              end) with dumps_member in Hd.
    destruct (Json.sequence (map dumps_member d)) as [parts|] eqn:Eparts;
      [|discriminate].
    cbn [option_map] in Hd. inversion Hd; subst cs. clear Hd.
    cbn [app]. rewrite <- List.app_assoc. cbn [app].
    cbn [Json.parse_value Json.head_is tl Ascii.eqb Bool.eqb].
    destruct d as [|kv d].
    + simpl in Eparts. inversion Eparts; subst parts. cbn [Json.join app].
      rewrite (skip_ws_head "}"%char rest eq_refl). reflexivity.
    + assert (Hp : exists p ps, parts = p :: ps /\ starts_value p = true).
      { change (map dumps_member (kv :: d)) with (dumps_member kv :: map dumps_member d)
          in Eparts.
        rewrite sequence_cons in Eparts.
        destruct (dumps_member kv) as [p|] eqn:Ep; [|discriminate].
        destruct (Json.sequence (map dumps_member d)) as [ps|]; [|discriminate].
        inversion Eparts. exists p, ps. split; [reflexivity|].
        inversion Hall as [|? ? [Hk _] _]; subst.
        destruct kv as [k x]. destruct k; try discriminate.
        destruct (dumps_member_str _ _ _ Ep) as [xs [_ Hq]]. subst p. reflexivity. }
      destruct Hp as [p [ps [Hp Hsp]]]. subst parts.
      destruct (join_cons_app [","; " "]%char p ps ("}"%char :: rest)) as [tail' Ht].
      destruct (starts_value_app p tail' Hsp) as [Hs [_ Hb]].
      rewrite Ht, Hs, Hb, <- Ht.
      rewrite (parse_members_dumps kv d Hall _ Eparts f rest).
      * rewrite (dict_of_pairs_of (kv :: d) Hkv Hdist). reflexivity.
      * simpl in Hfuel. unfold members_fuel. simpl. destruct kv. lia.
Qed.

(** ** The fuel [loads] supplies is enough, and [dumps] is defined *)

Lemma starts_value_nonempty cs : starts_value cs = true -> 1 <= List.length cs.
Proof. destruct cs; [discriminate|]. simpl. lia. Qed.

Lemma sequence_map_nil {A B} (f : A -> option B) l :
  Json.sequence (map f l) = Some [] -> l = [].
Proof.
  destruct l as [|x l]; [reflexivity|]. simpl.
  destruct (f x); [|discriminate].
  destruct (Json.sequence (map f l)); discriminate.
Qed.

Lemma elems_fuel_length l :
  Forall (fun x => forall cs, Json.dumps x = Some cs -> size x <= List.length cs) l ->
  forall parts, Json.sequence (map Json.dumps l) = Some parts ->
  elems_fuel l <= S (List.length (Json.join [","; " "]%char parts)).
Proof.
  induction l as [|x l IH]; intros Hall parts Hparts; [simpl; lia|].
  inversion Hall as [|? ? Hx Hl]; subst.
  change (map Json.dumps (x :: l)) with (Json.dumps x :: map Json.dumps l) in Hparts.
  rewrite sequence_cons in Hparts.
  destruct (Json.dumps x) as [p|] eqn:Ep; [|discriminate].
  destruct (Json.sequence (map Json.dumps l)) as [ps|] eqn:Eps; [|discriminate].
  cbn [option_map] in Hparts. inversion Hparts; subst parts.
  specialize (Hx p eq_refl). specialize (IH Hl ps eq_refl).
  unfold elems_fuel in *. cbn [fold_right].
  destruct ps as [|q qs].
  - apply sequence_map_nil in Eps. subst l. simpl. lia.
  - rewrite join_cons2. rewrite !length_app. cbn [List.length]. lia.
Qed.

Lemma members_fuel_length d :
  Forall (fun kv => forall cs, Json.dumps (snd kv) = Some cs ->
                               size (snd kv) <= List.length cs) d ->
  forall parts, Json.sequence (map dumps_member d) = Some parts ->
  members_fuel d <= S (List.length (Json.join [","; " "]%char parts)).
Proof.
  induction d as [|[k x] d IH]; intros Hall parts Hparts; [simpl; lia|].
  inversion Hall as [|? ? Hx Hl]; subst. cbn [snd] in Hx.
  change (map dumps_member ((k, x) :: d))
    with (dumps_member (k, x) :: map dumps_member d) in Hparts.
  rewrite sequence_cons in Hparts.
  destruct (dumps_member (k, x)) as [p|] eqn:Ep; [|discriminate].
  destruct (Json.sequence (map dumps_member d)) as [ps|] eqn:Eps; [|discriminate].
  cbn [option_map] in Hparts. inversion Hparts; subst parts.
  assert (Hp : size x <= List.length p).
  { unfold dumps_member in Ep. destruct (Json.dumps_key k); [|discriminate].
    destruct (Json.dumps x) as [xs|]; [|discriminate].
    inversion Ep; subst p. specialize (Hx xs eq_refl).
    rewrite ?length_app. cbn [app List.length]. lia. }
  specialize (IH Hl ps eq_refl).
  unfold members_fuel in *. cbn [fold_right].
  destruct ps as [|q qs].
  - apply sequence_map_nil in Eps. subst d. simpl. lia.
  - rewrite join_cons2. rewrite !length_app. cbn [List.length]. lia.
Qed.

Lemma dumps_length v :
  json_value v = true ->
  forall cs, Json.dumps v = Some cs -> size v <= List.length cs.
Proof.
  induction v using pyval_nested_ind; intros Hv cs Hd; try discriminate;
    try (exact (starts_value_nonempty cs (dumps_starts_value _ cs Hv Hd))).
  - assert (Hall : Forall (fun x => forall cs, Json.dumps x = Some cs ->
                                               size x <= List.length cs) l).
    { simpl in Hv. rewrite forallb_forall in Hv. rewrite Forall_forall in *.
      intros y Hy. apply H; [exact Hy|apply Hv, Hy]. }
    cbn [Json.dumps] in Hd.
    destruct (Json.sequence (map Json.dumps l)) as [parts|] eqn:Eparts;
      [|discriminate].
    cbn [option_map] in Hd. inversion Hd; subst cs.
    pose proof (elems_fuel_length l Hall parts Eparts) as Hf.
    cbn [size]. fold (elems_fuel l). simpl List.length. rewrite length_app.
    simpl List.length. lia.
  - simpl in Hv. apply andb_true_iff in Hv. destruct Hv as [Hkv _].
    assert (Hall : Forall (fun kv => forall cs, Json.dumps (snd kv) = Some cs ->
                                     size (snd kv) <= List.length cs) d).
    { rewrite forallb_forall in Hkv. rewrite Forall_forall in *.
      intros [k x] Hy. specialize (Hkv _ Hy). simpl in Hkv.
      apply andb_true_iff in Hkv. apply (H _ Hy). apply Hkv. }
    cbn [Json.dumps] in Hd.
    change (fun kv : pyval * pyval =>
              match kv with
              | (k, x) =>
                  match Json.dumps_key k, Json.dumps x with
                  | Some ks, Some xs => Some (ks ++ [":"%char; " "%char] ++ xs)
                  | _, _ => None
                  end
              end) with dumps_member in Hd.
    destruct (Json.sequence (map dumps_member d)) as [parts|] eqn:Eparts;
      [|discriminate].
    cbn [option_map] in Hd. inversion Hd; subst cs.
    pose proof (members_fuel_length d Hall parts Eparts) as Hf.
    cbn [size]. fold (members_fuel d). simpl List.length. rewrite length_app.
    simpl List.length. lia.
Qed.

Lemma sequence_some {A B} (f : A -> option B) l :
  Forall (fun x => exists y, f x = Some y) l ->
  exists ys, Json.sequence (map f l) = Some ys.
Proof.
  induction l as [|x l IH]; intros H; [exists []; reflexivity|].
  inversion H as [|? ? [y Hy] Hl]; subst. destruct (IH Hl) as [ys Hys].
  exists (y :: ys). simpl. rewrite Hy, Hys. reflexivity.
Qed.

Lemma dumps_defined v : json_value v = true -> exists cs, Json.dumps v = Some cs.
Proof.
  induction v using pyval_nested_ind; intros Hv; try discriminate;
    try (eexists; reflexivity).
  - destruct b; eexists; reflexivity.
  - simpl in Hv. rewrite forallb_forall in Hv. rewrite Forall_forall in H.
    destruct (sequence_some Json.dumps l) as [ys Hys].
    { apply Forall_forall. intros y Hy. apply H; [exact Hy|apply Hv, Hy]. }
    cbn [Json.dumps]. rewrite Hys. eexists; reflexivity.
  - simpl in Hv. apply andb_true_iff in Hv. destruct Hv as [Hkv _].
    rewrite forallb_forall in Hkv. rewrite Forall_forall in H.
    destruct (sequence_some dumps_member d) as [ys Hys].
    { apply Forall_forall. intros [k x] Hy. specialize (Hkv _ Hy). simpl in Hkv.
      apply andb_true_iff in Hkv. destruct Hkv as [Hk Hx].
      destruct (H _ Hy Hx) as [xs Hxs]. destruct k; try discriminate.
      unfold dumps_member, Json.dumps_key. cbn [snd] in Hxs. rewrite Hxs.
      eexists; reflexivity. }
    cbn [Json.dumps].
    change (fun kv : pyval * pyval =>
              match kv with
              | (k, x) =>
                  match Json.dumps_key k, Json.dumps x with
                  | Some ks, Some xs => Some (ks ++ [":"%char; " "%char] ++ xs)
                  | _, _ => None
                  end
              end) with dumps_member.
    rewrite Hys. eexists; reflexivity.
Qed.

(** [json.loads(json.dumps(v)) == v] for every json document [v]. *)
Lemma json_loads_dumps v :
  json_value v = true ->
  exists text, json_dumps v = Ok text /\ json_loads text = Ok v.
Proof.
  intros Hv. destruct (dumps_defined v Hv) as [cs Hcs].
  exists (string_of_list_ascii cs). unfold json_dumps, json_loads. rewrite Hcs.
  split; [reflexivity|].
  rewrite list_ascii_of_string_of_list_ascii. unfold Json.loads.
  pose proof (dumps_starts_value v cs Hv Hcs) as Hs.
  destruct (starts_value_app cs [] Hs) as [Hskip _].
  rewrite List.app_nil_r in Hskip. rewrite Hskip.
  pose proof (parse_value_dumps v Hv cs Hcs (S (List.length cs)) []) as Hp.
  rewrite List.app_nil_r in Hp. rewrite Hp; [reflexivity| |reflexivity].
  pose proof (dumps_length v Hv cs Hcs). lia.
Qed.

(** * The value codec *)

Lemma logical_type_flags t b :
  logical_type t = Some b ->
  base_type b = true /\
  _is_json_type t = match b with TyDict | TyList => true | _ => false end /\
  _is_bool_type t = match b with TyBool => true | _ => false end.
Proof.
  unfold logical_type. destruct (base_type t) eqn:Eb.
  - intros H. inversion H; subst b. split; [exact Eb|].
    destruct t; try discriminate; split; reflexivity.
  - destruct t; try discriminate.
    unfold _is_json_type, _is_bool_type, next_arg. cbn [get_origin type_args].
    destruct (filter (fun a => negb (is_NoneType a)) args) as [|a [|a' rest]];
      try discriminate.
    destruct (base_type a) eqn:Ea; [|discriminate].
    intros H. inversion H; subst b. split; [exact Ea|split; reflexivity].
Qed.

(** One field: what [_to_row] writes for a value the field may hold binds
    to a storage value from which [_from_row] decodes the value again. *)
Lemma codec_field t k v :
  field_value_ok t v = true ->
  exists e sv,
    (if is_none v then Ok (k, PNone)
     else if is_json (field_info (k, t))
     then result_bind (json_dumps v) (fun text => Ok (k, PStr text))
     else Ok (k, v)) = Ok (k, e) /\
    sqlite_bind e = Ok sv /\
    forall row, dict_get k row = Some sv ->
                decode_field row (field_info (k, t)) = Ok (k, v).
Proof.
  unfold field_value_ok. intros H.
  destruct (is_none v) eqn:En.
  { destruct v; try discriminate. exists PNone, SNull.
    repeat split. intros row Hrow. unfold decode_field. cbn [name field_info fst].
    rewrite Hrow. reflexivity. }
  simpl in H.
  destruct (logical_type t) as [b|] eqn:El; [|discriminate].
  apply andb_true_iff in H. destruct H as [Ht Hs].
  destruct (logical_type_flags t b El) as [Hb [Hj Hbool]].
  cbn [is_json is_bool field_info snd]. rewrite Hj.
  destruct b; try discriminate; destruct v; try discriminate.
  - (* int *)
    exists (PInt z), (SInteger z). split; [reflexivity|]. split.
    + simpl in *. rewrite Hs. reflexivity.
    + intros row Hrow. unfold decode_field. cbn [name is_json is_bool field_info fst snd].
      rewrite Hrow, Hj, Hbool. reflexivity.
  - (* text *)
    exists (PStr s), (SText s). repeat split.
    intros row Hrow. unfold decode_field. cbn [name is_json is_bool field_info fst snd].
    rewrite Hrow, Hj, Hbool. reflexivity.
  - (* real *)
    exists (PFloat r), (SReal r). split; [reflexivity|]. split.
    + simpl in *. apply negb_true_iff in Hs. rewrite Hs. reflexivity.
    + intros row Hrow. unfold decode_field. cbn [name is_json is_bool field_info fst snd].
      rewrite Hrow, Hj, Hbool. reflexivity.
  - (* boolean *)
    exists (PBool b), (SInteger (if b then 1 else 0)). repeat split.
    intros row Hrow. unfold decode_field. cbn [name is_json is_bool field_info fst snd].
    rewrite Hrow, Hj, Hbool. destruct b; reflexivity.
  - (* mapping *)
    destruct (json_loads_dumps (PDict d) Hs) as [text [Hd Hl]].
    exists (PStr text), (SText text). rewrite Hd. repeat split.
    intros row Hrow. unfold decode_field. cbn [name is_json is_bool field_info fst snd].
    rewrite Hrow, Hj. cbn [py_of_sval is_none json_loads_value]. rewrite Hl. reflexivity.
  - (* sequence *)
    destruct (json_loads_dumps (PList l) Hs) as [text [Hd Hl]].
    exists (PStr text), (SText text). rewrite Hd. repeat split.
    intros row Hrow. unfold decode_field. cbn [name is_json is_bool field_info fst snd].
    rewrite Hrow, Hj. cbn [py_of_sval is_none json_loads_value]. rewrite Hl. reflexivity.
Qed.

Lemma roundtrip_fields (fs : list (string * pytype)) data self :
  NoDup (map fst fs) ->
  Forall2 (fun ft kv => fst kv = fst ft /\ field_value_ok (snd ft) (snd kv) = true)
          fs data ->
  (forall ft, In ft fs -> _field_map self (fst ft) = Some (field_info ft)) ->
  exists row stored,
    result_map (encode_field self) data = Ok row /\
    result_map bind_set row = Ok stored /\
    dict_keys stored = map fst fs /\
    forall row',
      (forall ft, In ft fs -> dict_get (fst ft) row' = dict_get (fst ft) stored) ->
      result_map (decode_field row') (map field_info fs) = Ok data.
Proof.
  intros Hnd Hall. revert Hnd. induction Hall as [|[k t] [k' v] fs data [Hk Hok] Hall IH];
    intros Hnd Hmap.
  - exists [], []. repeat split. 
  - cbn [fst snd] in Hk, Hok. subst k'.
    inversion Hnd as [|? ? Hnot Hnd']; subst.
    destruct (IH Hnd' (fun ft Hft => Hmap ft (or_intror Hft)))
      as [row [stored [Hrow [Hst [Hkeys Hdec]]]]].
    destruct (codec_field t k v Hok) as [e [sv [He [Hb Hd]]]].
    exists ((k, e) :: row), ((k, sv) :: stored).
    split; [|split; [|split]].
    + cbn [result_map]. unfold encode_field at 1. cbn [fst snd].
      pose proof (Hmap (k, t) (or_introl eq_refl)) as Hm. cbn [fst] in Hm.
      rewrite Hm, He, Hrow. reflexivity.
    + cbn [result_map]. unfold bind_set at 1. cbn [fst snd].
      rewrite Hb. cbn [result_bind]. rewrite Hst. reflexivity.
    + simpl. rewrite <- Hkeys. reflexivity.
    + intros row' Hrow'. cbn [map result_map].
      rewrite (Hd row').
      2:{ pose proof (Hrow' (k, t) (or_introl eq_refl)) as Hr0.
          cbn [fst dict_get] in Hr0. rewrite String.eqb_refl in Hr0. exact Hr0. }
      rewrite (Hdec row'); [reflexivity|].
      intros ft Hft. rewrite (Hrow' ft (or_intror Hft)). cbn [dict_get].
      destruct (String.eqb (fst ft) k) eqn:E; [|reflexivity].
      apply String.eqb_eq in E. exfalso. apply Hnot. cbn [fst]. rewrite <- E.
      apply in_map. exact Hft.
Qed.

Lemma field_map_handle cls ft :
  NoDup (map fst (fields cls)) -> In ft (fields cls) ->
  _field_map (handle cls) (fst ft) = Some (field_info ft).
Proof.
  unfold _field_map. cbn [_fields handle]. unfold _get_fields.
  induction (fields cls) as [|g fs IH]; intros Hnd Hin; [contradiction|].
  inversion Hnd as [|? ? Hnot Hnd']; subst. cbn [map find name field_info].
  destruct Hin as [Hin|Hin].
  - subst g. rewrite String.eqb_refl. reflexivity.
  - destruct (String.eqb (fst g) (fst ft)) eqn:E.
    + apply String.eqb_eq in E. exfalso. apply Hnot. rewrite E.
      apply in_map. exact Hin.
    + apply IH; assumption.
Qed.




(** * Further properties of the module *)

(** The keys of a literal record are not parameters of [read]. *)
Ltac plain_keys :=
  repeat (constructor; [simpl; intuition discriminate|]); constructor.

(** ** Following a relation through a computation *)

Section Steps.
Variable R : list srow -> list srow -> Prop.
Hypothesis R_refl : forall tbl, R tbl tbl.
Hypothesis R_trans : forall a b c, R a b -> R b c -> R a c.

Lemma steps_ret {A} (a : A) : steps R (ret a).
Proof. intros w. apply R_refl. Qed.

Lemma steps_raise {A} e : steps R (@raise A e).
Proof. intros w. apply R_refl. Qed.

Lemma steps_lift {A} (r : result A) : steps R (lift r).
Proof. intros w. apply R_refl. Qed.

Lemma steps_now : steps R _now.
Proof. intros w. apply R_refl. Qed.

Lemma steps_uuid4 : steps R uuid4.
Proof. intros w. apply R_refl. Qed.

Lemma steps_bind {A B} (m : M A) (k : A -> M B) :
  steps R m -> (forall a, steps R (k a)) -> steps R (bind m k).
Proof.
  intros Hm Hk w. unfold bind. specialize (Hm w).
  destruct (m w) as [[a|e] w1]; simpl in *; [|exact Hm].
  eapply R_trans; [exact Hm|apply Hk].
Qed.

Lemma steps_for_records {T} (body : T -> M (list instance)) records :
  (forall r, In r records -> steps R (body r)) ->
  steps R (for_records body records).
Proof.
  induction records as [|r records IH]; intros H; simpl.
  - apply steps_ret.
  - apply steps_bind; [apply H; left; reflexivity|]. intros found.
    apply steps_bind; [apply IH; intros r' Hr'; apply H; right; exact Hr'|].
    intros more. apply steps_ret.
Qed.

Lemma steps_sql self s :
  (forall tbl res tbl', execute (columns self) s tbl = Ok (res, tbl') -> R tbl tbl') ->
  steps R (_sql self s).
Proof.
  intros H w. unfold _sql.
  destruct (execute (columns self) s (rows w)) as [[res tbl]|e] eqn:E; simpl.
  - eapply H. exact E.
  - apply R_refl.
Qed.

Lemma steps_sql_read_only self s : read_only s = true -> steps R (_sql self s).
Proof.
  intros Hs. apply steps_sql. intros tbl res tbl' E.
  rewrite (execute_read_only _ _ _ _ _ Hs E). apply R_refl.
Qed.

Lemma steps_read self include_deleted page n kwargs :
  steps R (read self include_deleted page n kwargs).
Proof.
  unfold read. apply steps_bind; [apply steps_lift|]. intros conds.
  apply steps_bind; [apply steps_sql_read_only; reflexivity|]. intros rs.
  apply steps_lift.
Qed.
End Steps.

(** ** What one statement does to the table *)

Lemma execute_insert_shape cols row tbl res tbl' :
  execute cols (InsertInto row) tbl = Ok (res, tbl') ->
  exists vals,
    known_cols cols (dict_keys row) = true /\
    result_map bind_set row = Ok vals /\
    existsb (ids_clash_with (stored_row cols vals)) tbl = false /\
    res = [] /\ tbl' = tbl ++ [stored_row cols vals].
Proof.
  unfold execute, ids_clash_with.
  destruct (known_cols cols (dict_keys row)); [|discriminate]. cbn [negb].
  destruct (result_map bind_set row) as [vals|e]; [|discriminate].
  cbn [result_bind].
  destruct (dict_get "id" (stored_row cols vals)) as [v|] eqn:Eid.
  - destruct (existsb (fun r => holds r (BEq "id" v)) tbl) eqn:Ec; [discriminate|].
    intros H. inversion H; subst. exists vals. repeat split.
    rewrite <- Ec. clear Ec H. induction tbl as [|r tbl IH]; [reflexivity|].
    simpl. rewrite IH. unfold ids_clash. rewrite Eid. reflexivity.
  - intros H. inversion H; subst. exists vals. repeat split.
    clear H. induction tbl as [|r tbl IH]; [reflexivity|]. simpl.
    unfold ids_clash at 1. rewrite Eid. exact IH.
Qed.

Lemma execute_update_shape cols sets conds tbl res tbl' :
  execute cols (UpdateSet sets conds) tbl = Ok (res, tbl') ->
  exists vals cs,
    result_map bind_set sets = Ok vals /\
    result_map bind_cond conds = Ok cs /\
    tbl' = map (fun r => if where_ cs r then assign vals r else r) tbl.
Proof.
  unfold execute.
  destruct (known_cols cols (dict_keys sets ++ map cond_col conds)); [|discriminate].
  cbn [negb].
  destruct (result_map bind_set sets) as [vals|e]; [|discriminate].
  destruct (result_map bind_cond conds) as [cs|e]; [|discriminate].
  cbn [result_bind]. intros H. inversion H; subst. exists vals, cs. repeat split.
Qed.

Lemma execute_delete_shape cols conds tbl res tbl' :
  execute cols (DeleteFrom conds) tbl = Ok (res, tbl') ->
  exists cs,
    result_map bind_cond conds = Ok cs /\
    tbl' = filter (fun r => negb (where_ cs r)) tbl.
Proof.
  unfold execute.
  destruct (known_cols cols (map cond_col conds)); [|discriminate]. cbn [negb].
  destruct (result_map bind_cond conds) as [cs|e]; [|discriminate].
  cbn [result_bind]. intros H. inversion H; subst. exists cs. repeat split.
Qed.

Lemma bind_set_keys row vals :
  result_map bind_set row = Ok vals -> dict_keys vals = dict_keys row.
Proof.
  revert vals. induction row as [|[k v] row IH]; simpl; intros vals H.
  - inversion H; reflexivity.
  - unfold bind_set at 1 in H. cbn [fst snd] in H.
    destruct (sqlite_bind v) as [sv|e]; [|discriminate]. cbn [result_bind] in H.
    destruct (result_map bind_set row) as [vals'|e]; [|discriminate].
    inversion H; subst. simpl. rewrite (IH vals' eq_refl). reflexivity.
Qed.

Lemma bind_set_get row vals k p :
  result_map bind_set row = Ok vals ->
  dict_get k row = Some p ->
  exists sv, sqlite_bind p = Ok sv /\ dict_get k vals = Some sv.
Proof.
  revert vals. induction row as [|[k0 v] row IH]; simpl; intros vals H Hg;
    [discriminate|].
  unfold bind_set at 1 in H. cbn [fst snd] in H.
  destruct (sqlite_bind v) as [sv|e] eqn:Eb; [|discriminate]. cbn [result_bind] in H.
  destruct (result_map bind_set row) as [vals'|e]; [|discriminate].
  inversion H; subst. simpl.
  destruct (String.eqb k k0).
  - inversion Hg; subst. exists sv. split; [exact Eb|reflexivity].
  - apply (IH vals' eq_refl Hg).
Qed.

Lemma stored_row_keys cols vals : dict_keys (stored_row cols vals) = cols.
Proof.
  unfold stored_row, dict_keys. rewrite map_map. simpl. apply map_id.
Qed.

Lemma stored_row_get cols vals k :
  str_in k cols = true ->
  dict_get k (stored_row cols vals) =
    Some (match dict_get k vals with Some v => v | None => SNull end).
Proof.
  unfold stored_row. induction cols as [|c cols IH]; simpl; [discriminate|].
  destruct (String.eqb k c) eqn:E.
  - apply String.eqb_eq in E. subst c. reflexivity.
  - simpl. exact IH.
Qed.

Lemma not_in_keys_get {V} k (d : list (string * V)) :
  ~ In k (dict_keys d) -> dict_get k d = None.
Proof.
  induction d as [|[k' v] d IH]; simpl; intros H; [reflexivity|].
  destruct (String.eqb k k') eqn:E.
  - apply String.eqb_eq in E. subst. exfalso. apply H. left. reflexivity.
  - apply IH. intros Hin. apply H. right. exact Hin.
Qed.

Lemma dict_set_keys {V} k (v : V) d x :
  In x (dict_keys (dict_set k v d)) -> x = k \/ In x (dict_keys d).
Proof.
  induction d as [|[k' v'] d IH]; simpl.
  - intros [H|H]; [left; symmetry; exact H|contradiction].
  - destruct (String.eqb k k'); simpl.
    + intros [H|H]; [right; left; exact H|right; right; exact H].
    + intros [H|H]; [right; left; exact H|].
      destruct (IH H) as [Hx|Hx]; [left; exact Hx|right; right; exact Hx].
Qed.

Lemma assign_other vals r k :
  ~ In k (dict_keys vals) -> dict_get k (assign vals r) = dict_get k r.
Proof.
  unfold assign. revert r. induction vals as [|[k0 v] vals IH]; intros r H;
    [reflexivity|].
  simpl. rewrite IH.
  - apply dict_get_set_other. intros He. apply H. left. exact He.
  - intros Hin. apply H. right. exact Hin.
Qed.

Lemma silent_lift {A} (r : result A) : silent (lift r).
Proof. intros w. reflexivity. Qed.

Lemma silent_ret {A} (a : A) : silent (ret a).
Proof. intros w. reflexivity. Qed.

Lemma silent_uuid4 : silent uuid4.
Proof. intros w. reflexivity. Qed.

Lemma silent_now : silent _now.
Proof. intros w. reflexivity. Qed.

Lemma silent_sql_read_only self s : read_only s = true -> silent (_sql self s).
Proof. intros H w. apply _sql_read_only_rows. exact H. Qed.

Lemma effect_bind_silent {A B} (Q : list srow -> result B -> list srow -> Prop)
      (m : M A) (k : A -> M B) :
  silent m ->
  (forall tbl e, Q tbl (Err e) tbl) ->
  (forall a, returns m a -> effect Q (k a)) ->
  effect Q (bind m k).
Proof.
  intros Hs He Hk w. unfold bind. specialize (Hs w).
  destruct (m w) as [[a|e] w1] eqn:E; simpl in *.
  - rewrite <- Hs. apply Hk. exists w. rewrite E. reflexivity.
  - rewrite Hs. apply He.
Qed.

Lemma steps_bind_returns (R : list srow -> list srow -> Prop) {A B}
      (m : M A) (k : A -> M B) :
  (forall a b c, R a b -> R b c -> R a c) ->
  steps R m -> (forall a, returns m a -> steps R (k a)) -> steps R (bind m k).
Proof.
  intros R_trans Hm Hk w. unfold bind. specialize (Hm w).
  destruct (m w) as [[a|e] w1] eqn:E; simpl in *; [|exact Hm].
  eapply R_trans; [exact Hm|]. apply Hk. exists w. rewrite E. reflexivity.
Qed.

(** The timestamp step shared by [create] and [update]. *)
Lemma returns_timestamp (c : bool) key (row a : list (string * pyval)) :
  returns (if c then now <- _now ;; ret (dict_set key (PStr now) row)
           else ret row) a ->
  a = row \/ exists now, a = dict_set key (PStr now) row.
Proof.
  intros [w H]. destruct c.
  - right. unfold bind, _now, ret in H. simpl in H. inversion H. eexists. reflexivity.
  - left. unfold ret in H. simpl in H. inversion H. reflexivity.
Qed.

Lemma silent_timestamp (c : bool) key (row : list (string * pyval)) :
  silent (if c then now <- _now ;; ret (dict_set key (PStr now) row)
          else ret row).
Proof. intros w. destruct c; reflexivity. Qed.

Lemma returns_lift {A} (r : result A) a : returns (lift r) a -> r = Ok a.
Proof. intros [w H]. exact H. Qed.

Lemma keys_filter_inv {V} (p : string * V -> bool) d k :
  In k (dict_keys (filter p d)) -> exists v, In (k, v) d /\ p (k, v) = true.
Proof.
  unfold dict_keys. rewrite in_map_iff. intros [[k' v] [Hk Hin]].
  simpl in Hk. subst k'. apply filter_In in Hin. exists v. exact Hin.
Qed.

(** ** update: which columns it can touch *)

Lemma same_protected_all_refl tbl : Forall2 same_protected tbl tbl.
Proof.
  induction tbl as [|r tbl IH]; constructor; [|exact IH].
  intros k _. reflexivity.
Qed.

Lemma same_protected_all_trans a b c :
  Forall2 same_protected a b -> Forall2 same_protected b c ->
  Forall2 same_protected a c.
Proof.
  intros Hab. revert c. induction Hab as [|x y a b Hxy Hab IH]; intros c Hbc.
  - inversion Hbc. constructor.
  - inversion Hbc as [|y' z b' c' Hyz Hbc']; subst. constructor.
    + intros k Hk. rewrite (Hyz k Hk). apply Hxy. exact Hk.
    + apply IH. exact Hbc'.
Qed.

Lemma update_statement_protected cols sets conds tbl res tbl' :
  (forall k, In k protected_columns -> ~ In k (dict_keys sets)) ->
  execute cols (UpdateSet sets conds) tbl = Ok (res, tbl') ->
  Forall2 same_protected tbl tbl'.
Proof.
  intros Hk E. apply execute_update_shape in E.
  destruct E as [vals [cs [Hv [_ ->]]]].
  apply bind_set_keys in Hv.
  induction tbl as [|r tbl IH]; simpl; constructor; [|exact IH].
  destruct (where_ cs r).
  - intros k Hin. apply assign_other. rewrite Hv. apply Hk. exact Hin.
  - intros k _. reflexivity.
Qed.

Lemma update_data_keys record k :
  In k protected_columns ->
  ~ In k (dict_keys
            (filter (fun kv : string * pyval => negb (String.eqb (fst kv) "updated_at"))
               (filter (fun kv => negb (str_in (fst kv) ["id"; "created_at"; "deleted_at"]))
                  record))).
Proof.
  intros Hk Hin. apply keys_filter_inv in Hin. destruct Hin as [v [Hin _]].
  apply filter_In in Hin. destruct Hin as [_ Hp]. cbn [fst] in Hp.
  apply negb_true_iff in Hp.
  assert (Ht : str_in k ["id"; "created_at"; "deleted_at"] = true)
    by (apply str_in_In; exact Hk).
  rewrite Ht in Hp. discriminate.
Qed.

Lemma update_one_protected self record :
  steps (Forall2 same_protected) (update_one self record).
Proof.
  pose proof same_protected_all_refl as Hr.
  pose proof same_protected_all_trans as Ht.
  unfold update_one.
  destruct (dict_get "id" record) as [item_id|]; [|apply steps_raise; exact Hr].
  destruct (is_none item_id); [apply steps_raise; exact Hr|].
  match goal with |- context [if ?c then ret [] else _] => destruct c end;
    [apply steps_ret; exact Hr|].
  apply steps_bind_returns; [exact Ht|apply steps_lift; exact Hr|].
  intros row0 Hrow0. apply returns_lift in Hrow0.
  apply _to_row_keys in Hrow0. destruct Hrow0 as [Hkeys _].
  apply steps_bind_returns; [exact Ht| |].
  { intros w. rewrite silent_timestamp. apply Hr. }
  intros row Hrow. apply returns_timestamp in Hrow.
  assert (Hfree : forall k, In k protected_columns -> ~ In k (dict_keys row)).
  { intros k Hk Hin.
    assert (Hin0 : k = "updated_at" \/ In k (dict_keys row0)).
    { destruct Hrow as [->|[now ->]]; [right; exact Hin|].
      apply dict_set_keys in Hin. exact Hin. }
    destruct Hin0 as [->|Hin0].
    - simpl in Hk. repeat (destruct Hk as [Hk|Hk]; [discriminate|]). exact Hk.
    - rewrite Hkeys in Hin0. exact (update_data_keys record k Hk Hin0). }
  destruct (is_nil row); [apply steps_ret; exact Hr|].
  apply steps_bind; [exact Ht| |].
  { apply steps_sql; [exact Hr|]. intros tbl res tbl' E.
    exact (update_statement_protected _ _ _ _ _ _ Hfree E). }
  intros _. apply steps_bind; [exact Ht| |].
  { apply steps_sql_read_only; [exact Hr|reflexivity]. }
  intros rs. destruct rs as [|r rs]; [apply steps_ret; exact Hr|].
  apply steps_bind; [exact Ht|apply steps_lift; exact Hr|].
  intros inst. apply steps_ret. exact Hr.
Qed.

Lemma update_protected self items kwargs :
  steps (Forall2 same_protected) (update self items kwargs).
Proof.
  unfold update.
  apply steps_bind; [exact same_protected_all_trans| |].
  - apply steps_lift. exact same_protected_all_refl.
  - intros records. apply steps_for_records;
      [exact same_protected_all_refl|exact same_protected_all_trans|].
    intros r _. apply update_one_protected.
Qed.

(** X4.  Whatever it is given, and whether it returns or raises, [update]
    leaves the table with the same rows in the same order, and in every
    row the columns id, created_at and deleted_at hold what they held
    before the call. *)
Theorem update_keeps_rows_and_protected_columns self items kwargs w :
  Forall2 same_protected (rows w) (rows (snd (update self items kwargs w))).
Proof. apply update_protected. Qed.

(** ** delete: stamping and removing *)

Lemma stamped_all_refl tbl : Forall2 stamped tbl tbl.
Proof.
  induction tbl as [|r tbl IH]; constructor; [left; reflexivity|exact IH].
Qed.

Lemma stamped_trans r1 r2 r3 : stamped r1 r2 -> stamped r2 r3 -> stamped r1 r3.
Proof.
  intros [->|[Hlive [t ->]]] H23; [exact H23|].
  destruct H23 as [->|[Hlive' _]].
  - right. split; [exact Hlive|]. exists t. reflexivity.
  - exfalso. unfold holds in Hlive'. rewrite dict_get_set_same in Hlive'.
    discriminate.
Qed.

Lemma stamped_all_trans a b c :
  Forall2 stamped a b -> Forall2 stamped b c -> Forall2 stamped a c.
Proof.
  intros Hab. revert c. induction Hab as [|x y a b Hxy Hab IH]; intros c Hbc.
  - inversion Hbc. constructor.
  - inversion Hbc as [|y' z b' c' Hyz Hbc']; subst. constructor.
    + exact (stamped_trans _ _ _ Hxy Hyz).
    + apply IH. exact Hbc'.
Qed.

Lemma bind_cond_app cs1 cs2 bs :
  result_map bind_cond (cs1 ++ cs2) = Ok bs ->
  exists b1 b2, result_map bind_cond cs1 = Ok b1 /\
                result_map bind_cond cs2 = Ok b2 /\ bs = b1 ++ b2.
Proof.
  revert bs. induction cs1 as [|c cs1 IH]; simpl; intros bs H.
  - exists [], bs. repeat split. exact H.
  - destruct (bind_cond c) as [b|e]; [|discriminate]. cbn [result_bind] in *.
    destruct (result_map bind_cond (cs1 ++ cs2)) as [bs'|e]; [|discriminate].
    destruct (IH bs' eq_refl) as [b1 [b2 [H1 [H2 ->]]]].
    rewrite H1. inversion H; subst. exists (b :: b1), b2. repeat split. exact H2.
Qed.

Lemma soft_delete_statement_stamps cols now conds tbl res tbl' :
  execute cols (UpdateSet [("deleted_at", PStr now)] (conds ++ [IsNull "deleted_at"]))
    tbl = Ok (res, tbl') ->
  Forall2 stamped tbl tbl'.
Proof.
  intros E. apply execute_update_shape in E.
  destruct E as [vals [cs [Hv [Hc ->]]]].
  simpl in Hv. inversion Hv; subst vals. clear Hv.
  apply bind_cond_app in Hc. destruct Hc as [b1 [b2 [_ [H2 ->]]]].
  simpl in H2. inversion H2; subst b2. clear H2.
  induction tbl as [|r tbl IH]; simpl; constructor; [|exact IH].
  destruct (where_ (b1 ++ [BIsNull "deleted_at"]) r) eqn:Ew.
  - right. unfold where_ in Ew. rewrite forallb_app in Ew.
    apply andb_true_iff in Ew. destruct Ew as [_ Ew]. simpl in Ew.
    rewrite andb_true_r in Ew. split; [exact Ew|].
    exists now. reflexivity.
  - left. reflexivity.
Qed.

Lemma soft_delete_stamps self items kwargs :
  _soft_delete self = true ->
  steps (Forall2 stamped) (delete self items false kwargs).
Proof.
  intros Hsoft.
  pose proof stamped_all_refl as Hr.
  pose proof stamped_all_trans as Ht.
  unfold delete. rewrite Hsoft. cbn [negb andb].
  apply steps_bind; [exact Ht|apply steps_lift; exact Hr|].
  intros records. destruct (negb (is_nil records)).
  - apply steps_for_records; [exact Hr|exact Ht|]. intros record _.
    unfold delete_one. rewrite Hsoft. cbn [negb andb].
    apply steps_bind; [exact Ht|apply steps_read; [exact Hr|exact Ht]|].
    intros found. destruct (is_nil found); [apply steps_ret; exact Hr|].
    apply steps_bind; [exact Ht|apply steps_lift; exact Hr|].
    intros row. apply steps_bind; [exact Ht| |intros _; apply steps_ret; exact Hr].
    apply steps_bind; [exact Ht|apply steps_now; exact Hr|].
    intros now. apply steps_sql; [exact Hr|].
    intros tbl res tbl' E. destruct (is_nil row); [discriminate|].
    exact (soft_delete_statement_stamps _ _ _ _ _ _ E).
  - apply steps_bind; [exact Ht|apply steps_read; [exact Hr|exact Ht]|].
    intros found. destruct (is_nil found); [apply steps_ret; exact Hr|].
    apply steps_bind; [exact Ht| |intros _; apply steps_ret; exact Hr].
    apply steps_bind; [exact Ht|apply steps_now; exact Hr|].
    intros now. apply steps_sql; [exact Hr|].
    intros tbl res tbl' E.
    exact (soft_delete_statement_stamps _ _ [] _ _ _ E).
Qed.

(** X5.  On a type with a deleted_at field, [delete] without [hard]
    removes no row and reorders none, whatever it is given and whether it
    returns or raises: each row is afterwards either exactly what it was,
    or it was live (deleted_at NULL) and differs only by a text written
    into deleted_at.  A row already soft-deleted keeps its stamp. *)
Theorem soft_delete_only_stamps_live_rows self items kwargs w :
  _soft_delete self = true ->
  Forall2 stamped (rows w) (rows (snd (delete self items false kwargs w))).
Proof. intros H. apply soft_delete_stamps. exact H. Qed.

Lemma kept_refl (tbl : list srow) : exists keep, tbl = filter keep tbl.
Proof.
  exists (fun _ => true). induction tbl as [|r tbl IH]; simpl; [reflexivity|].
  rewrite <- IH. reflexivity.
Qed.

Lemma kept_trans (a b c : list srow) :
  (exists keep, b = filter keep a) -> (exists keep, c = filter keep b) ->
  exists keep, c = filter keep a.
Proof.
  intros [p ->] [q ->]. exists (fun r => p r && q r). apply eq_sym, filter_and.
Qed.

Lemma hard_delete_removes self items hard kwargs :
  _soft_delete self && negb hard = false ->
  steps (fun tbl tbl' => exists keep, tbl' = filter keep tbl)
        (delete self items hard kwargs).
Proof.
  intros Hhard.
  pose proof kept_refl as Hr.
  pose proof kept_trans as Ht.
  unfold delete. rewrite Hhard.
  apply steps_bind; [exact Ht|apply steps_lift; exact Hr|].
  intros records. destruct (negb (is_nil records)).
  - apply steps_for_records; [exact Hr|exact Ht|]. intros record _.
    unfold delete_one. rewrite Hhard.
    apply steps_bind; [exact Ht|apply steps_read; [exact Hr|exact Ht]|].
    intros found. destruct (is_nil found); [apply steps_ret; exact Hr|].
    apply steps_bind; [exact Ht|apply steps_lift; exact Hr|].
    intros row. apply steps_bind; [exact Ht| |intros _; apply steps_ret; exact Hr].
    apply steps_sql; [exact Hr|].
    intros tbl res tbl' E. destruct (is_nil row); [discriminate|].
    apply execute_delete_shape in E. destruct E as [cs [_ ->]].
    eexists. reflexivity.
  - apply steps_bind; [exact Ht|apply steps_read; [exact Hr|exact Ht]|].
    intros found. destruct (is_nil found); [apply steps_ret; exact Hr|].
    apply steps_bind; [exact Ht| |intros _; apply steps_ret; exact Hr].
    apply steps_sql; [exact Hr|].
    intros tbl res tbl' E.
    apply execute_delete_shape in E. destruct E as [cs [_ ->]].
    eexists. reflexivity.
Qed.

(** X6.  With [hard=True], or on a type without a deleted_at field,
    [delete] changes no row it keeps: the table afterwards is the table
    before with some rows taken out, the others unchanged and in their
    order, whatever it is given and whether it returns or raises. *)
Theorem hard_delete_only_removes_rows self items hard kwargs w :
  hard = true \/ _soft_delete self = false ->
  exists keep,
    rows (snd (delete self items hard kwargs w)) = filter keep (rows w).
Proof.
  intros H. apply hard_delete_removes.
  destruct H as [->| ->]; [apply andb_false_r|reflexivity].
Qed.

Lemma soft_delete_only_stamps_live_rows_witness :
  _soft_delete (handle Component) = true /\
  Forall2 stamped three_components
    (rows (snd (delete (handle Component) [] false [("name", PStr "button")]
                  (world_of three_components)))).
Proof.
  split; [reflexivity|].
  exact (soft_delete_only_stamps_live_rows (handle Component) []
           [("name", PStr "button")] (world_of three_components) eq_refl).
Defined.

Lemma hard_delete_only_removes_rows_witness :
  (true = true \/ _soft_delete (handle Component) = false) /\
  exists keep,
    rows (snd (delete (handle Component) [] true [("name", PStr "button")]
                 (world_of three_components)))
    = filter keep three_components.
Proof.
  split; [left; reflexivity|].
  exact (hard_delete_only_removes_rows (handle Component) [] true
           [("name", PStr "button")] (world_of three_components)
           (or_introl eq_refl)).
Defined.

(** ** create: what it appends *)

Lemma dict_get_in_keys {V} k (d : list (string * V)) v :
  dict_get k d = Some v -> In k (dict_keys d).
Proof.
  induction d as [|[k' v'] d IH]; simpl; [discriminate|].
  destruct (String.eqb k k') eqn:Ek.
  - apply String.eqb_eq in Ek. intros _. left. symmetry. exact Ek.
  - intros H. right. apply IH. exact H.
Qed.

Lemma bind_unfold {A B} (m : M A) (k : A -> M B) w :
  bind m k w =
    match m w with
    | (Ok a, w') => k a w'
    | (Err e, w') => (Err e, w')
    end.
Proof. reflexivity. Qed.

Lemma _sql_unfold self s w :
  _sql self s w =
    match execute (columns self) s (rows w) with
    | Ok (res, tbl) => (Ok res, after s tbl w)
    | Err e => (Err e, after s (rows w) w)
    end.
Proof. reflexivity. Qed.

Lemma insert_then_select self row u :
  dict_get "id" row = Some (PStr u) ->
  effect (created_rows self 1)
    (_ <- _sql self (InsertInto row) ;;
     rows <- _sql self (SelectFrom [Eq_ "id" (PStr u)] None) ;;
     match rows with
     | r :: _ => inst <- lift (_from_row self r) ;; ret [inst]
     | [] => ret []
     end).
Proof.
  intros Hid w. rewrite bind_unfold, _sql_unfold.
  destruct (execute (columns self) (InsertInto row) (rows w)) as [[res tbl']|e] eqn:E.
  2:{ exists []. unfold after. cbn [fst snd rows]. rewrite List.app_nil_r.
      split; [reflexivity|]. split; [constructor|]. split; [simpl; lia|].
      discriminate. }
  apply execute_insert_shape in E.
  destruct E as [vals [Hknown [Hvals [Hclash [-> ->]]]]].
  set (new := stored_row (columns self) vals) in *.
  assert (Hcol : str_in "id" (columns self) = true).
  { unfold known_cols in Hknown. rewrite forallb_forall in Hknown.
    apply Hknown. exact (dict_get_in_keys _ _ _ Hid). }
  assert (Hnew : dict_get "id" new = Some (SText u)).
  { unfold new. rewrite (stored_row_get _ _ _ Hcol).
    destruct (bind_set_get _ _ _ _ Hvals Hid) as [sv [Hsv ->]].
    simpl in Hsv. inversion Hsv. reflexivity. }
  assert (Hnone : filter (where_ [BEq "id" (SText u)]) (rows w) = []).
  { clear - Hclash Hnew. induction (rows w) as [|r tbl IH]; [reflexivity|].
    simpl in Hclash. apply orb_false_iff in Hclash. destruct Hclash as [H1 H2].
    simpl. rewrite where_single. unfold ids_clash_with, ids_clash in H1.
    rewrite Hnew in H1. rewrite H1. apply IH. exact H2. }
  assert (Hone : filter (where_ [BEq "id" (SText u)]) [new] = [new]).
  { simpl. rewrite where_single. unfold holds. rewrite Hnew. simpl.
    rewrite String.eqb_refl. reflexivity. }
  rewrite bind_unfold.
  rewrite (_sql_select self [Eq_ "id" (PStr u)] [BEq "id" (SText u)] None);
    [| simpl; rewrite Hcol; reflexivity | reflexivity | reflexivity].
  cbn [paginate].
  change (rows (after (InsertInto row) (rows w ++ [new]) w)) with (rows w ++ [new]).
  rewrite filter_app, Hnone, Hone. cbn [app].
  exists [new]. rewrite bind_unfold. unfold lift, ret.
  destruct (_from_row self new) as [inst|e] eqn:Ef; unfold after; cbn [fst snd rows].
  - split; [reflexivity|]. split; [repeat constructor; apply stored_row_keys|].
    split; [simpl; lia|]. intros found H. inversion H; subst.
    split; [reflexivity|]. simpl. rewrite Ef. reflexivity.
  - split; [reflexivity|]. split; [repeat constructor; apply stored_row_keys|].
    split; [simpl; lia|]. discriminate.
Qed.

Lemma created_rows_err self n tbl e : created_rows self n tbl (Err e) tbl.
Proof.
  exists []. rewrite List.app_nil_r.
  split; [reflexivity|]. split; [constructor|]. split; [simpl; lia|].
  discriminate.
Qed.

Lemma create_one_effect self record :
  effect (created_rows self 1) (create_one self record).
Proof.
  unfold create_one.
  apply effect_bind_silent;
    [apply silent_lift|apply created_rows_err|]. intros row0 _.
  apply effect_bind_silent;
    [apply silent_uuid4|apply created_rows_err|]. intros u _.
  apply effect_bind_silent;
    [apply silent_timestamp|apply created_rows_err|]. intros row1 H1.
  apply returns_timestamp in H1.
  apply effect_bind_silent;
    [apply silent_timestamp|apply created_rows_err|]. intros row2 H2.
  apply returns_timestamp in H2.
  apply insert_then_select.
  assert (Hid1 : dict_get "id" row1 = Some (PStr u)).
  { destruct H1 as [->|[now ->]].
    - apply dict_get_set_same.
    - rewrite dict_get_set_other; [apply dict_get_set_same|discriminate]. }
  destruct H2 as [->|[now ->]]; [exact Hid1|].
  rewrite dict_get_set_other; [exact Hid1|discriminate].
Qed.

Lemma create_loop_effect self records :
  effect (created_rows self (List.length records))
    (for_records (create_one self) records).
Proof.
  induction records as [|record records IH]; intros w.
  - exists []. unfold ret. cbn [for_records fst snd List.length].
    rewrite List.app_nil_r.
    split; [reflexivity|]. split; [constructor|]. split; [lia|].
    intros found H. inversion H. split; reflexivity.
  - cbn [for_records]. rewrite bind_unfold.
    pose proof (create_one_effect self record w) as [a1 [Hr1 [Hk1 [Hl1 Hok1]]]].
    destruct (create_one self record w) as [[found|e] w1]; cbn [fst snd] in *.
    2:{ exists a1. split; [exact Hr1|]. split; [exact Hk1|].
        split; [simpl; lia|]. discriminate. }
    destruct (Hok1 found eq_refl) as [Hone Hf1].
    rewrite bind_unfold.
    pose proof (IH w1) as [a2 [Hr2 [Hk2 [Hl2 Hok2]]]].
    destruct (for_records (create_one self) records w1) as [[more|e] w2];
      unfold ret; cbn [fst snd] in *.
    + destruct (Hok2 more eq_refl) as [Hn Hf2].
      exists (a1 ++ a2). rewrite Hr2, Hr1, <- List.app_assoc, length_app.
      split; [reflexivity|]. split; [apply Forall_app; split; assumption|].
      split; [simpl; lia|]. intros found' H. inversion H; subst.
      split; [simpl; lia|]. apply result_map_app; assumption.
    + exists (a1 ++ a2). rewrite Hr2, Hr1, <- List.app_assoc, length_app.
      split; [reflexivity|]. split; [apply Forall_app; split; assumption|].
      split; [simpl; lia|]. discriminate.
Qed.

(** X3.  [create] only appends.  Whether it returns or raises, the table
    afterwards is the table before followed by the rows it stored: at most
    one per record (one per positional argument, one more when keywords are
    given), each with exactly the columns of the type.  When it returns,
    it has stored exactly one row per record, and what it returns is those
    rows decoded, in order. *)
Theorem create_only_appends self items kwargs w :
  created_rows self
    (List.length items + (if is_nil kwargs then 0 else 1))
    (rows w)
    (fst (create self items kwargs w))
    (rows (snd (create self items kwargs w))).
Proof.
  unfold create. rewrite bind_unfold. unfold lift.
  destruct (create_records self items kwargs) as [records|e] eqn:E.
  2:{ apply created_rows_err. }
  assert (Hlen : List.length records
                 = (List.length items + (if is_nil kwargs then 0 else 1))%nat).
  { unfold create_records in E.
    destruct (result_map (create_record self) items) as [rs|e] eqn:Er;
      [|discriminate].
    assert (Hrs : List.length rs = List.length items).
    { clear E. revert rs Er. induction items as [|i items IH]; simpl; intros rs Er.
      - inversion Er. reflexivity.
      - destruct (create_record self i) as [r|e]; [|discriminate].
        destruct (result_map (create_record self) items) as [rs'|e];
          [|discriminate].
        inversion Er. simpl. rewrite (IH rs' eq_refl). reflexivity. }
    simpl in E. inversion E. destruct kwargs; simpl; lia. }
  rewrite <- Hlen. apply create_loop_effect.
Qed.

(** ** The primary key *)

Lemma ids_unique_refl tbl : ids_unique tbl tbl.
Proof. intros H. exact H. Qed.

Lemma ids_unique_trans a b c : ids_unique a b -> ids_unique b c -> ids_unique a c.
Proof. intros Hab Hbc H. apply Hbc, Hab, H. Qed.

Lemma pk_unique_insert tbl new :
  pk_unique tbl = true ->
  existsb (ids_clash_with new) tbl = false ->
  pk_unique (tbl ++ [new]) = true.
Proof.
  induction tbl as [|r tbl IH]; intros Hpk Hclash; [reflexivity|].
  simpl in *. apply andb_true_iff in Hpk. destruct Hpk as [Hr Hpk].
  apply orb_false_iff in Hclash. destruct Hclash as [Hc Hclash].
  rewrite existsb_app. simpl. unfold ids_clash_with in Hc. rewrite Hc.
  apply negb_true_iff in Hr. rewrite Hr. simpl.
  apply IH; assumption.
Qed.

Lemma ids_clash_same_id r1 r1' r2 r2' :
  same_id r1 r1' -> same_id r2 r2' -> ids_clash r1' r2' = ids_clash r1 r2.
Proof.
  unfold same_id, ids_clash, holds. intros -> ->. reflexivity.
Qed.

Lemma pk_unique_same_ids tbl tbl' :
  Forall2 same_id tbl tbl' -> pk_unique tbl' = pk_unique tbl.
Proof.
  induction 1 as [|r r' tbl tbl' Hr Hall IH]; [reflexivity|].
  simpl. rewrite IH. f_equal. f_equal.
  clear IH. induction Hall as [|x x' l l' Hx Hl IHl]; [reflexivity|].
  simpl. rewrite IHl, (ids_clash_same_id _ _ _ _ Hr Hx). reflexivity.
Qed.

Lemma pk_unique_filter (keep : srow -> bool) tbl :
  pk_unique tbl = true -> pk_unique (filter keep tbl) = true.
Proof.
  induction tbl as [|r tbl IH]; intros Hpk; [reflexivity|].
  simpl in Hpk. apply andb_true_iff in Hpk. destruct Hpk as [Hr Hpk].
  simpl. destruct (keep r); [|apply IH; exact Hpk].
  simpl. rewrite (IH Hpk), andb_true_r.
  apply negb_true_iff in Hr. apply negb_true_iff.
  clear - Hr. induction tbl as [|x tbl IH]; [reflexivity|].
  simpl in *. apply orb_false_iff in Hr. destruct Hr as [Hx Hr].
  destruct (keep x); [|apply IH; exact Hr].
  simpl. rewrite Hx. apply IH. exact Hr.
Qed.

Lemma same_protected_same_id r r' : same_protected r r' -> same_id r r'.
Proof. intros H. apply H. left. reflexivity. Qed.

Lemma stamped_same_id r r' : stamped r r' -> same_id r r'.
Proof.
  intros [->|[_ [t ->]]]; [reflexivity|].
  unfold same_id. apply dict_get_set_other. discriminate.
Qed.

Lemma create_ids_unique self items kwargs :
  steps ids_unique (create self items kwargs).
Proof.
  pose proof ids_unique_refl as Hr.
  pose proof ids_unique_trans as Ht.
  unfold create. apply steps_bind; [exact Ht|apply steps_lift; exact Hr|].
  intros records. apply steps_for_records; [exact Hr|exact Ht|].
  intros record _. unfold create_one.
  apply steps_bind; [exact Ht|apply steps_lift; exact Hr|]. intros row0.
  apply steps_bind; [exact Ht|apply steps_uuid4; exact Hr|]. intros u.
  apply steps_bind; [exact Ht| |].
  { intros w. rewrite silent_timestamp. apply Hr. }
  intros row1. apply steps_bind; [exact Ht| |].
  { intros w. rewrite silent_timestamp. apply Hr. }
  intros row2. apply steps_bind; [exact Ht| |].
  { apply steps_sql; [exact Hr|]. intros tbl res tbl' E.
    apply execute_insert_shape in E.
    destruct E as [vals [_ [_ [Hclash [_ ->]]]]].
    intros Hpk. apply pk_unique_insert; assumption. }
  intros _. apply steps_bind; [exact Ht| |].
  { apply steps_sql_read_only; [exact Hr|reflexivity]. }
  intros rs. destruct rs as [|r rs]; [apply steps_ret; exact Hr|].
  apply steps_bind; [exact Ht|apply steps_lift; exact Hr|].
  intros inst. apply steps_ret. exact Hr.
Qed.

(** X7.  The three writing operations keep the ids of the table unique:
    if no two stored rows carry the same id before [create], [update] or
    [delete] is called, none do afterwards, whatever the arguments and
    whether the call returns or raises. *)
Theorem writes_keep_ids_unique self items hard kwargs w :
  pk_unique (rows w) = true ->
  pk_unique (rows (snd (create self items kwargs w))) = true /\
  pk_unique (rows (snd (update self items kwargs w))) = true /\
  pk_unique (rows (snd (delete self items hard kwargs w))) = true.
Proof.
  intros Hpk. split; [|split].
  - exact (create_ids_unique self items kwargs w Hpk).
  - rewrite (pk_unique_same_ids (rows w)); [exact Hpk|].
    eapply Forall2_impl; [|apply update_protected].
    exact same_protected_same_id.
  - destruct (_soft_delete self && negb hard) eqn:E.
    + apply andb_true_iff in E. destruct E as [Hsoft Hhard].
      apply negb_true_iff in Hhard. subst hard.
      rewrite (pk_unique_same_ids (rows w)); [exact Hpk|].
      eapply Forall2_impl; [|apply soft_delete_stamps; exact Hsoft].
      exact stamped_same_id.
    + destruct (hard_delete_removes self items hard kwargs E w) as [keep ->].
      apply pk_unique_filter. exact Hpk.
Qed.

Lemma writes_keep_ids_unique_witness :
  pk_unique three_components = true /\
  pk_unique (rows (snd (create (handle Component) []
                          [("id", PStr "a"); ("name", PStr "tab")]
                          (world_of three_components)))) = true /\
  pk_unique (rows (snd (update (handle Component) []
                          [("id", PStr "a"); ("name", PStr "tab")]
                          (world_of three_components)))) = true /\
  pk_unique (rows (snd (delete (handle Component) [] true
                          [("id", PStr "a"); ("name", PStr "tab")]
                          (world_of three_components)))) = true.
Proof.
  split; [reflexivity|].
  exact (writes_keep_ids_unique (handle Component) [] true
           [("id", PStr "a"); ("name", PStr "tab")]
           (world_of three_components) eq_refl).
Defined.

(** ** Reading back: what a returned [read] or [count] went through *)

Lemma conditions_inv self include_deleted kwargs conds :
  conditions self include_deleted kwargs = Ok conds ->
  exists row,
    _to_row self kwargs = Ok row /\
    conds = eq_conds row ++ live_cond self include_deleted.
Proof.
  unfold conditions, live_cond. destruct kwargs as [|kv kwargs].
  - cbn [result_bind]. intros H. inversion H. exists []. split; [reflexivity|].
    destruct (_soft_delete self && negb include_deleted); reflexivity.
  - destruct (_to_row self (kv :: kwargs)) as [row|e]; [|discriminate].
    cbn [result_bind]. intros H. inversion H. exists row. split; [reflexivity|].
    unfold eq_conds.
    destruct (_soft_delete self && negb include_deleted);
      [reflexivity|rewrite List.app_nil_r; reflexivity].
Qed.

Lemma conditions_of_row self include_deleted kwargs row :
  _to_row self kwargs = Ok row ->
  conditions self include_deleted kwargs
  = Ok (eq_conds row ++ live_cond self include_deleted).
Proof.
  intros Hrow. unfold conditions, live_cond. destruct kwargs as [|kv kwargs].
  - inversion Hrow. cbn [result_bind eq_conds map app].
    destruct (_soft_delete self && negb include_deleted); reflexivity.
  - rewrite Hrow. cbn [result_bind]. unfold eq_conds.
    destruct (_soft_delete self && negb include_deleted);
      [reflexivity|rewrite List.app_nil_r; reflexivity].
Qed.

Lemma execute_select_shape cols conds page tbl res tbl' :
  execute cols (SelectFrom conds page) tbl = Ok (res, tbl') ->
  exists cs,
    known_cols cols (map cond_col conds) = true /\
    result_map bind_cond conds = Ok cs /\
    res = paginate page (filter (where_ cs) tbl) /\ tbl' = tbl.
Proof.
  unfold execute.
  destruct (known_cols cols (map cond_col conds)); [|discriminate]. cbn [negb].
  destruct (result_map bind_cond conds) as [cs|e]; [|discriminate].
  cbn [result_bind]. destruct (limit_accepted page); [|discriminate].
  intros H. inversion H. exists cs. repeat split.
Qed.

Lemma execute_select_accepted cols conds page tbl res tbl' :
  execute cols (SelectFrom conds page) tbl = Ok (res, tbl') ->
  limit_accepted page = true.
Proof.
  unfold execute.
  destruct (known_cols cols (map cond_col conds)); [|discriminate]. cbn [negb].
  destruct (result_map bind_cond conds) as [cs|e]; [|discriminate].
  cbn [result_bind]. destruct (limit_accepted page); [reflexivity|discriminate].
Qed.

Lemma execute_count_shape cols conds tbl res tbl' :
  execute cols (SelectCount conds) tbl = Ok (res, tbl') ->
  exists cs,
    known_cols cols (map cond_col conds) = true /\
    result_map bind_cond conds = Ok cs /\
    res = [[("COUNT(*)", SInteger (Z.of_nat (List.length (filter (where_ cs) tbl))))]] /\
    tbl' = tbl.
Proof.
  unfold execute.
  destruct (known_cols cols (map cond_col conds)); [|discriminate]. cbn [negb].
  destruct (result_map bind_cond conds) as [cs|e]; [|discriminate].
  cbn [result_bind]. intros H. inversion H. exists cs. repeat split.
Qed.

Lemma read_eq self include_deleted page n kwargs conds cs w :
  conditions self include_deleted kwargs = Ok conds ->
  known_cols (columns self) (map cond_col conds) = true ->
  result_map bind_cond conds = Ok cs ->
  limit_accepted (limit_of page n) = true ->
  read self include_deleted page n kwargs w =
    (result_map (_from_row self)
       (paginate (limit_of page n) (filter (where_ cs) (rows w))),
     after (SelectFrom conds (limit_of page n)) (rows w) w).
Proof.
  intros Hc Hk Hb Hl. unfold read. rewrite bind_unfold. unfold lift at 1.
  rewrite Hc. rewrite bind_unfold.
  change (match page with
          | Some p => Some (n, ((Z.max 1 p - 1) * n)%Z)
          | None => None
          end) with (limit_of page n).
  rewrite (_sql_select self conds cs (limit_of page n) w Hk Hb Hl). reflexivity.
Qed.

(** A [read] that returns had its LIMIT and OFFSET accepted. *)
Lemma read_accepted self include_deleted page n kwargs w found :
  fst (read self include_deleted page n kwargs w) = Ok found ->
  limit_accepted (limit_of page n) = true.
Proof.
  unfold read. rewrite bind_unfold. unfold lift at 1.
  destruct (conditions self include_deleted kwargs) as [conds|e] eqn:Ec;
    [|discriminate].
  rewrite bind_unfold, _sql_unfold.
  change (match page with
          | Some p => Some (n, ((Z.max 1 p - 1) * n)%Z)
          | None => None
          end) with (limit_of page n).
  destruct (execute (columns self) (SelectFrom conds (limit_of page n)) (rows w))
    as [[res tbl']|e] eqn:E; [|discriminate].
  intros _. exact (execute_select_accepted _ _ _ _ _ _ E).
Qed.

Lemma read_inv self include_deleted page n kwargs w found :
  fst (read self include_deleted page n kwargs w) = Ok found ->
  exists conds cs,
    conditions self include_deleted kwargs = Ok conds /\
    known_cols (columns self) (map cond_col conds) = true /\
    result_map bind_cond conds = Ok cs /\
    result_map (_from_row self)
      (paginate (limit_of page n) (filter (where_ cs) (rows w))) = Ok found.
Proof.
  unfold read. rewrite bind_unfold. unfold lift at 1.
  destruct (conditions self include_deleted kwargs) as [conds|e] eqn:Ec;
    [|discriminate].
  rewrite bind_unfold, _sql_unfold.
  change (match page with
          | Some p => Some (n, ((Z.max 1 p - 1) * n)%Z)
          | None => None
          end) with (limit_of page n).
  destruct (execute (columns self) (SelectFrom conds (limit_of page n)) (rows w))
    as [[res tbl']|e] eqn:E; [|discriminate].
  apply execute_select_shape in E. destruct E as [cs [Hk [Hb [-> ->]]]].
  unfold lift. cbn [fst]. intros H. exists conds, cs. repeat split; assumption.
Qed.

Lemma count_inv self include_deleted n kwargs w c :
  fst (count self include_deleted n kwargs w) = Ok c ->
  exists conds cs,
    conditions self include_deleted kwargs = Ok conds /\
    known_cols (columns self) (map cond_col conds) = true /\
    result_map bind_cond conds = Ok cs /\
    total c = Z.of_nat (List.length (filter (where_ cs) (rows w))) /\
    per_page c = n /\
    pages c = (if (0 <? total c)%Z then (total c + n - 1) / n else 0)%Z.
Proof.
  unfold count. rewrite bind_unfold. unfold lift at 1.
  destruct (conditions self include_deleted kwargs) as [conds|e] eqn:Ec;
    [|discriminate].
  rewrite bind_unfold, _sql_unfold.
  destruct (execute (columns self) (SelectCount conds) (rows w))
    as [[res tbl']|e] eqn:E; [|discriminate].
  apply execute_count_shape in E. destruct E as [cs [Hk [Hb [-> ->]]]].
  rewrite bind_unfold. unfold lift, first_cell.
  set (t := Z.of_nat (List.length (filter (where_ cs) (rows w)))).
  destruct ((0 <? t)%Z && (n =? 0)%Z); [discriminate|].
  unfold ret. cbn [fst]. intros H. inversion H. cbn [total per_page pages].
  exists conds, cs. repeat split; assumption.
Qed.

Lemma result_map_length {A B} (f : A -> result B) xs ys :
  result_map f xs = Ok ys -> List.length ys = List.length xs.
Proof.
  revert ys. induction xs as [|x xs IH]; simpl; intros ys H.
  - inversion H. reflexivity.
  - destruct (f x) as [y|e]; [|discriminate].
    destruct (result_map f xs) as [ys'|e]; [|discriminate].
    inversion H. simpl. rewrite (IH ys' eq_refl). reflexivity.
Qed.

(** X8.  [count] and [read] agree: with the same filters and the same
    [include_deleted], on the same table, the total that [count] returns is
    the number of instances an unpaginated [read] returns. *)
Theorem count_total_is_length_of_read self include_deleted n m kwargs w c found :
  fst (count self include_deleted n kwargs w) = Ok c ->
  fst (read self include_deleted None m kwargs w) = Ok found ->
  total c = Z.of_nat (List.length found).
Proof.
  intros Hc Hr.
  apply count_inv in Hc. destruct Hc as [conds [cs [Hc [_ [Hb [Ht _]]]]]].
  apply read_inv in Hr. destruct Hr as [conds' [cs' [Hc' [_ [Hb' Hf]]]]].
  rewrite Hc in Hc'. inversion Hc'; subst conds'.
  rewrite Hb in Hb'. inversion Hb'; subst cs'.
  cbn [limit_of paginate] in Hf. apply result_map_length in Hf.
  rewrite Ht, Hf. reflexivity.
Qed.

Lemma count_total_is_length_of_read_witness :
  exists c found,
    fst (count (handle Component) false 2 [("name", PStr "button")]
           (world_of three_components)) = Ok c /\
    fst (read (handle Component) false None 10 [("name", PStr "button")]
           (world_of three_components)) = Ok found /\
    total c = Z.of_nat (List.length found).
Proof.
  eexists. eexists.
  assert (Hc : fst (count (handle Component) false 2 [("name", PStr "button")]
                      (world_of three_components))
               = Ok {| total := 1; pages := 1; per_page := 2 |})
    by (vm_compute; reflexivity).
  assert (Hr : fst (read (handle Component) false None 10 [("name", PStr "button")]
                      (world_of three_components))
               = Ok [button_instance "a" "2024-01-01" "2024-01-01"])
    by (vm_compute; reflexivity).
  split; [exact Hc|]. split; [exact Hr|].
  exact (count_total_is_length_of_read _ _ _ _ _ _ _ _ Hc Hr).
Defined.

Lemma length_zero_nil {A} (l : list A) : l = [] <-> List.length l = 0%nat.
Proof. destruct l; simpl; split; intros H; try reflexivity; discriminate. Qed.

(** X9.  The page count of [count] is the number of the last page [read]
    fills: for [per_page > 0] and a page number [p >= 1], with the same
    filters on the same table, page [p] of [read] is empty exactly when
    [p] is beyond the pages that [count] reports. *)
Theorem pages_is_the_last_filled_page self include_deleted n p kwargs w c found :
  (0 < n)%Z -> (1 <= p)%Z ->
  fst (count self include_deleted n kwargs w) = Ok c ->
  fst (read self include_deleted (Some p) n kwargs w) = Ok found ->
  (found = [] <-> (pages c < p)%Z).
Proof.
  intros Hn Hp Hc Hr.
  apply count_inv in Hc. destruct Hc as [conds [cs [Hc [_ [Hb [Ht [_ Hpages]]]]]]].
  apply read_inv in Hr. destruct Hr as [conds' [cs' [Hc' [_ [Hb' Hf]]]]].
  rewrite Hc in Hc'. inversion Hc'; subst conds'.
  rewrite Hb in Hb'. inversion Hb'; subst cs'.
  apply result_map_length in Hf. cbn [limit_of paginate] in Hf.
  assert (Hneg : (n <? 0)%Z = false) by (apply Z.ltb_ge; lia).
  rewrite Hneg, length_firstn, length_skipn, Z.max_r in Hf by lia.
  set (L := List.length (filter (where_ cs) (rows w))) in *.
  assert (Hk : (0 <= (p - 1) * n)%Z) by nia.
  remember ((p - 1) * n)%Z as k eqn:Ek.
  rewrite length_zero_nil, Hf, Hpages.
  destruct (0 <? total c)%Z eqn:Epos.
  - apply Z.ltb_lt in Epos.
    pose proof (ceiling_division (total c) n Epos Hn) as Hceil.
    set (q := ((total c + n - 1) / n)%Z) in *.
    split; intros H.
    + assert (Hle : (total c <= k)%Z) by lia.
      assert (Hlt : ((q - 1) * n < (p - 1) * n)%Z) by lia.
      apply Z.mul_lt_mono_pos_r in Hlt; lia.
    + assert (Hle : (q * n <= (p - 1) * n)%Z)
        by (apply Z.mul_le_mono_nonneg_r; lia).
      lia.
  - apply Z.ltb_ge in Epos. split; intros _; lia.
Qed.

Lemma pages_is_the_last_filled_page_witness :
  exists c found,
    (0 < 10)%Z /\ (1 <= 3)%Z /\
    fst (count (handle Component) false 10 [] (world_of twenty_five)) = Ok c /\
    fst (read (handle Component) false (Some 3%Z) 10 [] (world_of twenty_five))
      = Ok found /\
    (found = [] <-> (pages c < 3)%Z).
Proof.
  assert (Hc : fst (count (handle Component) false 10 [] (world_of twenty_five))
               = Ok {| total := 25; pages := 3; per_page := 10 |})
    by (vm_compute; reflexivity).
  assert (Hr : fst (read (handle Component) false (Some 3%Z) 10 []
                      (world_of twenty_five))
               = Ok (instances_of
                       (fst (read (handle Component) false (Some 3%Z) 10 []
                               (world_of twenty_five)))))
    by (vm_compute; reflexivity).
  eexists. eexists.
  split; [lia|]. split; [lia|]. split; [exact Hc|]. split; [exact Hr|].
  exact (pages_is_the_last_filled_page (handle Component) false 10 3 []
           (world_of twenty_five) _ _ ltac:(lia) ltac:(lia) Hc Hr).
Defined.

(** ** delete, then read *)

Lemma bind_live_cond self include_deleted :
  result_map bind_cond (live_cond self include_deleted)
  = Ok (live_bcond self include_deleted).
Proof.
  unfold live_cond, live_bcond.
  destruct (_soft_delete self && negb include_deleted); reflexivity.
Qed.

Lemma where_app cs1 cs2 r : where_ (cs1 ++ cs2) r = where_ cs1 r && where_ cs2 r.
Proof. unfold where_. apply forallb_app. Qed.

Lemma filter_none {A} (p : A -> bool) (l : list A) :
  filter p l = [] <-> (forall x, In x l -> p x = false).
Proof.
  induction l as [|x l IH]; simpl.
  - split; [intros _ y []|reflexivity].
  - destruct (p x) eqn:E.
    + split; [discriminate|]. intros H. rewrite (H x) in E; [discriminate|].
      left. reflexivity.
    + rewrite IH. split.
      * intros H y [<-|Hy]; [exact E|apply H; exact Hy].
      * intros H y Hy. apply H. right. exact Hy.
Qed.

Lemma paginate_nil {A} page : @paginate A page [] = [].
Proof.
  destruct page as [[limit offset]|]; [|reflexivity].
  unfold paginate. rewrite skipn_nil.
  destruct (limit <? 0)%Z; [reflexivity|apply firstn_nil].
Qed.

Lemma _to_row_nil self kwargs row :
  _to_row self kwargs = Ok row -> kwargs <> [] -> is_nil row = false.
Proof.
  intros H Hne. apply _to_row_keys in H. destruct H as [Hk _].
  destruct row; [|reflexivity]. destruct kwargs; [contradiction|discriminate].
Qed.

Lemma delete_one_inv self hard record w found :
  record <> [] ->
  fst (delete_one self hard record w) = Ok found ->
  exists row cs,
    _to_row self record = Ok row /\
    known_cols (columns self) (dict_keys row) = true /\
    result_map bind_cond (eq_conds row) = Ok cs /\
    forall r, In r (rows (snd (delete_one self hard record w))) ->
              where_ (cs ++ live_bcond self hard) r = false.
Proof.
  intros Hne. unfold delete_one. rewrite bind_unfold.
  destruct (read self hard None 10 record w) as [[seen|e] w1] eqn:Er;
    [|discriminate].
  assert (Hseen : fst (read self hard None 10 record w) = Ok seen)
    by (rewrite Er; reflexivity).
  apply read_inv in Hseen.
  destruct Hseen as [conds [cs_all [Hc [Hk [Hb Hf]]]]].
  assert (Hw1 : rows w1 = rows w).
  { rewrite (read_eq _ _ None _ _ _ _ _ Hc Hk Hb eq_refl) in Er. inversion Er. reflexivity. }
  apply conditions_inv in Hc. destruct Hc as [row [Hrow ->]].
  rewrite map_app, known_cols_app, eq_conds_cols in Hk.
  apply andb_true_iff in Hk. destruct Hk as [Hk Hklive].
  apply bind_cond_app in Hb. destruct Hb as [cs [bl [Hcs [Hbl ->]]]].
  rewrite bind_live_cond in Hbl. inversion Hbl; subst bl. clear Hbl.
  cbn [limit_of paginate] in Hf.
  destruct (is_nil seen) eqn:Enil.
  - unfold ret. cbn [fst snd]. intros _. exists row, cs.
    repeat split; try assumption.
    rewrite Hw1. apply filter_none.
    destruct seen; [|discriminate]. apply result_map_length in Hf.
    symmetry in Hf. apply length_zero_nil in Hf. exact Hf.
  - rewrite bind_unfold. unfold lift. rewrite Hrow. cbv beta iota.
    rewrite (_to_row_nil _ _ _ Hrow Hne).
    rewrite bind_unfold.
    unfold live_bcond, live_cond in *.
    destruct (_soft_delete self && negb hard) eqn:Esoft.
    + rewrite bind_unfold. unfold _now. cbv beta iota.
      rewrite _sql_unfold. cbn [rows].
      match goal with
      | |- context [execute ?c ?s ?t] => destruct (execute c s t) as [[res tbl']|e] eqn:E
      end; [|discriminate].
      unfold ret, after. cbn [fst snd rows]. intros _. exists row, cs.
      repeat split; try assumption.
      apply execute_update_shape in E. destruct E as [vals [cs' [Hv [Hc' ->]]]].
      simpl in Hv. inversion Hv; subst vals. clear Hv.
      change (map (fun kv : string * pyval => Eq_ (fst kv) (snd kv)) row)
        with (eq_conds row) in Hc'.
      apply bind_cond_app in Hc'. destruct Hc' as [b1 [b2 [H1 [H2 ->]]]].
      rewrite Hcs in H1. inversion H1; subst b1.
      simpl in H2. inversion H2; subst b2. clear H1 H2.
      intros r' Hin. apply in_map_iff in Hin. destruct Hin as [r [<- Hin]].
      destruct (where_ (cs ++ [BIsNull "deleted_at"]) r) eqn:Ew; [|exact Ew].
      rewrite where_app, where_single. apply andb_false_iff. right.
      unfold assign. cbn [fold_left fst snd]. unfold holds.
      rewrite dict_get_set_same. reflexivity.
    + rewrite _sql_unfold.
      match goal with
      | |- context [execute ?c ?s ?t] => destruct (execute c s t) as [[res tbl']|e] eqn:E
      end; [|discriminate].
      unfold ret, after. cbn [fst snd rows]. intros _. exists row, cs.
      repeat split; try assumption.
      apply execute_delete_shape in E. destruct E as [cs' [Hc' ->]].
      change (map (fun kv : string * pyval => Eq_ (fst kv) (snd kv)) row)
        with (eq_conds row) in Hc'.
      rewrite Hcs in Hc'. inversion Hc'; subst cs'.
      intros r Hin. apply filter_In in Hin. destruct Hin as [_ Hin].
      apply negb_true_iff in Hin. rewrite List.app_nil_r. exact Hin.
Qed.

Lemma delete_by_keywords self hard kwargs w :
  kwargs <> [] ->
  snd (delete self [] hard kwargs w) = snd (delete_one self hard kwargs w) /\
  (forall found, fst (delete self [] hard kwargs w) = Ok found ->
                 fst (delete_one self hard kwargs w) = Ok found).
Proof.
  intros Hne. unfold delete. rewrite bind_unfold. unfold lift, delete_records.
  cbn [result_map result_bind]. destruct kwargs as [|kv kwargs]; [contradiction|].
  cbn [is_nil negb for_records]. rewrite bind_unfold.
  destruct (delete_one self hard (kv :: kwargs) w) as [[found|e] w1].
  - rewrite bind_unfold. unfold ret. cbn [fst snd]. split; [reflexivity|].
    intros found' H. rewrite List.app_nil_r in H. exact H.
  - cbn [fst snd]. split; [reflexivity|]. discriminate.
Qed.

Lemma read_after_delete cls hard include_deleted page n kwargs w found :
  kwargs <> [] ->
  _has_soft_delete cls && negb hard && include_deleted = false ->
  limit_accepted (limit_of page n) = true ->
  fst (delete (handle cls) [] hard kwargs w) = Ok found ->
  fst (read (handle cls) include_deleted page n kwargs
         (snd (delete (handle cls) [] hard kwargs w))) = Ok [].
Proof.
  intros Hne Hmode Hlim Hdel.
  destruct (delete_by_keywords (handle cls) hard kwargs w Hne) as [Hsnd Hfst].
  rewrite Hsnd. apply Hfst in Hdel.
  apply delete_one_inv in Hdel; [|exact Hne].
  destruct Hdel as [row [cs [Hrow [Hk [Hcs Hgone]]]]].
  set (w' := snd (delete_one (handle cls) hard kwargs w)) in *.
  rewrite (read_eq (handle cls) include_deleted page n kwargs
             (eq_conds row ++ live_cond (handle cls) include_deleted)
             (cs ++ live_bcond (handle cls) include_deleted) w').
  - cbn [fst].
    assert (Hnone : filter (where_ (cs ++ live_bcond (handle cls) include_deleted))
                      (rows w') = []).
    { apply filter_none. intros r Hin. specialize (Hgone r Hin).
      rewrite where_app in *. unfold live_bcond in *.
      cbn [_soft_delete handle] in *.
      destruct (_has_soft_delete cls), hard, include_deleted;
        cbn [andb negb] in *; try discriminate;
        try exact Hgone;
        try (apply andb_true_iff in Hgone; destruct Hgone; discriminate).
      all: apply andb_false_iff in Hgone; destruct Hgone as [Hgone|Hgone];
        try discriminate; rewrite Hgone; reflexivity. }
    rewrite Hnone, paginate_nil. reflexivity.
  - apply conditions_of_row. exact Hrow.
  - rewrite map_app, known_cols_app, eq_conds_cols, Hk. cbn [andb].
    unfold live_cond. cbn [_soft_delete handle].
    destruct (_has_soft_delete cls) eqn:Es; [|reflexivity].
    destruct (negb include_deleted); [|reflexivity].
    cbn [andb map cond_col known_cols forallb].
    rewrite (in_field_map_columns _ _ (soft_delete_column cls Es)). reflexivity.
  - apply result_map_app; [exact Hcs|apply bind_live_cond].
  - exact Hlim.
Qed.

(** X10.  What [delete] has deleted, [read] no longer finds.  After
    [delete] called with keyword filters, none of them named as a
    parameter of [read] (include_deleted, page, per_page: [delete] passes
    its keywords on to [read], which would take such a key as its own
    parameter), has returned (soft or hard), a [read] with the same filters
    returns the empty list, without a page or on any page whose LIMIT and
    OFFSET fit 64 bits.  This holds for the default [read]; with
    [include_deleted=True] it holds when the delete was a hard one or the
    type has no deleted_at field. *)
Theorem deleted_records_are_not_read cls hard include_deleted page n kwargs w found :
  kwargs <> [] ->
  Forall (fun key => ~ In key read_parameters) (dict_keys kwargs) ->
  _has_soft_delete cls && negb hard && include_deleted = false ->
  limit_accepted (limit_of page n) = true ->
  fst (delete (handle cls) [] hard kwargs w) = Ok found ->
  fst (read (handle cls) include_deleted page n kwargs
         (snd (delete (handle cls) [] hard kwargs w))) = Ok [].
Proof. intros Hne _. apply read_after_delete. exact Hne. Qed.

Lemma deleted_records_are_not_read_witness :
  [("name", PStr "button")] <> [] /\
  Forall (fun key => ~ In key read_parameters)
         (dict_keys [("name", PStr "button")]) /\
  _has_soft_delete Component && negb false && false = false /\
  limit_accepted (limit_of (Some 2%Z) 10) = true /\
  fst (delete (handle Component) [] false [("name", PStr "button")]
         (world_of three_components))
    = Ok [button_instance "a" "2024-01-01" "2024-01-01"] /\
  fst (read (handle Component) false (Some 2%Z) 10 [("name", PStr "button")]
         (snd (delete (handle Component) [] false [("name", PStr "button")]
                 (world_of three_components)))) = Ok [].
Proof.
  assert (Hne : [("name", PStr "button")] <> @nil (string * pyval)) by discriminate.
  assert (Hkeys : Forall (fun key => ~ In key read_parameters)
                         (dict_keys [("name", PStr "button")])) by plain_keys.
  assert (Hdel : fst (delete (handle Component) [] false [("name", PStr "button")]
                        (world_of three_components))
                 = Ok [button_instance "a" "2024-01-01" "2024-01-01"])
    by (vm_compute; reflexivity).
  split; [exact Hne|]. split; [exact Hkeys|]. split; [reflexivity|].
  split; [reflexivity|]. split; [exact Hdel|].
  exact (deleted_records_are_not_read Component false false (Some 2%Z) 10
           [("name", PStr "button")] (world_of three_components) _
           Hne Hkeys eq_refl eq_refl Hdel).
Defined.

(** ** update: which rows it can touch *)

Lemma untouched_all_refl v tbl : Forall2 (untouched v) tbl tbl.
Proof.
  induction tbl as [|r tbl IH]; constructor; [intros _; reflexivity|exact IH].
Qed.

Lemma untouched_all_trans v a b c :
  Forall2 (untouched v) a b -> Forall2 (untouched v) b c ->
  Forall2 (untouched v) a c.
Proof.
  intros Hab. revert c. induction Hab as [|x y a b Hxy Hab IH]; intros c Hbc.
  - inversion Hbc. constructor.
  - inversion Hbc as [|y' z b' c' Hyz Hbc']; subst. constructor.
    + intros Hx. pose proof (Hxy Hx) as ->. apply Hyz. exact Hx.
    + apply IH. exact Hbc'.
Qed.

Lemma update_statement_by_id cols sets item_id v tbl res tbl' :
  sqlite_bind item_id = Ok v ->
  execute cols (UpdateSet sets [Eq_ "id" item_id]) tbl = Ok (res, tbl') ->
  Forall2 (untouched v) tbl tbl'.
Proof.
  intros Hv E. apply execute_update_shape in E.
  destruct E as [vals [cs [_ [Hc ->]]]].
  cbn [result_map bind_cond] in Hc. rewrite Hv in Hc. cbn [result_bind] in Hc.
  inversion Hc; subst cs.
  induction tbl as [|r tbl IH]; simpl; constructor; [|exact IH].
  rewrite where_single. intros Hr. rewrite Hr. reflexivity.
Qed.

Lemma update_one_by_id self record item_id v :
  dict_get "id" record = Some item_id ->
  sqlite_bind item_id = Ok v ->
  steps (Forall2 (untouched v)) (update_one self record).
Proof.
  intros Hid Hv.
  pose proof (untouched_all_refl v) as Hr.
  pose proof (untouched_all_trans v) as Ht.
  unfold update_one. rewrite Hid.
  destruct (is_none item_id); [apply steps_raise; exact Hr|].
  match goal with |- context [if ?c then ret [] else _] => destruct c end;
    [apply steps_ret; exact Hr|].
  apply steps_bind; [exact Ht|apply steps_lift; exact Hr|]. intros row0.
  apply steps_bind; [exact Ht| |].
  { intros w. rewrite silent_timestamp. apply Hr. }
  intros row. destruct (is_nil row); [apply steps_ret; exact Hr|].
  apply steps_bind; [exact Ht| |].
  { apply steps_sql; [exact Hr|]. intros tbl res tbl' E.
    exact (update_statement_by_id _ _ _ _ _ _ _ Hv E). }
  intros _. apply steps_bind; [exact Ht| |].
  { apply steps_sql_read_only; [exact Hr|reflexivity]. }
  intros rs. destruct rs as [|r rs]; [apply steps_ret; exact Hr|].
  apply steps_bind; [exact Ht|apply steps_lift; exact Hr|].
  intros inst. apply steps_ret. exact Hr.
Qed.

Lemma untouched_all_absent v tbl tbl' :
  Forall2 (untouched v) tbl tbl' ->
  (forall r, In r tbl -> holds r (BEq "id" v) = false) -> tbl' = tbl.
Proof.
  induction 1 as [|r r' tbl tbl' Hr Hall IH]; intros Habs; [reflexivity|].
  rewrite (Hr (Habs r (or_introl eq_refl))). f_equal.
  apply IH. intros x Hx. apply Habs. right. exact Hx.
Qed.

Lemma update_then_select_absent self row item_id v w found :
  sqlite_bind item_id = Ok v ->
  (forall r, In r (rows w) -> holds r (BEq "id" v) = false) ->
  fst ((_ <- _sql self (UpdateSet row [Eq_ "id" item_id]) ;;
        rows <- _sql self (SelectFrom [Eq_ "id" item_id] None) ;;
        match rows with
        | r :: _ => inst <- lift (_from_row self r) ;; ret [inst]
        | [] => ret []
        end) w) = Ok found ->
  found = [].
Proof.
  intros Hv Habs. rewrite bind_unfold, _sql_unfold.
  destruct (execute (columns self) (UpdateSet row [Eq_ "id" item_id]) (rows w))
    as [[res tbl']|e] eqn:E; [|discriminate].
  pose proof (update_statement_by_id _ _ _ _ _ _ _ Hv E) as Hsame.
  apply untouched_all_absent in Hsame; [|exact Habs]. subst tbl'.
  rewrite bind_unfold, _sql_unfold.
  change (rows (after (UpdateSet row [Eq_ "id" item_id]) (rows w) w)) with (rows w).
  destruct (execute (columns self) (SelectFrom [Eq_ "id" item_id] None) (rows w))
    as [[res' tbl']|e] eqn:E'; [|discriminate].
  apply execute_select_shape in E'. destruct E' as [cs [_ [Hc [-> _]]]].
  cbn [result_map bind_cond] in Hc. rewrite Hv in Hc. cbn [result_bind] in Hc.
  inversion Hc; subst cs. cbn [paginate].
  assert (Hnone : filter (where_ [BEq "id" v]) (rows w) = []).
  { apply filter_none. intros r Hin. rewrite where_single. apply Habs. exact Hin. }
  rewrite Hnone. unfold ret. cbn [fst]. intros H. inversion H. reflexivity.
Qed.

Lemma update_one_absent self record item_id v w found :
  dict_get "id" record = Some item_id ->
  sqlite_bind item_id = Ok v ->
  (forall r, In r (rows w) -> holds r (BEq "id" v) = false) ->
  fst (update_one self record w) = Ok found -> found = [].
Proof.
  intros Hid Hv Habs. unfold update_one. rewrite Hid.
  destruct (is_none item_id); [discriminate|].
  match goal with |- context [if ?c then ret [] else _] => destruct c end.
  { unfold ret. cbn [fst]. intros H. inversion H. reflexivity. }
  rewrite bind_unfold. unfold lift.
  match goal with |- context [_to_row ?s ?k] => destruct (_to_row s k) as [row0|e] end;
    [|discriminate].
  cbv beta iota. rewrite bind_unfold.
  destruct (in_field_map self "updated_at").
  - rewrite bind_unfold. unfold _now, ret at 1. cbv beta iota.
    match goal with |- context [is_nil ?r] => destruct (is_nil r) end.
    { unfold ret. cbn [fst]. intros H. inversion H. reflexivity. }
    apply (update_then_select_absent self _ item_id v); [exact Hv|exact Habs].
  - unfold ret at 1. cbv beta iota.
    match goal with |- context [is_nil ?r] => destruct (is_nil r) end.
    { unfold ret. cbn [fst]. intros H. inversion H. reflexivity. }
    apply (update_then_select_absent self _ item_id v); [exact Hv|exact Habs].
Qed.

Lemma update_by_keywords self kwargs w item_id :
  dict_get "id" kwargs = Some item_id ->
  update self [] kwargs w
  = (found <- update_one self kwargs ;; more <- ret [] ;; ret (found ++ more)) w.
Proof.
  intros Hid. unfold update. rewrite bind_unfold. unfold lift, update_records.
  cbn [result_map result_bind]. destruct kwargs as [|kv kwargs]; [discriminate|].
  reflexivity.
Qed.

(** X11.  [update] called with keywords and a text id reaches rows
    through their id only: every row whose id is not the given one is
    afterwards exactly what it was.  In particular, when no stored row carries the given id
    the table is unchanged, and [update], if it returns, returns the empty
    list; it does not report the missing record. *)
Theorem update_touches_only_the_named_row self kwargs X w :
  dict_get "id" kwargs = Some (PStr X) ->
  Forall2 (untouched (SText X)) (rows w) (rows (snd (update self [] kwargs w))) /\
  ((forall r, In r (rows w) -> holds r (BEq "id" (SText X)) = false) ->
   rows (snd (update self [] kwargs w)) = rows w /\
   forall found, fst (update self [] kwargs w) = Ok found -> found = []).
Proof.
  intros Hid.
  set (item_id := PStr X) in *. set (v := SText X) in *.
  assert (Hv : sqlite_bind item_id = Ok v) by reflexivity.
  assert (Hall : Forall2 (untouched v) (rows w) (rows (snd (update self [] kwargs w)))).
  { rewrite (update_by_keywords self kwargs w item_id Hid).
    apply steps_bind; [apply untouched_all_trans| |].
    - apply (update_one_by_id self kwargs item_id v Hid Hv).
    - intros found. apply steps_bind; [apply untouched_all_trans| |].
      + apply steps_ret. apply untouched_all_refl.
      + intros more. apply steps_ret. apply untouched_all_refl. }
  split; [exact Hall|]. intros Habs.
  split; [exact (untouched_all_absent _ _ _ Hall Habs)|].
  rewrite (update_by_keywords self kwargs w item_id Hid).
  intros found. rewrite bind_unfold.
  destruct (update_one self kwargs w) as [[found1|e] w1] eqn:E; [|discriminate].
  assert (H1 : found1 = []).
  { apply (update_one_absent self kwargs item_id v w found1 Hid Hv Habs).
    rewrite E. reflexivity. }
  subst found1. rewrite bind_unfold. unfold ret. cbn [fst app].
  intros H. inversion H. reflexivity.
Qed.

Lemma update_touches_only_the_named_row_witness :
  let kwargs := [("id", PStr "z"); ("name", PStr "tab")] in
  let w := world_of three_components in
  dict_get "id" kwargs = Some (PStr "z") /\
  (forall r, In r (rows w) -> holds r (BEq "id" (SText "z")) = false) /\
  rows (snd (update (handle Component) [] kwargs w)) = rows w /\
  forall found, fst (update (handle Component) [] kwargs w) = Ok found ->
                found = [].
Proof.
  intros kwargs w.
  assert (Habs : forall r, In r (rows w) -> holds r (BEq "id" (SText "z")) = false).
  { intros r [<-|[<-|[<-|[]]]]; reflexivity. }
  split; [reflexivity|]. split; [exact Habs|].
  exact (proj2 (update_touches_only_the_named_row (handle Component) kwargs
                  "z" w eq_refl) Habs).
Defined.

(** ** The shape of the stored rows *)

Lemma dict_set_present_keys {V} k (v : V) d :
  In k (dict_keys d) -> dict_keys (dict_set k v d) = dict_keys d.
Proof.
  induction d as [|[k' v'] d IH]; simpl; [intros []|].
  destruct (String.eqb k k') eqn:E; [reflexivity|].
  intros [H|H].
  - subst k'. rewrite String.eqb_refl in E. discriminate.
  - simpl. rewrite (IH H). reflexivity.
Qed.

Lemma assign_keys vals r :
  (forall k, In k (dict_keys vals) -> In k (dict_keys r)) ->
  dict_keys (assign vals r) = dict_keys r.
Proof.
  unfold assign. revert r. induction vals as [|[k v] vals IH]; intros r H;
    [reflexivity|].
  cbn [fold_left fst snd].
  assert (Hk : dict_keys (dict_set k v r) = dict_keys r).
  { apply dict_set_present_keys. apply H. left. reflexivity. }
  rewrite IH; [exact Hk|].
  intros k' Hk'. rewrite Hk. apply H. right. exact Hk'.
Qed.

Lemma execute_keeps_shape self s tbl res tbl' :
  execute (columns self) s tbl = Ok (res, tbl') -> keeps_shape self tbl tbl'.
Proof.
  intros E Hshape. unfold in_shape in *. destruct s.
  - inversion E; subst. exact Hshape.
  - apply execute_insert_shape in E. destruct E as [vals [_ [_ [_ [_ ->]]]]].
    apply Forall_app. split; [exact Hshape|].
    constructor; [apply stored_row_keys|constructor].
  - rewrite (execute_read_only _ (SelectFrom conds page) _ _ _ eq_refl E).
    exact Hshape.
  - rewrite (execute_read_only _ (SelectCount conds) _ _ _ eq_refl E).
    exact Hshape.
  - assert (Hknown : known_cols (columns self) (dict_keys sets) = true).
    { unfold execute in E.
      destruct (known_cols (columns self) (dict_keys sets ++ map cond_col conds))
        eqn:Ek; [|discriminate].
      rewrite known_cols_app in Ek. apply andb_true_iff in Ek. apply Ek. }
    apply execute_update_shape in E. destruct E as [vals [cs [Hv [_ ->]]]].
    apply bind_set_keys in Hv.
    rewrite Forall_forall in *. intros r' Hin.
    apply in_map_iff in Hin. destruct Hin as [r [<- Hin]].
    destruct (where_ cs r); [|apply Hshape; exact Hin].
    rewrite assign_keys; [apply Hshape; exact Hin|].
    intros k Hk. rewrite (Hshape r Hin). apply str_in_In.
    unfold known_cols in Hknown. rewrite forallb_forall in Hknown.
    apply Hknown. rewrite <- Hv. exact Hk.
  - apply execute_delete_shape in E. destruct E as [cs [_ ->]].
    rewrite Forall_forall in *. intros r Hin. apply filter_In in Hin.
    apply Hshape. apply Hin.
  - discriminate.
Qed.

Lemma keeps_shape_refl self tbl : keeps_shape self tbl tbl.
Proof. intros H. exact H. Qed.

Lemma keeps_shape_trans self a b c :
  keeps_shape self a b -> keeps_shape self b c -> keeps_shape self a c.
Proof. intros Hab Hbc H. apply Hbc, Hab, H. Qed.

Lemma sql_keeps_shape self s : steps (keeps_shape self) (_sql self s).
Proof.
  apply steps_sql; [apply keeps_shape_refl|].
  intros tbl res tbl' E. exact (execute_keeps_shape self s tbl res tbl' E).
Qed.

Ltac shape_steps :=
  repeat first
    [ apply sql_keeps_shape
    | apply steps_ret; apply keeps_shape_refl
    | apply steps_raise; apply keeps_shape_refl
    | apply steps_lift; apply keeps_shape_refl
    | apply steps_now; apply keeps_shape_refl
    | apply steps_uuid4; apply keeps_shape_refl
    | apply steps_read; [apply keeps_shape_refl|apply keeps_shape_trans]
    | apply steps_bind; [apply keeps_shape_trans| |intro]
    | apply steps_for_records;
        [apply keeps_shape_refl|apply keeps_shape_trans|intros ? _]
    | match goal with
      | |- steps _ (if ?c then _ else _) => destruct c
      | |- steps _ (match ?x with [] => _ | _ :: _ => _ end) => destruct x
      | |- steps _ (match ?x with Some _ => _ | None => _ end) => destruct x
      end ].

Lemma create_keeps_shape self items kwargs :
  steps (keeps_shape self) (create self items kwargs).
Proof. unfold create, create_one. shape_steps. Qed.

Lemma update_keeps_shape self items kwargs :
  steps (keeps_shape self) (update self items kwargs).
Proof. unfold update, update_one. shape_steps. Qed.

Lemma delete_keeps_shape self items hard kwargs :
  steps (keeps_shape self) (delete self items hard kwargs).
Proof. unfold delete, delete_one. shape_steps. Qed.



(** ** Decoding a row *)

Lemma decode_field_plain row f :
  In (name f) (dict_keys row) ->
  is_json f = false ->
  exists kv, decode_field row f = Ok kv /\ decoded_as f kv.
Proof.
  intros Hin Hj. unfold decode_field.
  destruct (dict_get (name f) row) as [stored|] eqn:Eg.
  2:{ exfalso. clear - Hin Eg. induction row as [|[k v] row IH]; [exact Hin|].
      simpl in *. destruct (String.eqb (name f) k) eqn:E; [discriminate|].
      destruct Hin as [H|H]; [|exact (IH H Eg)].
      subst k. rewrite String.eqb_refl in E. discriminate. }
  rewrite Hj. destruct (is_none (py_of_sval stored)).
  - eexists. split; [reflexivity|]. split; [reflexivity|]. intros _. left.
    reflexivity.
  - destruct (is_bool f) eqn:Eb.
    + eexists. split; [reflexivity|]. split; [reflexivity|]. intros _. right.
      eexists. reflexivity.
    + eexists. split; [reflexivity|]. split; [reflexivity|].
      rewrite Eb. discriminate.
Qed.

(** X13.  [_from_row] cannot fail on a row in shape when the type has no
    JSON field and its instances are built by the constructor the
    dataclass generates over all its fields: from a row that has the
    columns of the type it builds an instance of the bound class with one
    value per field, in field order, and the value of a boolean field is
    None or a bool. *)
Theorem from_row_of_row_in_shape cls row :
  cls_new cls = generated_init (fields cls) ->
  dict_keys row = columns (handle cls) ->
  (forall f, In f (_fields (handle cls)) -> is_json f = false) ->
  exists inst,
    _from_row (handle cls) row = Ok inst /\
    inst_cls inst = cls_name cls /\
    Forall2 decoded_as (_fields (handle cls)) (inst_data inst).
Proof.
  intros Hnew Hkeys Hplain. rewrite (from_row_generated cls row Hnew).
  set (self := handle cls) in *.
  assert (H : exists data,
             result_map (decode_field row) (_fields self) = Ok data /\
             Forall2 decoded_as (_fields self) data).
  { assert (Hcols : forall f, In f (_fields self) -> In (name f) (dict_keys row)).
    { intros f Hf. rewrite Hkeys. unfold columns. apply in_map. exact Hf. }
    clear Hkeys. induction (_fields self) as [|f fs IH].
    - exists []. split; [reflexivity|constructor].
    - destruct (decode_field_plain row f) as [kv [Hkv Hd]].
      + apply Hcols. left. reflexivity.
      + apply Hplain. left. reflexivity.
      + destruct IH as [data [Hdata Hall]].
        * intros g Hg. apply Hplain. right. exact Hg.
        * intros g Hg. apply Hcols. right. exact Hg.
        * exists (kv :: data). simpl. rewrite Hkv, Hdata.
          split; [reflexivity|]. constructor; assumption. }
  destruct H as [data [Hdata Hall]]. rewrite Hdata. cbn [result_bind].
  eexists. split; [reflexivity|]. split; [reflexivity|]. exact Hall.
Qed.

Lemma from_row_of_row_in_shape_witness :
  let row := component_row "a" "2024-01-01" "button" SNull in
  cls_new Component = generated_init (fields Component) /\
  dict_keys row = columns (handle Component) /\
  (forall f, In f (_fields (handle Component)) -> is_json f = false) /\
  exists inst,
    _from_row (handle Component) row = Ok inst /\
    inst_cls inst = cls_name Component /\
    Forall2 decoded_as (_fields (handle Component)) (inst_data inst).
Proof.
  intros row.
  assert (Hplain : forall f, In f (_fields (handle Component)) -> is_json f = false).
  { intros f [<-|[<-|[<-|[<-|[<-|[]]]]]]; reflexivity. }
  split; [reflexivity|]. split; [reflexivity|]. split; [exact Hplain|].
  exact (from_row_of_row_in_shape Component row eq_refl eq_refl Hplain).
Defined.

(** ** delete: what it returns, and the call without arguments *)

Lemma delete_one_returns_read self hard record w found :
  fst (delete_one self hard record w) = Ok found ->
  fst (read self hard None 10 record w) = Ok found.
Proof.
  unfold delete_one. rewrite bind_unfold.
  destruct (read self hard None 10 record w) as [[seen|e] w1]; [|discriminate].
  destruct (is_nil seen) eqn:Enil.
  - destruct seen; [|discriminate]. intros H. exact H.
  - rewrite bind_unfold. unfold lift.
    destruct (_to_row self record) as [row|e]; [|discriminate].
    rewrite bind_unfold.
    match goal with
    | |- context [match ?m w1 with _ => _ end] => destruct (m w1) as [[u|e] w2]
    end; [|discriminate].
    intros H. exact H.
Qed.

(** X14.  What [delete] called with keywords, none of them named as a
    parameter of [read] (include_deleted, page, per_page), returns is what
    [read] with the same keywords found just before the deletion,
    soft-deleted records included exactly when the delete is a hard one:
    the returned instances show the records as they were stored, a
    soft-deleted one still with its deleted_at as None. *)
Theorem delete_returns_what_read_found self hard kwargs w found :
  Forall (fun key => ~ In key read_parameters) (dict_keys kwargs) ->
  fst (delete self [] hard kwargs w) = Ok found ->
  fst (read self hard None 10 kwargs w) = Ok found.
Proof.
  intros _. destruct kwargs as [|kv kwargs].
  - unfold delete. rewrite bind_unfold. unfold lift, delete_records.
    cbn [result_map result_bind is_nil negb]. rewrite bind_unfold.
    destruct (read self hard None 10 [] w) as [[seen|e] w1]; [|discriminate].
    destruct (is_nil seen) eqn:Enil.
    + destruct seen; [|discriminate]. intros H. exact H.
    + rewrite bind_unfold.
      match goal with
      | |- context [match ?m w1 with _ => _ end] => destruct (m w1) as [[u|e] w2]
      end; [|discriminate].
      intros H. exact H.
  - intros H. apply delete_one_returns_read.
    apply (proj2 (delete_by_keywords self hard (kv :: kwargs) w ltac:(discriminate))).
    exact H.
Qed.

Lemma delete_returns_what_read_found_witness :
  Forall (fun key => ~ In key read_parameters)
         (dict_keys [("name", PStr "button")]) /\
  fst (delete (handle Component) [] true [("name", PStr "button")]
         (world_of three_components))
    = Ok (instances_of
            (fst (read (handle Component) true None 10 [("name", PStr "button")]
                    (world_of three_components)))) /\
  List.length (instances_of
            (fst (read (handle Component) true None 10 [("name", PStr "button")]
                    (world_of three_components)))) = 2%nat /\
  fst (read (handle Component) true None 10 [("name", PStr "button")]
         (world_of three_components))
    = Ok (instances_of
            (fst (read (handle Component) true None 10 [("name", PStr "button")]
                    (world_of three_components)))).
Proof.
  assert (H : fst (delete (handle Component) [] true [("name", PStr "button")]
                     (world_of three_components))
              = Ok (instances_of
                      (fst (read (handle Component) true None 10
                              [("name", PStr "button")]
                              (world_of three_components)))))
    by (vm_compute; reflexivity).
  assert (Hkeys : Forall (fun key => ~ In key read_parameters)
                         (dict_keys [("name", PStr "button")])) by plain_keys.
  split; [exact Hkeys|]. split; [exact H|]. split; [vm_compute; reflexivity|].
  exact (delete_returns_what_read_found _ _ _ _ _ Hkeys H).
Defined.

Lemma where_nil r : where_ [] r = true.
Proof. reflexivity. Qed.

Lemma filter_all {A} (l : list A) : filter (fun _ => true) l = l.
Proof. induction l as [|x l IH]; simpl; [|rewrite IH]; reflexivity. Qed.

Lemma filter_nothing {A} (l : list A) : filter (fun _ => false) l = [].
Proof. induction l as [|x l IH]; simpl; [reflexivity|exact IH]. Qed.

(** X15.  [delete] without any argument clears the table as [read] sees
    it: once it has returned, the default [read] without filters returns
    the empty list, without a page or on any page whose LIMIT and OFFSET
    fit 64 bits; and when the delete is a hard one, or the type has no
    deleted_at field, no row at all is left. *)
Theorem delete_without_arguments_clears cls hard page n w found :
  limit_accepted (limit_of page n) = true ->
  fst (delete (handle cls) [] hard [] w) = Ok found ->
  fst (read (handle cls) false page n []
         (snd (delete (handle cls) [] hard [] w))) = Ok [] /\
  (_has_soft_delete cls && negb hard = false ->
   rows (snd (delete (handle cls) [] hard [] w)) = []).
Proof.
  intros Hlim. set (self := handle cls).
  assert (Hlive : known_cols (columns self) (map cond_col (live_cond self false))
                  = true).
  { unfold live_cond, self. cbn [_soft_delete handle].
    destruct (_has_soft_delete cls) eqn:Es; [|reflexivity].
    cbn [andb negb map cond_col known_cols forallb].
    rewrite (in_field_map_columns _ _ (soft_delete_column cls Es)). reflexivity. }
  assert (Hread : forall w',
            (forall r, In r (rows w') -> where_ (live_bcond self false) r = false) ->
            fst (read self false page n [] w') = Ok []).
  { intros w' Hgone.
    rewrite (read_eq self false page n [] (live_cond self false)
               (live_bcond self false) w');
      [|exact (conditions_of_row self false [] [] eq_refl)
       |exact Hlive|apply bind_live_cond|exact Hlim].
    cbn [fst]. apply filter_none in Hgone. rewrite Hgone, paginate_nil.
    reflexivity. }
  unfold delete. rewrite bind_unfold. unfold lift, delete_records.
  cbn [result_map result_bind is_nil negb]. rewrite bind_unfold.
  destruct (read self hard None 10 [] w) as [[seen|e] w1] eqn:Er; [|discriminate].
  assert (Hseen : fst (read self hard None 10 [] w) = Ok seen)
    by (rewrite Er; reflexivity).
  apply read_inv in Hseen. destruct Hseen as [conds [cs_all [Hc [Hk [Hb Hf]]]]].
  assert (Hw1 : rows w1 = rows w).
  { rewrite (read_eq _ _ None _ _ _ _ _ Hc Hk Hb eq_refl) in Er. inversion Er. reflexivity. }
  apply conditions_inv in Hc. destruct Hc as [row [Hrow ->]].
  inversion Hrow; subst row. cbn [eq_conds map app] in *.
  rewrite bind_live_cond in Hb. inversion Hb; subst cs_all. clear Hb.
  cbn [limit_of paginate] in Hf.
  unfold live_bcond, live_cond in *. fold self in Hf.
  change (_soft_delete self) with (_has_soft_delete cls) in *.
  destruct (is_nil seen) eqn:Enil.
  - unfold ret. cbn [fst snd]. intros _.
    destruct seen; [|discriminate]. apply result_map_length in Hf.
    symmetry in Hf. apply length_zero_nil in Hf. rewrite <- Hw1 in Hf.
    destruct (_has_soft_delete cls && negb hard) eqn:Esoft.
    + split; [|discriminate]. apply Hread.
      apply andb_true_iff in Esoft. destruct Esoft as [Es _]. rewrite Es.
      cbn [andb negb]. apply filter_none. exact Hf.
    + assert (Hempty : rows w1 = []).
      { rewrite <- Hf. symmetry. apply filter_all. }
      split; [|intros _; exact Hempty].
      apply Hread. rewrite Hempty. intros r [].
  - rewrite bind_unfold.
    destruct (_has_soft_delete cls && negb hard) eqn:Esoft.
    + rewrite bind_unfold. unfold _now. cbv beta iota.
      rewrite _sql_unfold. cbn [rows].
      match goal with
      | |- context [execute ?c ?s ?t] => destruct (execute c s t) as [[res tbl']|e] eqn:E
      end; [|discriminate].
      unfold ret, after. cbn [fst snd rows]. intros _.
      split; [|discriminate]. apply Hread. cbn [rows].
      apply andb_true_iff in Esoft. destruct Esoft as [Es _]. rewrite Es.
      cbn [andb negb].
      apply execute_update_shape in E. destruct E as [vals [cs' [Hv [Hc' ->]]]].
      simpl in Hv. inversion Hv; subst vals. clear Hv.
      simpl in Hc'. inversion Hc'; subst cs'. clear Hc'.
      intros r' Hin. apply in_map_iff in Hin. destruct Hin as [r [<- Hin]].
      destruct (where_ [BIsNull "deleted_at"] r) eqn:Ew; [|exact Ew].
      rewrite where_single. unfold assign. cbn [fold_left fst snd]. unfold holds.
      rewrite dict_get_set_same. reflexivity.
    + rewrite _sql_unfold.
      match goal with
      | |- context [execute ?c ?s ?t] => destruct (execute c s t) as [[res tbl']|e] eqn:E
      end; [|discriminate].
      unfold ret, after. cbn [fst snd rows]. intros _.
      apply execute_delete_shape in E. destruct E as [cs' [Hc' ->]].
      simpl in Hc'. inversion Hc'; subst cs'. clear Hc'.
      assert (Hempty : filter (fun r => negb (where_ [] r)) (rows w1) = [])
        by apply filter_nothing.
      rewrite Hempty. split; [|reflexivity].
      apply Hread. intros r [].
Qed.

Lemma delete_without_arguments_clears_witness :
  let w := world_of three_components in
  limit_accepted (limit_of (Some 3%Z) 10) = true /\
  fst (delete (handle Component) [] true [] w)
    = Ok (instances_of (fst (read (handle Component) true None 10 [] w))) /\
  fst (read (handle Component) false (Some 3%Z) 10 []
         (snd (delete (handle Component) [] true [] w))) = Ok [] /\
  (_has_soft_delete Component && negb true = false ->
   rows (snd (delete (handle Component) [] true [] w)) = []).
Proof.
  intros w.
  assert (H : fst (delete (handle Component) [] true [] w)
              = Ok (instances_of (fst (read (handle Component) true None 10 [] w))))
    by (vm_compute; reflexivity).
  split; [reflexivity|]. split; [exact H|].
  exact (delete_without_arguments_clears Component true (Some 3%Z) 10 w _
           eq_refl H).
Defined.

(** C10: [create()] and [update()] with no argument at all return the
    empty list and leave the world, journal included, as it was.
    [delete()] with no argument works on the whole table: it always sends
    the table-wide SELECT (no equality condition), and what it sends after
    it, if anything, is the table-wide UPDATE or DELETE.  When that SELECT
    finds nothing, nothing else is sent, the rows stay as they are and the
    empty list is returned; when it finds records, they are returned, and
    every live row is stamped with the time of the call (soft delete) or
    every row of the table is removed (hard delete, or a type without
    deleted_at); when it raises, [delete] raises the same and the rows
    stay as they are. *)
Theorem create_update_without_arguments :
  forall self w,
    create self [] [] w = (Ok [], w) /\
    update self [] [] w = (Ok [], w) /\
    forall hard,
      let soft := _soft_delete self && negb hard in
      let live := if soft then [IsNull "deleted_at"] else [] in
      let now := clock w (ticks w) in
      let sweep := if soft
                   then UpdateSet [("deleted_at", PStr now)] [IsNull "deleted_at"]
                   else DeleteFrom [] in
      (exists more,
         journal (snd (delete self [] hard [] w)) =
           journal w ++ SelectFrom live None :: more /\
         (more = [] \/ more = [sweep])) /\
      (forall e,
         fst (read self hard None 10 [] w) = Err e ->
         fst (delete self [] hard [] w) = Err e /\
         rows (snd (delete self [] hard [] w)) = rows w) /\
      (fst (read self hard None 10 [] w) = Ok [] ->
       fst (delete self [] hard [] w) = Ok [] /\
       rows (snd (delete self [] hard [] w)) = rows w /\
       journal (snd (delete self [] hard [] w)) =
         journal w ++ [SelectFrom live None]) /\
      (forall found,
         fst (read self hard None 10 [] w) = Ok found -> found <> [] ->
         fst (delete self [] hard [] w) = Ok found /\
         journal (snd (delete self [] hard [] w)) =
           journal w ++ [SelectFrom live None; sweep] /\
         rows (snd (delete self [] hard [] w)) =
           if soft
           then map (fun r => if holds r (BIsNull "deleted_at")
                              then dict_set "deleted_at" (SText now) r else r)
                    (rows w)
           else []).
Proof.
  intros self w. split; [reflexivity|]. split; [reflexivity|].
  intros hard soft live now sweep.
  assert (Hcond : conditions self hard [] = Ok live) by reflexivity.
  assert (Hread : read self hard None 10 [] w =
                  (fst (read self hard None 10 [] w),
                   after (SelectFrom live None) (rows w) w)).
  { assert (Hsnd : snd (read self hard None 10 [] w) =
                    after (SelectFrom live None) (rows w) w).
    { unfold read. rewrite bind_unfold. unfold lift at 1. rewrite Hcond.
      rewrite bind_unfold, _sql_unfold.
      destruct (execute (columns self) (SelectFrom live None) (rows w))
        as [[res tbl]|e] eqn:E; [|reflexivity].
      apply execute_select_shape in E. destruct E as [cs [_ [_ [_ ->]]]].
      unfold lift. reflexivity. }
    rewrite <- Hsnd. apply surjective_pairing. }
  assert (Hknown : forall found,
            fst (read self hard None 10 [] w) = Ok found ->
            known_cols (columns self) (map cond_col live) = true).
  { intros found H. apply read_inv in H.
    destruct H as [conds [cs [Hc [Hk _]]]].
    rewrite Hcond in Hc. inversion Hc; subst conds. exact Hk. }
  assert (Hdelete : delete self [] hard [] w =
            match fst (read self hard None 10 [] w) with
            | Err e => (Err e, after (SelectFrom live None) (rows w) w)
            | Ok [] => (Ok [], after (SelectFrom live None) (rows w) w)
            | Ok found =>
                (Ok found,
                 {| rows := if soft
                            then map (fun r => if holds r (BIsNull "deleted_at")
                                               then dict_set "deleted_at"
                                                      (SText now) r
                                               else r) (rows w)
                            else [];
                    journal := journal w ++ [SelectFrom live None; sweep];
                    clock := clock w;
                    ticks := if soft then S (ticks w) else ticks w;
                    uuid_source := uuid_source w; draws := draws w |})
            end).
  { unfold delete. rewrite bind_unfold. unfold lift at 1, delete_records.
    cbn [result_map result_bind is_nil negb]. rewrite bind_unfold, Hread.
    destruct (fst (read self hard None 10 [] w)) as [[|x found]|e] eqn:Er;
      [reflexivity| |reflexivity].
    cbn [is_nil fst snd]. rewrite bind_unfold.
    pose proof (Hknown _ eq_refl) as Hk. unfold sweep, live in *. fold soft.
    destruct soft.
    - rewrite bind_unfold. unfold _now. cbv beta iota.
      rewrite _sql_unfold. unfold execute.
      cbn [dict_keys map fst cond_col app rows after] in *.
      unfold known_cols in *. cbn [forallb] in *.
      apply andb_true_iff in Hk. destruct Hk as [Hk _]. rewrite Hk.
      cbn [andb negb result_map bind_set bind_cond sqlite_bind result_bind
           fst snd].
      unfold ret, after.
      cbn [rows journal clock ticks uuid_source draws fst snd].
      rewrite <- app_assoc. cbn [app]. fold now.
      rewrite (map_ext _ (fun r => if holds r (BIsNull "deleted_at")
                                   then dict_set "deleted_at" (SText now) r
                                   else r)); [reflexivity|].
      intros r. rewrite where_single. reflexivity.
    - rewrite _sql_unfold. unfold execute.
      cbn [map cond_col known_cols forallb negb result_map result_bind
           rows after].
      rewrite (filter_ext (fun r => negb (where_ [] r)) (fun _ => false))
        by reflexivity.
      rewrite filter_nothing. unfold ret, after.
      cbn [rows journal clock ticks uuid_source draws fst snd].
      rewrite <- app_assoc. reflexivity. }
  rewrite Hdelete. split; [|split; [|split]].
  - destruct (fst (read self hard None 10 [] w)) as [[|x found]|e];
      cbn [snd journal after].
    + exists []. split; [reflexivity|left; reflexivity].
    + exists [sweep]. split; [reflexivity|right; reflexivity].
    + exists []. split; [reflexivity|left; reflexivity].
  - intros e He. rewrite He. split; reflexivity.
  - intros He. rewrite He. repeat split.
  - intros found He Hne. rewrite He.
    destruct found as [|x found]; [contradiction|].
    split; [reflexivity|]. split; reflexivity.
Qed.

Lemma create_update_without_arguments_witness :
  let w := world_of three_components in
  let found := [button_instance "a" "2024-01-01" "2024-01-01";
                {| inst_cls := "Component";
                   inst_data := [("id", PStr "b"); ("created_at", PStr "2024-01-02");
                                 ("updated_at", PStr "2024-01-02");
                                 ("deleted_at", PNone); ("name", PStr "card")] |}] in
  fst (read (handle Component) false None 10 [] w) = Ok found /\
  found <> [] /\
  fst (delete (handle Component) [] false [] w) = Ok found /\
  journal (snd (delete (handle Component) [] false [] w)) =
    [SelectFrom [IsNull "deleted_at"] None;
     UpdateSet [("deleted_at", PStr "t0")] [IsNull "deleted_at"]] /\
  rows (snd (delete (handle Component) [] false [] w)) =
    [component_row "a" "2024-01-01" "button" (SText "t0");
     component_row "b" "2024-01-02" "card" (SText "t0");
     component_row "c" "2024-01-03" "button" (SText "2024-02-01")].
Proof.
  intros w found.
  assert (Hr : fst (read (handle Component) false None 10 [] w) = Ok found)
    by (vm_compute; reflexivity).
  assert (Hne : found <> []) by discriminate.
  split; [exact Hr|]. split; [exact Hne|].
  exact (proj2 (proj2 (proj2 (proj2 (proj2
           (create_update_without_arguments (handle Component) w)) false)))
           found Hr Hne).
Defined.

(** ** update: what it writes *)

Lemma assign_get vals r k sv :
  NoDup (dict_keys vals) -> In (k, sv) vals ->
  dict_get k (assign vals r) = Some sv.
Proof.
  revert r. induction vals as [|[k0 v0] vals IH]; intros r Hnd Hin; [destruct Hin|].
  inversion Hnd as [|x xs Hnotin Hnd']; subst.
  change (assign ((k0, v0) :: vals) r) with (assign vals (dict_set k0 v0 r)).
  destruct Hin as [Heq|Hin].
  - inversion Heq; subst. rewrite assign_other; [|exact Hnotin].
    apply dict_get_set_same.
  - apply IH; assumption.
Qed.

Lemma result_map_In {A B} (f : A -> result B) xs ys x :
  result_map f xs = Ok ys -> In x xs -> exists y, f x = Ok y /\ In y ys.
Proof.
  revert ys. induction xs as [|a xs IH]; simpl; intros ys H Hin; [destruct Hin|].
  destruct (f a) as [b|e] eqn:Ea; [|discriminate].
  destruct (result_map f xs) as [ys'|e]; [|discriminate].
  inversion H; subst. destruct Hin as [->|Hin].
  - exists b. split; [exact Ea|left; reflexivity].
  - destruct (IH ys' eq_refl Hin) as [y [Hy Hiny]].
    exists y. split; [exact Hy|right; exact Hiny].
Qed.

Lemma dict_set_keeps {V} k0 (v0 : V) d k v :
  k <> k0 -> In (k, v) d -> In (k, v) (dict_set k0 v0 d).
Proof.
  intros Hne. induction d as [|[k' v'] d IH]; simpl; [intros []|].
  destruct (String.eqb k0 k') eqn:E.
  - apply String.eqb_eq in E. subst k'. intros [H|H].
    + inversion H. subst. contradiction.
    + right. exact H.
  - intros [H|H]; [left; exact H|right; apply IH; exact H].
Qed.

Lemma dict_set_In {V} k (v : V) d : In (k, v) (dict_set k v d).
Proof.
  induction d as [|[k' v'] d IH]; simpl; [left; reflexivity|].
  destruct (String.eqb k k') eqn:E.
  - apply String.eqb_eq in E. subst k'. left. reflexivity.
  - right. exact IH.
Qed.

Lemma dict_set_absent_keys {V} k (v : V) d :
  ~ In k (dict_keys d) -> dict_keys (dict_set k v d) = dict_keys d ++ [k].
Proof.
  induction d as [|[k' v'] d IH]; simpl; intros H; [reflexivity|].
  destruct (String.eqb k k') eqn:E.
  - apply String.eqb_eq in E. subst. exfalso. apply H. left. reflexivity.
  - simpl. rewrite IH; [reflexivity|]. intros Hin. apply H. right. exact Hin.
Qed.

Lemma dict_set_not_nil {V} k (v : V) d : is_nil (dict_set k v d) = false.
Proof.
  destruct d as [|[k' v'] d]; simpl; [reflexivity|].
  destruct (String.eqb k k'); reflexivity.
Qed.

Lemma NoDup_keys_filter {V} (p : string * V -> bool) d :
  NoDup (dict_keys d) -> NoDup (dict_keys (filter p d)).
Proof.
  induction d as [|[k v] d IH]; simpl; intros H; [constructor|].
  inversion H as [|x xs Hnotin Hnd]; subst.
  destruct (p (k, v)); [|apply IH; exact Hnd].
  simpl. constructor; [|apply IH; exact Hnd].
  intros Hin. apply Hnotin. apply keys_filter_inv in Hin.
  destruct Hin as [v' [Hin _]]. unfold dict_keys. apply in_map_iff.
  exists (k, v'). split; [reflexivity|exact Hin].
Qed.

Lemma Forall2_map_same {A} (P : A -> A -> Prop) (g : A -> A) l :
  (forall x, In x l -> P x (g x)) -> Forall2 P l (map g l).
Proof.
  induction l as [|x l IH]; intros H; simpl; constructor.
  - apply H. left. reflexivity.
  - apply IH. intros y Hy. apply H. right. exact Hy.
Qed.

Lemma Forall2_same {A} (P : A -> A -> Prop) l :
  (forall x, In x l -> P x x) -> Forall2 P l l.
Proof.
  intros H. rewrite <- (map_id l) at 2. apply Forall2_map_same. exact H.
Qed.

Lemma update_then_select_rows self row item_id v w0 found w1 :
  sqlite_bind item_id = Ok v ->
  (_ <- _sql self (UpdateSet row [Eq_ "id" item_id]) ;;
   rows <- _sql self (SelectFrom [Eq_ "id" item_id] None) ;;
   match rows with
   | r :: _ => inst <- lift (_from_row self r) ;; ret [inst]
   | [] => ret []
   end) w0 = (Ok found, w1) ->
  exists vals,
    result_map bind_set row = Ok vals /\
    rows w1 = map (fun r => if holds r (BEq "id" v) then assign vals r else r)
                  (rows w0).
Proof.
  intros Hv. rewrite bind_unfold, _sql_unfold.
  destruct (execute (columns self) (UpdateSet row [Eq_ "id" item_id]) (rows w0))
    as [[res tbl']|e] eqn:E; [|discriminate].
  apply execute_update_shape in E. destruct E as [vals [cs [Hvals [Hc ->]]]].
  cbn [result_map bind_cond] in Hc. rewrite Hv in Hc. cbn [result_bind] in Hc.
  inversion Hc; subst cs. clear Hc.
  rewrite bind_unfold.
  match goal with
  | |- context [_sql self ?s ?w] =>
      pose proof (_sql_read_only_rows self s w eq_refl) as Hsame;
      destruct (_sql self s w) as [[rs|e] w2]
  end; [|discriminate].
  cbn [snd] in Hsame. unfold after in Hsame. cbn [rows] in Hsame.
  intros H. exists vals. split; [exact Hvals|].
  assert (Hw : rows w1 = rows w2).
  { destruct rs as [|r rs].
    - unfold ret in H. inversion H. reflexivity.
    - rewrite bind_unfold in H. unfold lift, ret in H.
      destruct (_from_row self r); inversion H. reflexivity. }
  rewrite Hw, Hsame. apply map_ext. intros r. rewrite where_single. reflexivity.
Qed.

Lemma update_one_sets self record item_id v w found w1 :
  NoDup (dict_keys record) ->
  dict_get "id" record = Some item_id ->
  sqlite_bind item_id = Ok v ->
  update_one self record w = (Ok found, w1) ->
  Forall2 (fun r r' => holds r (BEq "id" v) = true ->
                       updated_row self record (clock w (ticks w)) r')
          (rows w) (rows w1).
Proof.
  intros Hnd Hid Hv. unfold update_one. rewrite Hid.
  destruct (is_none item_id); [discriminate|].
  set (data := filter (fun kv : string * pyval =>
                         negb (str_in (fst kv) ["id"; "created_at"; "deleted_at"]))
                      record).
  set (data' := filter (fun kv : string * pyval =>
                          negb (String.eqb (fst kv) "updated_at")) data).
  assert (Hdata' : forall k p, In (k, p) record -> ~ In k AUTO_FIELDS ->
                               In (k, p) data').
  { intros k p Hin Hauto. unfold data', data.
    apply filter_In. split; [apply filter_In; split; [exact Hin|]|].
    - cbn [fst]. apply negb_true_iff.
      destruct (str_in k ["id"; "created_at"; "deleted_at"]) eqn:Es;
        [|reflexivity].
      exfalso. apply Hauto. apply str_in_In in Es. simpl in Es. simpl.
      destruct Es as [H|[H|[H|[]]]]; auto.
    - cbn [fst]. apply negb_true_iff. apply String.eqb_neq. intros ->.
      apply Hauto. simpl. auto. }
  assert (Hnd' : NoDup (dict_keys data')).
  { unfold data', data. apply NoDup_keys_filter, NoDup_keys_filter. exact Hnd. }
  assert (Hnoupd : ~ In "updated_at" (dict_keys data')).
  { intros Hin. apply keys_filter_inv in Hin. destruct Hin as [p [_ Hp]].
    cbn [fst] in Hp. rewrite String.eqb_refl in Hp. discriminate. }
  assert (Hfields : forall row0 row vals r,
            _to_row self data' = Ok row0 ->
            (forall k p, In (k, p) row0 -> In (k, p) row) ->
            NoDup (dict_keys row) ->
            result_map bind_set row = Ok vals ->
            forall k p, In (k, p) record -> ~ In k AUTO_FIELDS ->
              exists p' sv,
                encode_field self (k, p) = Ok (k, p') /\
                sqlite_bind p' = Ok sv /\
                (kept_as_bound self k sv = true ->
                 dict_get k (assign vals r) = Some sv)).
  { intros row0 row vals r Hrow0 Hsub Hndrow Hvals k p Hin Hauto.
    destruct (result_map_In _ _ _ _ Hrow0 (Hdata' k p Hin Hauto)) as [[k' p'] [He Hin0]].
    assert (k' = k).
    { unfold encode_field in He. cbn [fst snd] in He.
      destruct (_field_map self k); [|discriminate].
      destruct (is_none p); [inversion He; reflexivity|].
      destruct (is_json _f); [|inversion He; reflexivity].
      destruct (json_dumps p); [|discriminate]. inversion He; reflexivity. }
    subst k'.
    destruct (result_map_In _ _ _ _ Hvals (Hsub k p' Hin0)) as [[k'' sv] [Hb Hinv]].
    unfold bind_set in Hb. cbn [fst snd] in Hb.
    destruct (sqlite_bind p') as [sv'|e] eqn:Ebind; [|discriminate].
    cbn [result_bind] in Hb.
    assert (Hkv : k'' = k /\ sv' = sv) by (inversion Hb; split; reflexivity).
    destruct Hkv as [-> ->].
    exists p', sv. split; [exact He|]. split; [exact Ebind|]. intros _.
    apply assign_get; [|exact Hinv].
    rewrite (bind_set_keys _ _ Hvals). exact Hndrow. }
  match goal with |- context [if ?c then ret [] else _] => destruct c eqn:Eskip end.
  { unfold ret. intros H. inversion H; subst. apply Forall2_same. intros r _ _.
    apply andb_true_iff in Eskip. destruct Eskip as [Enil Eupd].
    apply negb_true_iff in Eupd. split; [|rewrite Eupd; discriminate].
    intros k p Hin Hauto. exfalso.
    assert (Hd : In (k, p) data).
    { pose proof (Hdata' k p Hin Hauto) as Hd. apply filter_In in Hd. apply Hd. }
    destruct data; [destruct Hd|discriminate]. }
  rewrite bind_unfold. unfold lift.
  destruct (_to_row self data') as [row0|e] eqn:Erow0; [|discriminate].
  cbv beta iota. rewrite bind_unfold.
  pose proof (proj1 (_to_row_keys _ _ _ Erow0)) as Hkeys.
  destruct (in_field_map self "updated_at") eqn:Eupd.
  - rewrite bind_unfold. unfold _now, ret at 1. cbv beta iota.
    rewrite dict_set_not_nil. intros H.
    apply (update_then_select_rows _ _ _ _ _ _ _ Hv) in H.
    destruct H as [vals [Hvals ->]]. cbn [rows].
    apply Forall2_map_same. intros r _ Hr. rewrite Hr. split.
    + apply (Hfields row0 (dict_set "updated_at" (PStr (clock w (ticks w))) row0)
               vals r eq_refl); [| |exact Hvals].
      * intros k p Hin. apply dict_set_keeps; [|exact Hin].
        intros ->. apply Hnoupd. rewrite <- Hkeys.
        unfold dict_keys. apply in_map_iff. exists ("updated_at", p).
        split; [reflexivity|exact Hin].
      * rewrite dict_set_absent_keys; [|rewrite Hkeys; exact Hnoupd].
        rewrite Hkeys. apply NoDup_app; [exact Hnd'|repeat constructor; intros []|].
        intros x Hx [<-|[]]. exact (Hnoupd Hx).
    + intros _. apply assign_get.
      * rewrite (bind_set_keys _ _ Hvals).
        rewrite dict_set_absent_keys; [|rewrite Hkeys; exact Hnoupd].
        rewrite Hkeys. apply NoDup_app; [exact Hnd'|repeat constructor; intros []|].
        intros x Hx [<-|[]]. exact (Hnoupd Hx).
      * assert (Hin : In ("updated_at", PStr (clock w (ticks w)))
                         (dict_set "updated_at" (PStr (clock w (ticks w))) row0)).
        { apply dict_set_In. }
        destruct (result_map_In _ _ _ _ Hvals Hin) as [[k' sv] [Hb Hinv]].
        unfold bind_set in Hb. cbn [fst snd sqlite_bind result_bind] in Hb.
        assert (Hkv : k' = "updated_at" /\ sv = SText (clock w (ticks w)))
          by (inversion Hb; split; reflexivity).
        destruct Hkv as [-> ->]. exact Hinv.
  - unfold ret at 1. cbv beta iota.
    destruct (is_nil row0) eqn:Enil.
    + unfold ret. intros H. inversion H; subst. apply Forall2_same. intros r _ _.
      split; [|rewrite Eupd; discriminate].
      intros k p Hin Hauto. exfalso.
      pose proof (Hdata' k p Hin Hauto) as Hd.
      destruct row0; [|discriminate]. destruct data'; [destruct Hd|discriminate].
    + intros H. apply (update_then_select_rows _ _ _ _ _ _ _ Hv) in H.
      destruct H as [vals [Hvals ->]].
      apply Forall2_map_same. intros r _ Hr. rewrite Hr.
      split; [|rewrite Eupd; discriminate].
      apply (Hfields row0 row0 vals r eq_refl); [auto| |exact Hvals].
      rewrite Hkeys. exact Hnd'.
Qed.

(** X16.  What [update] called with keywords and a text id writes.
    When it returns, every row that carried the given id, soft-deleted or
    not, holds afterwards, under each keyword that is not an automatic
    field, the encoded value given for it (for a value of the storage
    class the column is declared with, which the column keeps as bound),
    and under updated_at, when the type has that field, the reading of the
    clock taken by this call; a value given for updated_at is not used. *)
Theorem update_writes_the_given_fields self kwargs X w found :
  NoDup (dict_keys kwargs) ->
  dict_get "id" kwargs = Some (PStr X) ->
  fst (update self [] kwargs w) = Ok found ->
  Forall2 (fun r r' => holds r (BEq "id" (SText X)) = true ->
                       updated_row self kwargs (clock w (ticks w)) r')
          (rows w) (rows (snd (update self [] kwargs w))).
Proof.
  intros Hnd Hid.
  set (item_id := PStr X) in *. set (v := SText X) in *.
  assert (Hv : sqlite_bind item_id = Ok v) by reflexivity.
  rewrite (update_by_keywords self kwargs w item_id Hid).
  rewrite bind_unfold.
  destruct (update_one self kwargs w) as [[found1|e] w1] eqn:E; [|discriminate].
  intros _. rewrite bind_unfold. unfold ret. cbn [snd].
  exact (update_one_sets self kwargs item_id v w found1 w1 Hnd Hid Hv E).
Qed.

Lemma update_writes_the_given_fields_witness :
  let kwargs := [("id", PStr "c"); ("name", PStr "tab"); ("updated_at", PStr "x")] in
  let w := world_of three_components in
  NoDup (dict_keys kwargs) /\
  dict_get "id" kwargs = Some (PStr "c") /\
  List.length (instances_of (fst (update (handle Component) [] kwargs w))) = 1%nat /\
  Forall2 (fun r r' => holds r (BEq "id" (SText "c")) = true ->
                       updated_row (handle Component) kwargs (clock w (ticks w)) r')
          (rows w) (rows (snd (update (handle Component) [] kwargs w))).
Proof.
  intros kwargs w.
  assert (Hnd : NoDup (dict_keys kwargs)).
  { repeat constructor; simpl; intros H;
      repeat (destruct H as [H|H]; [discriminate|]); exact H. }
  assert (Hret : fst (update (handle Component) [] kwargs w)
                 = Ok (instances_of (fst (update (handle Component) [] kwargs w))))
    by (vm_compute; reflexivity).
  split; [exact Hnd|]. split; [reflexivity|].
  split; [vm_compute; reflexivity|].
  exact (update_writes_the_given_fields (handle Component) kwargs "c" w _
           Hnd eq_refl Hret).
Defined.

(** ** count with a page size of zero *)

Lemma count_eq self include_deleted n kwargs conds cs w :
  conditions self include_deleted kwargs = Ok conds ->
  known_cols (columns self) (map cond_col conds) = true ->
  result_map bind_cond conds = Ok cs ->
  fst (count self include_deleted n kwargs w) =
    let t := Z.of_nat (List.length (filter (where_ cs) (rows w))) in
    if (0 <? t)%Z && (n =? 0)%Z then Err ZeroDivisionError
    else Ok {| total := t;
               pages := if (0 <? t)%Z then (t + n - 1) / n else 0;
               per_page := n |}.
Proof.
  intros Hc Hk Hb. unfold count. rewrite bind_unfold. unfold lift at 1.
  rewrite Hc. rewrite bind_unfold, _sql_unfold. unfold execute.
  rewrite Hk, Hb. cbn [negb result_bind]. rewrite bind_unfold.
  unfold lift, first_cell. cbv zeta.
  destruct ((0 <? Z.of_nat (List.length (filter (where_ cs) (rows w))))%Z
            && (n =? 0)%Z); reflexivity.
Qed.

(** X17.  [count] with [per_page=0]: on filters with which an
    unpaginated [read] returns, it returns total 0 and 0 pages when nothing
    matches, and raises ZeroDivisionError as soon as one record matches. *)
Theorem count_with_zero_per_page self include_deleted m kwargs w found :
  fst (read self include_deleted None m kwargs w) = Ok found ->
  fst (count self include_deleted 0 kwargs w) =
    if is_nil found then Ok {| total := 0; pages := 0; per_page := 0 |}
    else Err ZeroDivisionError.
Proof.
  intros Hr. apply read_inv in Hr. destruct Hr as [conds [cs [Hc [Hk [Hb Hf]]]]].
  rewrite (count_eq _ _ _ _ _ _ _ Hc Hk Hb). cbv zeta.
  cbn [limit_of paginate] in Hf. apply result_map_length in Hf. rewrite <- Hf.
  destruct found; reflexivity.
Qed.

Lemma count_with_zero_per_page_witness :
  let w := world_of three_components in
  fst (read (handle Component) false None 10 [("name", PStr "button")] w)
    = Ok [button_instance "a" "2024-01-01" "2024-01-01"] /\
  fst (count (handle Component) false 0 [("name", PStr "button")] w)
    = Err ZeroDivisionError.
Proof.
  intros w.
  assert (Hr : fst (read (handle Component) false None 10 [("name", PStr "button")] w)
               = Ok [button_instance "a" "2024-01-01" "2024-01-01"])
    by (vm_compute; reflexivity).
  split; [exact Hr|].
  exact (count_with_zero_per_page (handle Component) false 10
           [("name", PStr "button")] w _ Hr).
Defined.

(** ** read with and without the soft-deleted records *)

Lemma result_map_filter {A B} (f : A -> result B) (q : A -> bool) xs ys :
  result_map f xs = Ok ys ->
  exists zs, result_map f (filter q xs) = Ok zs /\ incl zs ys.
Proof.
  revert ys. induction xs as [|x xs IH]; simpl; intros ys H.
  - inversion H. exists []. split; [reflexivity|]. intros z [].
  - destruct (f x) as [y|e] eqn:Ex; [|discriminate].
    destruct (result_map f xs) as [ys'|e]; [|discriminate].
    inversion H; subst. destruct (IH ys' eq_refl) as [zs [Hzs Hincl]].
    destruct (q x).
    + exists (y :: zs). simpl. rewrite Ex, Hzs. split; [reflexivity|].
      intros z [<-|Hz]; [left; reflexivity|right; apply Hincl; exact Hz].
    + exists zs. split; [exact Hzs|]. intros z Hz. right. apply Hincl. exact Hz.
Qed.

Lemma filter_where_app cs1 cs2 (tbl : list srow) :
  filter (where_ (cs1 ++ cs2)) tbl = filter (where_ cs2) (filter (where_ cs1) tbl).
Proof.
  rewrite <- filter_and. apply filter_ext. intros r. apply where_app.
Qed.

(** X18.  The default [read] is a restriction of the read with
    [include_deleted=True]: whenever the latter returns, the former returns
    too, with the same filters on the same table, and every instance it
    returns is among those of the latter; on a type without a deleted_at
    field the two return the same list. *)
Theorem default_read_within_include_deleted cls m kwargs w everything :
  fst (read (handle cls) true None m kwargs w) = Ok everything ->
  exists live,
    fst (read (handle cls) false None m kwargs w) = Ok live /\
    incl live everything /\
    (_has_soft_delete cls = false -> live = everything).
Proof.
  intros Hr. apply read_inv in Hr. destruct Hr as [conds [cs [Hc [Hk [Hb Hf]]]]].
  apply conditions_inv in Hc. destruct Hc as [row [Hrow ->]].
  unfold live_cond in Hk, Hb. rewrite andb_false_r, List.app_nil_r in Hk, Hb.
  cbn [limit_of paginate] in Hf.
  rewrite (read_eq (handle cls) false None m kwargs
             (eq_conds row ++ live_cond (handle cls) false)
             (cs ++ live_bcond (handle cls) false) w).
  - cbn [fst limit_of paginate]. rewrite filter_where_app.
    destruct (result_map_filter _ (where_ (live_bcond (handle cls) false)) _ _ Hf)
      as [live [Hlive Hincl]].
    exists live. split; [exact Hlive|]. split; [exact Hincl|].
    intros Hsoft. unfold live_bcond in Hlive. cbn [_soft_delete handle] in Hlive.
    rewrite Hsoft in Hlive. cbn [andb] in Hlive.
    rewrite (filter_ext (where_ []) (fun _ => true)), filter_all in Hlive
      by reflexivity.
    rewrite Hf in Hlive. inversion Hlive. reflexivity.
  - apply conditions_of_row. exact Hrow.
  - rewrite map_app, known_cols_app, Hk. cbn [andb].
    unfold live_cond. cbn [_soft_delete handle].
    destruct (_has_soft_delete cls) eqn:Es; [|reflexivity].
    cbn [andb negb map cond_col known_cols forallb].
    rewrite (in_field_map_columns _ _ (soft_delete_column cls Es)). reflexivity.
  - apply result_map_app; [exact Hb|apply bind_live_cond].
  - reflexivity.
Qed.

Lemma default_read_within_include_deleted_witness :
  let w := world_of three_components in
  let everything := instances_of (fst (read (handle Component) true None 10 [] w)) in
  fst (read (handle Component) true None 10 [] w) = Ok everything /\
  List.length everything = 3%nat /\
  exists live,
    fst (read (handle Component) false None 10 [] w) = Ok live /\
    incl live everything /\
    (_has_soft_delete Component = false -> live = everything).
Proof.
  intros w everything.
  assert (Hr : fst (read (handle Component) true None 10 [] w) = Ok everything)
    by (vm_compute; reflexivity).
  split; [exact Hr|]. split; [vm_compute; reflexivity|].
  exact (default_read_within_include_deleted Component 10 [] w everything Hr).
Defined.

(** ** The schema *)

Lemma sqlite_type_in_range t :
  In (_get_sqlite_type t) ["INTEGER"; "TEXT"; "REAL"].
Proof.
  unfold _get_sqlite_type.
  destruct (match get_origin t with Some _ => next_arg t | None => t end);
    simpl; auto.
Qed.

(** X1.  The schema [_get_fields] derives from a dataclass whose
    annotations are classes, unions or parametrized aliases (not a bare
    alias of [typing] such as [typing.List], which has no [__args__] and on
    which [_get_sqlite_type] raises AttributeError): one entry per field,
    in declaration order and under the field's name; the column type is
    INTEGER, TEXT or REAL; a field handled as JSON is a TEXT column and is
    not handled as a boolean; a field handled as a boolean is an INTEGER
    column. *)
Theorem schema_of_a_dataclass cls :
  map name (_get_fields cls) = map fst (fields cls) /\
  Forall (fun f =>
            In (sql_type f) ["INTEGER"; "TEXT"; "REAL"] /\
            (is_json f = true -> sql_type f = "TEXT" /\ is_bool f = false) /\
            (is_bool f = true -> sql_type f = "INTEGER"))
         (_get_fields cls).
Proof.
  unfold _get_fields. split.
  - rewrite map_map. reflexivity.
  - apply Forall_forall. intros f Hin. apply in_map_iff in Hin.
    destruct Hin as [[n t] [<- _]]. cbn [field_info sql_type is_json is_bool snd].
    split; [apply sqlite_type_in_range|].
    unfold _get_sqlite_type, _is_json_type, _is_bool_type.
    destruct (match get_origin t with Some _ => next_arg t | None => t end);
      simpl; split; intros H; try discriminate; try split; reflexivity.
Qed.

(** X2.  [Table.__init__].  For a class that is not a dataclass it
    raises TypeError and sends nothing to the database.  For a dataclass
    whose annotations are classes, unions or parametrized aliases (not a
    bare alias of [typing] such as [typing.List], on which [_get_fields]
    raises AttributeError before anything is sent) it sends one CREATE
    TABLE IF NOT EXISTS and nothing else, and what it returns, when the
    database accepts the statement, is the handle of the class.  The statement names the fields in declaration order, types the
    column id as TEXT PRIMARY KEY whatever its annotation, and every other
    column as INTEGER, TEXT or REAL.  The stored rows are left as they
    are. *)
Theorem table_init_creates_the_table cls w :
  exists cols,
    map fst cols = columns (handle cls) /\
    Forall column_type_ok cols /\
    rows (snd (Table_init cls w)) = rows w /\
    journal (snd (Table_init cls w))
    = (if is_dataclass cls then journal w ++ [CreateTable cols] else journal w) /\
    (if is_dataclass cls
     then forall t, fst (Table_init cls w) = Ok t -> t = handle cls
     else fst (Table_init cls w) = Err TypeError).
Proof.
  exists (map (fun f => if String.eqb (name f) "id"
                        then ("id", "TEXT PRIMARY KEY")
                        else (name f, sql_type f))
              (_fields (handle cls))).
  split; [|split; [|split; [|split]]].
  - unfold columns. rewrite map_map. apply map_ext. intros f.
    destruct (String.eqb (name f) "id") eqn:E; [|reflexivity].
    apply String.eqb_eq in E. rewrite E. reflexivity.
  - apply Forall_forall. intros c Hin. apply in_map_iff in Hin.
    destruct Hin as [f [<- Hf]]. unfold column_type_ok.
    destruct (String.eqb (name f) "id") eqn:E.
    + cbn [fst snd]. reflexivity.
    + cbn [fst snd]. rewrite E.
      cbn [_fields handle] in Hf. unfold _get_fields in Hf.
      apply in_map_iff in Hf. destruct Hf as [[n t] [<- _]].
      apply sqlite_type_in_range.
  - unfold Table_init. destruct (is_dataclass cls); [|reflexivity].
    cbn [negb]. rewrite bind_unfold. unfold _create_table.
    rewrite bind_unfold, _sql_unfold. cbn [execute]. reflexivity.
  - unfold Table_init. destruct (is_dataclass cls); [|reflexivity].
    cbn [negb]. rewrite bind_unfold. unfold _create_table.
    rewrite bind_unfold, _sql_unfold. cbn [execute]. reflexivity.
  - unfold Table_init. destruct (is_dataclass cls); [|reflexivity].
    cbn [negb]. rewrite bind_unfold. unfold _create_table.
    rewrite bind_unfold, _sql_unfold. cbn [execute].
    intros t H. inversion H. reflexivity.
Qed.

(** ** create: what it stores *)

Lemma encode_field_key self k p k' p' :
  encode_field self (k, p) = Ok (k', p') -> k' = k.
Proof.
  unfold encode_field. cbn [fst snd].
  destruct (_field_map self k) as [f|]; [|discriminate].
  destruct (is_none p); [intros H; inversion H; reflexivity|].
  destruct (is_json f); [|intros H; inversion H; reflexivity].
  destruct (json_dumps p); [|discriminate]. intros H. inversion H. reflexivity.
Qed.

Lemma In_dict_get {V} k (v : V) d :
  NoDup (dict_keys d) -> In (k, v) d -> dict_get k d = Some v.
Proof.
  induction d as [|[k' v'] d IH]; simpl; intros Hnd Hin; [destruct Hin|].
  inversion Hnd as [|x xs Hnotin Hnd']; subst.
  destruct Hin as [H|H].
  - inversion H; subst. rewrite String.eqb_refl. reflexivity.
  - destruct (String.eqb k k') eqn:E; [|apply IH; assumption].
    apply String.eqb_eq in E. subst k'. exfalso. apply Hnotin.
    unfold dict_keys. apply in_map_iff. exists (k, v). split; [reflexivity|exact H].
Qed.

Lemma in_keys_get {V} k (d : list (string * V)) :
  In k (dict_keys d) -> exists v, dict_get k d = Some v.
Proof.
  induction d as [|[k' v'] d IH]; simpl; [intros []|].
  destruct (String.eqb k k') eqn:E; [intros _; eexists; reflexivity|].
  intros [H|H]; [|exact (IH H)].
  subst k'. rewrite String.eqb_refl in E. discriminate.
Qed.

Lemma insert_then_select_rows self row u w0 found w1 :
  dict_get "id" row = Some (PStr u) ->
  (_ <- _sql self (InsertInto row) ;;
   rows <- _sql self (SelectFrom [Eq_ "id" (PStr u)] None) ;;
   match rows with
   | r :: _ => inst <- lift (_from_row self r) ;; ret [inst]
   | [] => ret []
   end) w0 = (Ok found, w1) ->
  exists vals,
    known_cols (columns self) (dict_keys row) = true /\
    result_map bind_set row = Ok vals /\
    rows w1 = rows w0 ++ [stored_row (columns self) vals] /\
    result_map (_from_row self) [stored_row (columns self) vals] = Ok found /\
    existsb (ids_clash_with (stored_row (columns self) vals)) (rows w0) = false.
Proof.
  intros Hid H.
  pose proof (insert_then_select self row u Hid w0) as [added [Hrows [_ [_ Hok]]]].
  rewrite H in Hrows, Hok. cbn [fst snd] in Hrows, Hok.
  destruct (Hok found eq_refl) as [Hlen Hfound].
  revert H. rewrite bind_unfold, _sql_unfold.
  destruct (execute (columns self) (InsertInto row) (rows w0))
    as [[res tbl']|e] eqn:E; [|discriminate].
  apply execute_insert_shape in E.
  destruct E as [vals [Hknown [Hvals [Hfresh [-> ->]]]]].
  rewrite bind_unfold.
  match goal with
  | |- context [_sql self ?s ?w] =>
      pose proof (_sql_read_only_rows self s w eq_refl) as Hsame;
      destruct (_sql self s w) as [[rs|e] w2]
  end; [|discriminate].
  cbn [snd] in Hsame. unfold after in Hsame. cbn [rows] in Hsame.
  intros H.
  assert (Hw : rows w1 = rows w2).
  { destruct rs as [|r rs].
    - unfold ret in H. inversion H. reflexivity.
    - rewrite bind_unfold in H. unfold lift, ret in H.
      destruct (_from_row self r); inversion H. reflexivity. }
  rewrite Hw, Hsame in Hrows. apply app_inv_head in Hrows. subst added.
  exists vals. split; [exact Hknown|]. split; [exact Hvals|].
  split; [rewrite Hw; exact Hsame|]. split; [exact Hfound|exact Hfresh].
Qed.

Lemma stored_created_row self record w row0 row vals :
  NoDup (dict_keys record) ->
  _to_row self (filter not_auto record) = Ok row0 ->
  row =
    (let r1 := dict_set "id" (PStr (uuid_source w (draws w))) row0 in
     let r2 := if in_field_map self "created_at"
               then dict_set "created_at" (PStr (clock w (ticks w))) r1 else r1 in
     if in_field_map self "updated_at"
     then dict_set "updated_at"
            (PStr (clock w (if in_field_map self "created_at"
                            then S (ticks w) else ticks w))) r2
     else r2) ->
  known_cols (columns self) (dict_keys row) = true ->
  result_map bind_set row = Ok vals ->
  created_row self record w (stored_row (columns self) vals).
Proof.
  intros Hnd Hrow0 Hrow Hknown Hvals. cbv zeta in Hrow.
  set (u := uuid_source w (draws w)) in *.
  set (now1 := clock w (ticks w)) in *.
  set (now2 := clock w (if in_field_map self "created_at"
                        then S (ticks w) else ticks w)) in *.
  pose proof (proj1 (_to_row_keys _ _ _ Hrow0)) as Hkeys0.
  assert (Hid : dict_get "id" row = Some (PStr u)).
  { subst row.
    destruct (in_field_map self "updated_at"), (in_field_map self "created_at");
      repeat (rewrite dict_get_set_other by discriminate);
      apply dict_get_set_same. }
  assert (Hc : in_field_map self "created_at" = true ->
               dict_get "created_at" row = Some (PStr now1)).
  { intros Ec. subst row. rewrite Ec.
    destruct (in_field_map self "updated_at");
      repeat (rewrite dict_get_set_other by discriminate);
      apply dict_get_set_same. }
  assert (Hu : in_field_map self "updated_at" = true ->
               dict_get "updated_at" row = Some (PStr now2)).
  { intros Eu. subst row. rewrite Eu. apply dict_get_set_same. }
  assert (Hother : forall k, ~ In k ["id"; "created_at"; "updated_at"] ->
                             dict_get k row = dict_get k row0).
  { intros k Hk. subst row.
    assert (k <> "id" /\ k <> "created_at" /\ k <> "updated_at") as [H1 [H2 H3]].
    { simpl in Hk. repeat split; intros ->; apply Hk; auto. }
    destruct (in_field_map self "updated_at"), (in_field_map self "created_at");
      repeat (rewrite dict_get_set_other by (intros He; symmetry in He; contradiction));
      reflexivity. }
  assert (Hstored : forall k p,
            dict_get k row = Some p ->
            exists sv, sqlite_bind p = Ok sv /\
                       dict_get k (stored_row (columns self) vals) = Some sv).
  { intros k p Hg.
    destruct (bind_set_get _ _ _ _ Hvals Hg) as [sv [Hsv Hgv]].
    exists sv. split; [exact Hsv|].
    rewrite stored_row_get, Hgv; [reflexivity|].
    unfold known_cols in Hknown. rewrite forallb_forall in Hknown.
    apply Hknown. exact (dict_get_in_keys _ _ _ Hg). }
  split; [apply stored_row_keys|].
  split.
  { destruct (Hstored _ _ Hid) as [sv [Hsv Hg]]. simpl in Hsv.
    inversion Hsv; subst sv. exact Hg. }
  split.
  { intros k p Hin Hauto.
    assert (Hin' : In (k, p) (filter not_auto record)).
    { apply filter_In. split; [exact Hin|]. unfold not_auto. cbn [fst].
      apply negb_true_iff. destruct (str_in k AUTO_FIELDS) eqn:Es; [|reflexivity].
      apply str_in_In in Es. contradiction. }
    destruct (result_map_In _ _ _ _ Hrow0 Hin') as [[k' p'] [He Hin0]].
    pose proof (encode_field_key _ _ _ _ _ He) as ->.
    assert (Hg0 : dict_get k row0 = Some p').
    { apply In_dict_get; [|exact Hin0]. rewrite Hkeys0.
      apply NoDup_keys_filter. exact Hnd. }
    assert (Hk : ~ In k ["id"; "created_at"; "updated_at"]).
    { intros Hk. apply Hauto. simpl in *. tauto. }
    rewrite <- (Hother k Hk) in Hg0.
    destruct (Hstored _ _ Hg0) as [sv [Hsv Hg]].
    exists p', sv. split; [exact He|]. split; [exact Hsv|]. intros _. exact Hg. }
  split.
  { intros k Hcol Habsent Hk.
    rewrite stored_row_get by (apply str_in_In; exact Hcol).
    assert (Hnone : dict_get k row = None).
    { rewrite (Hother k Hk). apply not_in_keys_get. rewrite Hkeys0.
      intros Hin. apply keys_filter_inv in Hin. destruct Hin as [p [Hin Hp]].
      unfold not_auto in Hp. cbn [fst] in Hp. apply negb_true_iff in Hp.
      destruct Habsent as [Hauto|Hnot].
      - apply str_in_In in Hauto. rewrite Hauto in Hp. discriminate.
      - apply Hnot. unfold dict_keys. apply in_map_iff.
        exists (k, p). split; [reflexivity|exact Hin]. }
    rewrite (not_in_keys_get k vals); [reflexivity|].
    rewrite (bind_set_keys _ _ Hvals). intros Hin.
    destruct (in_keys_get _ _ Hin) as [p Hp]. rewrite Hnone in Hp.
    discriminate. }
  split.
  { intros Ec. destruct (Hstored _ _ (Hc Ec)) as [sv [Hsv Hg]]. simpl in Hsv.
    inversion Hsv; subst sv. exact Hg. }
  { intros Eu. destruct (Hstored _ _ (Hu Eu)) as [sv [Hsv Hg]]. simpl in Hsv.
    inversion Hsv; subst sv. exact Hg. }
Qed.

Lemma create_one_stores self record w found w1 :
  NoDup (dict_keys record) ->
  create_one self record w = (Ok found, w1) ->
  exists new,
    rows w1 = rows w ++ [new] /\
    created_row self record w new /\
    result_map (_from_row self) [new] = Ok found /\
    existsb (ids_clash_with new) (rows w) = false.
Proof.
  intros Hnd. unfold create_one. rewrite bind_unfold. unfold lift.
  destruct (_to_row self (filter not_auto record)) as [row0|e] eqn:Erow0;
    [|discriminate].
  cbv beta iota. rewrite bind_unfold. unfold uuid4. cbv beta iota.
  cbn [uuid_source draws]. rewrite bind_unfold.
  destruct (in_field_map self "created_at") eqn:Ec.
  - rewrite bind_unfold. unfold _now at 1, ret at 1. cbv beta iota.
    cbn [clock ticks]. rewrite bind_unfold.
    destruct (in_field_map self "updated_at") eqn:Eu.
    + rewrite bind_unfold. unfold _now at 1, ret at 1. cbv beta iota.
      cbn [clock ticks]. intros H.
      apply insert_then_select_rows in H;
        [|repeat (rewrite dict_get_set_other by discriminate);
          apply dict_get_set_same].
      destruct H as [vals [Hknown [Hvals [Hrows [Hfound Hfresh]]]]].
      cbn [rows] in Hrows, Hfresh.
      eexists. split; [exact Hrows|]. split; [|split; [exact Hfound|exact Hfresh]].
      eapply (stored_created_row self record w row0 _ vals Hnd Erow0);
        [|exact Hknown|exact Hvals].
      rewrite Ec, Eu. reflexivity.
    + unfold ret at 1. cbv beta iota. intros H.
      apply insert_then_select_rows in H;
        [|repeat (rewrite dict_get_set_other by discriminate);
          apply dict_get_set_same].
      destruct H as [vals [Hknown [Hvals [Hrows [Hfound Hfresh]]]]].
      cbn [rows] in Hrows, Hfresh.
      eexists. split; [exact Hrows|]. split; [|split; [exact Hfound|exact Hfresh]].
      eapply (stored_created_row self record w row0 _ vals Hnd Erow0);
        [|exact Hknown|exact Hvals].
      rewrite Ec, Eu. reflexivity.
  - unfold ret at 1. cbv beta iota. rewrite bind_unfold.
    destruct (in_field_map self "updated_at") eqn:Eu.
    + rewrite bind_unfold. unfold _now at 1, ret at 1. cbv beta iota.
      cbn [clock ticks]. intros H.
      apply insert_then_select_rows in H;
        [|repeat (rewrite dict_get_set_other by discriminate);
          apply dict_get_set_same].
      destruct H as [vals [Hknown [Hvals [Hrows [Hfound Hfresh]]]]].
      cbn [rows] in Hrows, Hfresh.
      eexists. split; [exact Hrows|]. split; [|split; [exact Hfound|exact Hfresh]].
      eapply (stored_created_row self record w row0 _ vals Hnd Erow0);
        [|exact Hknown|exact Hvals].
      rewrite Ec, Eu. reflexivity.
    + unfold ret at 1. cbv beta iota. intros H.
      apply insert_then_select_rows in H; [|apply dict_get_set_same].
      destruct H as [vals [Hknown [Hvals [Hrows [Hfound Hfresh]]]]].
      cbn [rows] in Hrows, Hfresh.
      eexists. split; [exact Hrows|]. split; [|split; [exact Hfound|exact Hfresh]].
      eapply (stored_created_row self record w row0 _ vals Hnd Erow0);
        [|exact Hknown|exact Hvals].
      rewrite Ec, Eu. reflexivity.
Qed.

Lemma create_by_keywords self kwargs w :
  kwargs <> [] ->
  create self [] kwargs w
  = (found <- create_one self kwargs ;; more <- ret [] ;; ret (found ++ more)) w.
Proof.
  intros Hne. unfold create. rewrite bind_unfold. unfold lift, create_records.
  cbn [result_map result_bind]. destruct kwargs as [|kv kwargs]; [contradiction|].
  reflexivity.
Qed.

(** X19.  What [create] called with keywords stores.  When it returns,
    it has appended one row, and returns that row decoded.  The row has the
    columns of the type; its id is the uuid generated by this call; under
    each keyword that is not an automatic field it holds the encoded value
    given (for a value of the storage class the column is declared with,
    which the column keeps as bound); created_at and updated_at, when the type has them, hold the
    readings of the clock taken by this call, created_at first; every other
    column, deleted_at included, is NULL.  Values given for id, created_at,
    updated_at or deleted_at are not used. *)
Theorem create_stores_the_given_fields self kwargs w found :
  kwargs <> [] ->
  NoDup (dict_keys kwargs) ->
  fst (create self [] kwargs w) = Ok found ->
  exists new,
    rows (snd (create self [] kwargs w)) = rows w ++ [new] /\
    created_row self kwargs w new /\
    result_map (_from_row self) [new] = Ok found.
Proof.
  intros Hne Hnd. rewrite (create_by_keywords self kwargs w Hne).
  rewrite bind_unfold.
  destruct (create_one self kwargs w) as [[found1|e] w1] eqn:E; [|discriminate].
  rewrite bind_unfold. unfold ret. cbn [fst snd]. rewrite List.app_nil_r.
  intros H. inversion H; subst found1.
  destruct (create_one_stores self kwargs w found w1 Hnd E)
    as [new [Hrows [Hnew [Hfound _]]]].
  exists new. split; [exact Hrows|]. split; [exact Hnew|exact Hfound].
Qed.

Lemma create_stores_the_given_fields_witness :
  let kwargs := [("id", PStr "mine"); ("name", PStr "tab")] in
  let w := world_of three_components in
  let found := instances_of (fst (create (handle Component) [] kwargs w)) in
  kwargs <> [] /\
  NoDup (dict_keys kwargs) /\
  fst (create (handle Component) [] kwargs w) = Ok found /\
  List.length found = 1%nat /\
  exists new,
    rows (snd (create (handle Component) [] kwargs w)) = rows w ++ [new] /\
    created_row (handle Component) kwargs w new /\
    result_map (_from_row (handle Component)) [new] = Ok found.
Proof.
  intros kwargs w found.
  assert (Hne : kwargs <> []) by discriminate.
  assert (Hnd : NoDup (dict_keys kwargs)).
  { repeat constructor; simpl; intros H;
      repeat (destruct H as [H|H]; [discriminate|]); exact H. }
  assert (Hret : fst (create (handle Component) [] kwargs w) = Ok found)
    by (vm_compute; reflexivity).
  split; [exact Hne|]. split; [exact Hnd|]. split; [exact Hret|].
  split; [vm_compute; reflexivity|].
  exact (create_stores_the_given_fields (handle Component) kwargs w found
           Hne Hnd Hret).
Defined.

(** ** read with a page size below one *)

(** X20.  [read] with a page number and a [per_page] below one, on
    filters with which the unpaginated [read] returns: [per_page=0] makes
    every page empty, and a negative [per_page] switches pagination off,
    so that every page is the whole unpaginated result - as long as
    [per_page] and the offset [(max(1, page) - 1) * per_page] fit 64 bits;
    beyond, the database refuses the statement with a datatype mismatch
    (sqlite3.IntegrityError). *)
Theorem read_with_per_page_below_one self include_deleted p m n kwargs w found :
  (n <= 0)%Z ->
  fst (read self include_deleted None m kwargs w) = Ok found ->
  fst (read self include_deleted (Some p) n kwargs w)
  = (if (n =? 0)%Z then Ok []
     else if int64 n && int64 ((Z.max 1 p - 1) * n) then Ok found
     else Err IntegrityError).
Proof.
  intros Hn Hr. apply read_inv in Hr. destruct Hr as [conds [cs [Hc [Hk [Hb Hf]]]]].
  cbn [limit_of paginate] in Hf.
  unfold read. rewrite bind_unfold. unfold lift at 1. rewrite Hc.
  rewrite bind_unfold, _sql_unfold. unfold execute. rewrite Hk, Hb.
  cbn [negb result_bind limit_accepted].
  destruct (n =? 0)%Z eqn:E0.
  - apply Z.eqb_eq in E0. subst n. cbn [int64 orb andb]. reflexivity.
  - apply Z.eqb_neq in E0. cbn [orb].
    destruct (int64 n && int64 ((Z.max 1 p - 1) * n)); [|reflexivity].
    unfold lift. cbn [fst paginate].
    assert (Hoff : Z.to_nat ((Z.max 1 p - 1) * n) = 0%nat).
    { assert (Hle : ((Z.max 1 p - 1) * n <= 0)%Z) by nia.
      destruct ((Z.max 1 p - 1) * n)%Z; try reflexivity. lia. }
    rewrite Hoff. cbn [skipn].
    assert (Hneg : (n <? 0)%Z = true) by (apply Z.ltb_lt; lia).
    rewrite Hneg. exact Hf.
Qed.

Lemma read_with_per_page_below_one_witness :
  let w := world_of three_components in
  let found := instances_of (fst (read (handle Component) true None 10 [] w)) in
  (-1 <= 0)%Z /\
  fst (read (handle Component) true None 10 [] w) = Ok found /\
  List.length found = 3%nat /\
  fst (read (handle Component) true (Some 7%Z) (-1) [] w) = Ok found.
Proof.
  intros w found.
  assert (Hr : fst (read (handle Component) true None 10 [] w) = Ok found)
    by (vm_compute; reflexivity).
  split; [lia|]. split; [exact Hr|]. split; [vm_compute; reflexivity|].
  exact (read_with_per_page_below_one (handle Component) true 7 10 (-1) [] w found
           ltac:(lia) Hr).
Defined.

(** ** The ways to pass a record *)

(** X21.  [delete] given an instance goes by its id alone.  It is the
    same call as [delete] with that id as the only keyword, whatever the
    other attributes of the instance hold and whatever class it belongs to;
    and what it returns is the stored record that [read] finds under that
    id, not the instance that was passed. *)
Theorem delete_of_an_instance_goes_by_its_id self i item_id hard w found :
  dict_get "id" (inst_data i) = Some item_id ->
  is_none item_id = false ->
  fst (delete self [OInstance i] hard [] w) = Ok found ->
  delete self [OInstance i] hard [] w = delete self [] hard [("id", item_id)] w /\
  fst (read self hard None 10 [("id", item_id)] w) = Ok found.
Proof.
  intros Hid Hnone.
  assert (Heq : delete self [OInstance i] hard [] w
                = delete self [] hard [("id", item_id)] w).
  { unfold delete, delete_records.
    cbn [result_map delete_record]. rewrite Hid, Hnone. reflexivity. }
  rewrite Heq. intros Hdel. split; [reflexivity|].
  apply delete_one_returns_read.
  apply (proj2 (delete_by_keywords self hard [("id", item_id)] w
                  ltac:(discriminate))).
  exact Hdel.
Qed.

Lemma delete_of_an_instance_goes_by_its_id_witness :
  let i := button_instance "a" "never" "stored" in
  let w := world_of three_components in
  dict_get "id" (inst_data i) = Some (PStr "a") /\
  is_none (PStr "a") = false /\
  fst (delete (handle Component) [OInstance i] false [] w)
    = Ok [button_instance "a" "2024-01-01" "2024-01-01"] /\
  delete (handle Component) [OInstance i] false [] w
    = delete (handle Component) [] false [("id", PStr "a")] w /\
  fst (read (handle Component) false None 10 [("id", PStr "a")] w)
    = Ok [button_instance "a" "2024-01-01" "2024-01-01"].
Proof.
  intros i w.
  assert (Hdel : fst (delete (handle Component) [OInstance i] false [] w)
                 = Ok [button_instance "a" "2024-01-01" "2024-01-01"])
    by (vm_compute; reflexivity).
  split; [reflexivity|]. split; [reflexivity|]. split; [exact Hdel|].
  exact (delete_of_an_instance_goes_by_its_id (handle Component) i (PStr "a")
           false w _ eq_refl eq_refl Hdel).
Defined.

(** ** delete, twice *)

Lemma delete_keywords_eq self hard kwargs w :
  kwargs <> [] ->
  delete self [] hard kwargs w
  = (found <- delete_one self hard kwargs ;; more <- ret [] ;; ret (found ++ more)) w.
Proof.
  intros Hne. unfold delete. rewrite bind_unfold. unfold lift, delete_records.
  cbn [result_map result_bind]. destruct kwargs as [|kv kwargs]; [contradiction|].
  reflexivity.
Qed.

Lemma read_silent self include_deleted page n kwargs : 
  silent (read self include_deleted page n kwargs).
Proof.
  intros w. symmetry.
  apply (steps_read (@eq (list srow)) (@eq_refl _) (@eq_trans _)).
Qed.

(** X22.  [delete] is idempotent.  Once [delete] called with keyword
    filters, none of them named as a parameter of [read] (include_deleted,
    page, per_page), has returned, the same call again returns the empty
    list and leaves every row as it is; a soft-deleted record keeps the
    time of its first deletion. *)
Theorem delete_again_finds_nothing cls hard kwargs w found :
  kwargs <> [] ->
  Forall (fun key => ~ In key read_parameters) (dict_keys kwargs) ->
  fst (delete (handle cls) [] hard kwargs w) = Ok found ->
  fst (delete (handle cls) [] hard kwargs
         (snd (delete (handle cls) [] hard kwargs w))) = Ok [] /\
  rows (snd (delete (handle cls) [] hard kwargs
               (snd (delete (handle cls) [] hard kwargs w))))
  = rows (snd (delete (handle cls) [] hard kwargs w)).
Proof.
  intros Hne _ Hdel.
  assert (Hmode : _has_soft_delete cls && negb hard && hard = false).
  { destruct (_has_soft_delete cls), hard; reflexivity. }
  pose proof (read_after_delete cls hard hard None 10 kwargs w found Hne Hmode
                eq_refl Hdel) as Hread.
  set (w' := snd (delete (handle cls) [] hard kwargs w)) in *.
  rewrite (delete_keywords_eq (handle cls) hard kwargs w' Hne).
  rewrite bind_unfold. unfold delete_one. rewrite bind_unfold.
  pose proof (read_silent (handle cls) hard None 10 kwargs w') as Hsame.
  destruct (read (handle cls) hard None 10 kwargs w') as [[seen|e] w1];
    cbn [fst snd] in *; [|discriminate].
  inversion Hread; subst seen. cbn [is_nil]. unfold ret. cbn [fst snd].
  rewrite bind_unfold. cbn [fst snd app].
  split; [reflexivity|exact Hsame].
Qed.

Lemma delete_again_finds_nothing_witness :
  let kwargs := [("name", PStr "button")] in
  let w := world_of three_components in
  let w' := snd (delete (handle Component) [] false kwargs w) in
  kwargs <> [] /\
  Forall (fun key => ~ In key read_parameters) (dict_keys kwargs) /\
  fst (delete (handle Component) [] false kwargs w)
    = Ok [button_instance "a" "2024-01-01" "2024-01-01"] /\
  fst (delete (handle Component) [] false kwargs w') = Ok [] /\
  rows (snd (delete (handle Component) [] false kwargs w')) = rows w'.
Proof.
  intros kwargs w w'.
  assert (Hne : kwargs <> []) by discriminate.
  assert (Hkeys : Forall (fun key => ~ In key read_parameters) (dict_keys kwargs))
    by plain_keys.
  assert (Hdel : fst (delete (handle Component) [] false kwargs w)
                 = Ok [button_instance "a" "2024-01-01" "2024-01-01"])
    by (vm_compute; reflexivity).
  split; [exact Hne|]. split; [exact Hkeys|]. split; [exact Hdel|].
  exact (delete_again_finds_nothing Component false kwargs w _ Hne Hkeys Hdel).
Defined.

(** ** create, then a hard delete *)

Lemma fresh_id_filters (new : srow) u (tbl : list srow) :
  dict_get "id" new = Some (SText u) ->
  existsb (ids_clash_with new) tbl = false ->
  filter (where_ [BEq "id" (SText u)]) (tbl ++ [new]) = [new] /\
  filter (fun r => negb (where_ [BEq "id" (SText u)] r)) (tbl ++ [new]) = tbl.
Proof.
  intros Hnew Hfresh.
  assert (Hself : where_ [BEq "id" (SText u)] new = true).
  { rewrite where_single. unfold holds. rewrite Hnew. simpl.
    apply String.eqb_refl. }
  assert (Hold : forall r, In r tbl -> where_ [BEq "id" (SText u)] r = false).
  { intros r Hin. rewrite where_single.
    destruct (holds r (BEq "id" (SText u))) eqn:E; [|reflexivity].
    assert (Hex : existsb (ids_clash_with new) tbl = true).
    { apply existsb_exists. exists r. split; [exact Hin|].
      unfold ids_clash_with, ids_clash. rewrite Hnew. exact E. }
    rewrite Hex in Hfresh. discriminate. }
  rewrite !filter_app. cbn [filter]. rewrite Hself. cbn [negb].
  split.
  - rewrite (proj2 (filter_none _ tbl) Hold). reflexivity.
  - rewrite List.app_nil_r.
    rewrite (filter_ext_in _ (fun _ => true)), filter_all; [reflexivity|].
    intros r Hin. rewrite (Hold r Hin). reflexivity.
Qed.

(** X23.  [create] and a hard [delete] undo each other.  On a type
    whose id field is not a JSON field, after [create] called with keywords
    has returned, [delete] with [hard=True] and the generated id returns
    the created instance and leaves the table exactly as it was before the
    [create]. *)
Theorem create_then_hard_delete_restores self kwargs w found f :
  kwargs <> [] ->
  NoDup (dict_keys kwargs) ->
  _field_map self "id" = Some f ->
  is_json f = false ->
  fst (create self [] kwargs w) = Ok found ->
  fst (delete self [] true [("id", PStr (uuid_source w (draws w)))]
         (snd (create self [] kwargs w))) = Ok found /\
  rows (snd (delete self [] true [("id", PStr (uuid_source w (draws w)))]
               (snd (create self [] kwargs w)))) = rows w.
Proof.
  intros Hne Hnd Hf Hplain. set (u := uuid_source w (draws w)).
  rewrite (create_by_keywords self kwargs w Hne). rewrite bind_unfold.
  destruct (create_one self kwargs w) as [[found1|e] w1] eqn:E; [|discriminate].
  rewrite bind_unfold. unfold ret. cbn [fst snd]. rewrite List.app_nil_r.
  intros H. inversion H; subst found1. clear H.
  destruct (create_one_stores self kwargs w found w1 Hnd E)
    as [new [Hrows [Hnew [Hfound Hfresh]]]].
  destruct Hnew as [_ [Hid _]]. fold u in Hid.
  destruct (fresh_id_filters new u (rows w) Hid Hfresh) as [Hsel Hdel].
  assert (Hrow : _to_row self [("id", PStr u)] = Ok [("id", PStr u)]).
  { unfold _to_row. cbn [result_map]. unfold encode_field. cbn [fst snd].
    rewrite Hf, Hplain. reflexivity. }
  assert (Hcol : known_cols (columns self) ["id"] = true).
  { cbn [known_cols forallb]. rewrite in_field_map_columns; [reflexivity|].
    unfold in_field_map. rewrite Hf. reflexivity. }
  assert (Hc : conditions self true [("id", PStr u)] = Ok [Eq_ "id" (PStr u)]).
  { rewrite (conditions_of_row self true _ _ Hrow). unfold live_cond.
    rewrite andb_false_r. reflexivity. }
  rewrite (delete_keywords_eq self true [("id", PStr u)] w1 ltac:(discriminate)).
  rewrite bind_unfold. unfold delete_one. rewrite bind_unfold.
  rewrite (read_eq self true None 10 [("id", PStr u)] [Eq_ "id" (PStr u)]
             [BEq "id" (SText u)] w1 Hc Hcol eq_refl eq_refl).
  cbn [limit_of paginate]. rewrite Hrows, Hsel, Hfound.
  assert (Hsome : is_nil found = false).
  { apply result_map_length in Hfound. destruct found; [discriminate|reflexivity]. }
  rewrite Hsome. rewrite bind_unfold. unfold lift. rewrite Hrow.
  cbn [is_nil map fst snd]. rewrite andb_false_r. rewrite bind_unfold.
  rewrite _sql_unfold. unfold execute. cbn [map cond_col]. rewrite Hcol.
  cbn [negb result_map bind_cond sqlite_bind result_bind].
  change (rows (after (SelectFrom [Eq_ "id" (PStr u)] None) (rows w ++ [new]) w1))
    with (rows w ++ [new]).
  rewrite Hdel. unfold ret, after. cbn [fst snd rows].
  rewrite bind_unfold. cbn [fst snd rows]. rewrite List.app_nil_r.
  split; reflexivity.
Qed.

Lemma create_then_hard_delete_restores_witness :
  let kwargs := [("name", PStr "tab")] in
  let w := world_of three_components in
  let found := instances_of (fst (create (handle Component) [] kwargs w)) in
  kwargs <> [] /\
  NoDup (dict_keys kwargs) /\
  _field_map (handle Component) "id" = Some (field_info ("id", TyOther "str | None")) /\
  is_json (field_info ("id", TyOther "str | None")) = false /\
  fst (create (handle Component) [] kwargs w) = Ok found /\
  List.length found = 1%nat /\
  fst (delete (handle Component) [] true [("id", PStr (uuid_source w (draws w)))]
         (snd (create (handle Component) [] kwargs w))) = Ok found /\
  rows (snd (delete (handle Component) [] true
               [("id", PStr (uuid_source w (draws w)))]
               (snd (create (handle Component) [] kwargs w)))) = rows w.
Proof.
  intros kwargs w found.
  assert (Hne : kwargs <> []) by discriminate.
  assert (Hnd : NoDup (dict_keys kwargs)) by (repeat constructor; intros []).
  assert (Hret : fst (create (handle Component) [] kwargs w) = Ok found)
    by (vm_compute; reflexivity).
  split; [exact Hne|]. split; [exact Hnd|]. split; [reflexivity|].
  split; [reflexivity|]. split; [exact Hret|]. split; [vm_compute; reflexivity|].
  exact (create_then_hard_delete_restores (handle Component) kwargs w found
           (field_info ("id", TyOther "str | None")) Hne Hnd eq_refl eq_refl Hret).
Defined.

(** ** An id names at most one record *)

Lemma sql_eq_join a b v : sql_eq a v = true -> sql_eq b v = true -> sql_eq a b = true.
Proof.
  destruct a, b, v; simpl; try discriminate; intros Ha Hb.
  - apply Z.eqb_eq in Ha, Hb. subst. apply Z.eqb_refl.
  - apply String.eqb_eq in Ha, Hb. subst. apply String.eqb_refl.
  - apply String.eqb_eq in Ha, Hb. subst. apply String.eqb_refl.
  - apply String.eqb_eq in Ha, Hb. subst. apply String.eqb_refl.
Qed.

Lemma pk_unique_by_id tbl v :
  pk_unique tbl = true ->
  (List.length (filter (fun r => holds r (BEq "id" v)) tbl) <= 1)%nat.
Proof.
  induction tbl as [|r tbl IH]; intros Hpk; [simpl; lia|].
  simpl in Hpk. apply andb_true_iff in Hpk. destruct Hpk as [Hr Hpk].
  specialize (IH Hpk). cbn [filter].
  destruct (holds r (BEq "id" v)) eqn:E; [|exact IH].
  apply negb_true_iff in Hr.
  assert (Hnone : filter (fun r' => holds r' (BEq "id" v)) tbl = []).
  { apply filter_none. intros r' Hin.
    destruct (holds r' (BEq "id" v)) eqn:E'; [|reflexivity].
    assert (Hex : existsb (ids_clash r) tbl = true).
    { apply existsb_exists. exists r'. split; [exact Hin|].
      unfold ids_clash, holds in *.
      destruct (dict_get "id" r') as [v'|]; [|discriminate].
      destruct (dict_get "id" r) as [x|]; [|discriminate].
      exact (sql_eq_join _ _ _ E E'). }
    rewrite Hex in Hr. discriminate. }
  rewrite Hnone. simpl. lia.
Qed.

Lemma paginate_length {A} page (xs : list A) :
  (List.length (paginate page xs) <= List.length xs)%nat.
Proof.
  destruct page as [[limit offset]|]; [|simpl; lia].
  unfold paginate. destruct (limit <? 0)%Z.
  - rewrite length_skipn. lia.
  - rewrite length_firstn, length_skipn. lia.
Qed.

(** X24.  An id names at most one record.  On a table whose ids are
    unique, and for a type whose id field is not a JSON field, [read]
    filtered by a text id returns at most one instance, whatever
    [include_deleted] and the page asked for. *)
Theorem read_by_id_finds_at_most_one self f include_deleted page n X w found :
  pk_unique (rows w) = true ->
  _field_map self "id" = Some f ->
  is_json f = false ->
  fst (read self include_deleted page n [("id", PStr X)] w) = Ok found ->
  (List.length found <= 1)%nat.
Proof.
  intros Hpk Hf Hplain Hr.
  apply read_inv in Hr. destruct Hr as [conds [cs [Hc [_ [Hb Hfound]]]]].
  apply conditions_inv in Hc. destruct Hc as [row [Hrow ->]].
  assert (Hrow' : row = [("id", PStr X)]).
  { unfold _to_row in Hrow. cbn [result_map] in Hrow. unfold encode_field in Hrow.
    cbn [fst snd] in Hrow. rewrite Hf, Hplain in Hrow. cbn [is_none] in Hrow.
    inversion Hrow. reflexivity. }
  subst row. apply bind_cond_app in Hb. destruct Hb as [b1 [b2 [H1 [_ ->]]]].
  cbn in H1. inversion H1; subst b1. clear H1.
  apply result_map_length in Hfound. rewrite Hfound.
  eapply Nat.le_trans; [apply paginate_length|].
  rewrite filter_where_app.
  eapply Nat.le_trans; [apply filter_length_le|].
  rewrite (filter_ext (where_ [BEq "id" (SText X)])
             (fun r => holds r (BEq "id" (SText X)))) by (intros r; apply where_single).
  apply pk_unique_by_id. exact Hpk.
Qed.

Lemma read_by_id_finds_at_most_one_witness :
  let w := world_of three_components in
  pk_unique (rows w) = true /\
  _field_map (handle Component) "id" = Some (field_info ("id", TyOther "str | None")) /\
  is_json (field_info ("id", TyOther "str | None")) = false /\
  fst (read (handle Component) true None 10 [("id", PStr "c")] w)
    = Ok (instances_of (fst (read (handle Component) true None 10
                               [("id", PStr "c")] w))) /\
  (List.length (instances_of (fst (read (handle Component) true None 10
                                     [("id", PStr "c")] w))) <= 1)%nat.
Proof.
  intros w.
  assert (Hr : fst (read (handle Component) true None 10 [("id", PStr "c")] w)
               = Ok (instances_of (fst (read (handle Component) true None 10
                                          [("id", PStr "c")] w))))
    by (vm_compute; reflexivity).
  split; [reflexivity|]. split; [reflexivity|]. split; [reflexivity|].
  split; [exact Hr|].
  exact (read_by_id_finds_at_most_one (handle Component)
           (field_info ("id", TyOther "str | None")) true None 10 "c" w _
           eq_refl eq_refl eq_refl Hr).
Defined.

(** ** count, after create and after a hard delete *)

Lemma count_all_inv self include_deleted n w c :
  fst (count self include_deleted n [] w) = Ok c ->
  total c = Z.of_nat (List.length
                        (filter (where_ (live_bcond self include_deleted)) (rows w))).
Proof.
  intros Hc. apply count_inv in Hc.
  destruct Hc as [conds [cs [Hc [_ [Hb [Ht _]]]]]].
  apply conditions_inv in Hc. destruct Hc as [row [Hrow ->]].
  inversion Hrow; subst row. cbn [eq_conds map app] in Hb.
  rewrite bind_live_cond in Hb. inversion Hb; subst cs. exact Ht.
Qed.

(** X25.  [count] follows [create]: after [create] called with keywords
    has returned, the total of [count] without filters is one more than it
    was before, with or without [include_deleted]. *)
Theorem count_after_create cls include_deleted n kwargs w found c c' :
  kwargs <> [] ->
  NoDup (dict_keys kwargs) ->
  fst (create (handle cls) [] kwargs w) = Ok found ->
  fst (count (handle cls) include_deleted n [] w) = Ok c ->
  fst (count (handle cls) include_deleted n []
         (snd (create (handle cls) [] kwargs w))) = Ok c' ->
  total c' = (total c + 1)%Z.
Proof.
  intros Hne Hnd Hcreate Hc Hc'.
  apply count_all_inv in Hc. apply count_all_inv in Hc'.
  revert Hcreate Hc'. rewrite (create_by_keywords (handle cls) kwargs w Hne).
  rewrite bind_unfold.
  destruct (create_one (handle cls) kwargs w) as [[found1|e] w1] eqn:E;
    [|discriminate].
  rewrite bind_unfold. unfold ret. cbn [fst snd]. intros _ Hc'.
  destruct (create_one_stores (handle cls) kwargs w found1 w1 Hnd E)
    as [new [Hrows [Hnew _]]].
  rewrite Hrows, filter_app, length_app in Hc'.
  assert (Hlive : where_ (live_bcond (handle cls) include_deleted) new = true).
  { unfold live_bcond. cbn [_soft_delete handle].
    destruct (_has_soft_delete cls) eqn:Es; [|reflexivity].
    destruct include_deleted; [reflexivity|]. cbn [andb negb].
    rewrite where_single. unfold holds.
    destruct Hnew as [_ [_ [_ [Hnull _]]]].
    rewrite (Hnull "deleted_at").
    - reflexivity.
    - apply str_in_In. apply in_field_map_columns. apply soft_delete_column.
      exact Es.
    - left. simpl. auto.
    - simpl. intros [H|[H|[H|[]]]]; discriminate. }
  cbn [filter] in Hc'. rewrite Hlive in Hc'. cbn [List.length] in Hc'.
  rewrite Hc, Hc'. lia.
Qed.

Lemma count_after_create_witness :
  let w := world_of three_components in
  let kwargs := [("name", PStr "tab")] in
  kwargs <> [] /\
  NoDup (dict_keys kwargs) /\
  fst (create (handle Component) [] kwargs w)
    = Ok (instances_of (fst (create (handle Component) [] kwargs w))) /\
  fst (count (handle Component) false 10 [] w)
    = Ok {| total := 2; pages := 1; per_page := 10 |} /\
  fst (count (handle Component) false 10 []
         (snd (create (handle Component) [] kwargs w)))
    = Ok {| total := 3; pages := 1; per_page := 10 |} /\
  (3 = 2 + 1)%Z.
Proof.
  intros w kwargs.
  assert (Hne : kwargs <> []) by discriminate.
  assert (Hnd : NoDup (dict_keys kwargs)) by (repeat constructor; intros []).
  assert (Hcreate : fst (create (handle Component) [] kwargs w)
                    = Ok (instances_of (fst (create (handle Component) [] kwargs w))))
    by (vm_compute; reflexivity).
  assert (Hc : fst (count (handle Component) false 10 [] w)
               = Ok {| total := 2; pages := 1; per_page := 10 |})
    by (vm_compute; reflexivity).
  assert (Hc' : fst (count (handle Component) false 10 []
                       (snd (create (handle Component) [] kwargs w)))
                = Ok {| total := 3; pages := 1; per_page := 10 |})
    by (vm_compute; reflexivity).
  split; [exact Hne|]. split; [exact Hnd|]. split; [exact Hcreate|].
  split; [exact Hc|]. split; [exact Hc'|].
  exact (count_after_create Component false 10 kwargs w _ _ _
           Hne Hnd Hcreate Hc Hc').
Defined.

Lemma delete_one_removes self hard record w found w1 :
  record <> [] ->
  _soft_delete self && negb hard = false ->
  delete_one self hard record w = (Ok found, w1) ->
  exists cs,
    result_map (_from_row self) (filter (where_ cs) (rows w)) = Ok found /\
    rows w1 = filter (fun r => negb (where_ cs r)) (rows w).
Proof.
  intros Hne Hhard. unfold delete_one. rewrite Hhard. rewrite bind_unfold.
  destruct (read self hard None 10 record w) as [[seen|e] w0] eqn:Er;
    [|discriminate].
  assert (Hseen : fst (read self hard None 10 record w) = Ok seen)
    by (rewrite Er; reflexivity).
  apply read_inv in Hseen.
  destruct Hseen as [conds [cs_all [Hc [Hk [Hb Hf]]]]].
  assert (Hw0 : rows w0 = rows w).
  { rewrite (read_eq _ _ None _ _ _ _ _ Hc Hk Hb eq_refl) in Er. inversion Er. reflexivity. }
  apply conditions_inv in Hc. destruct Hc as [row [Hrow ->]].
  unfold live_cond in Hb. rewrite Hhard, List.app_nil_r in Hb.
  cbn [limit_of paginate] in Hf.
  destruct (is_nil seen) eqn:Enil.
  - unfold ret. intros H. inversion H; subst. exists cs_all.
    destruct seen; [|discriminate]. split; [exact Hf|].
    apply result_map_length in Hf. symmetry in Hf. apply length_zero_nil in Hf.
    rewrite Hw0.
    rewrite (filter_ext_in (fun r => negb (where_ cs_all r)) (fun _ => true)),
      filter_all; [reflexivity|].
    intros r Hin. rewrite (proj1 (filter_none _ _) Hf r Hin). reflexivity.
  - rewrite bind_unfold. unfold lift. rewrite Hrow. cbv beta iota.
    rewrite (_to_row_nil _ _ _ Hrow Hne). rewrite bind_unfold, _sql_unfold.
    match goal with
    | |- context [execute ?c ?s ?t] => destruct (execute c s t) as [[res tbl']|e] eqn:E
    end; [|discriminate].
    unfold ret, after. intros H. inversion H; subst. cbn [rows].
    apply execute_delete_shape in E. destruct E as [cs' [Hc' ->]].
    change (map (fun kv : string * pyval => Eq_ (fst kv) (snd kv)) row)
      with (eq_conds row) in Hc'.
    rewrite Hb in Hc'. inversion Hc'; subst cs'.
    exists cs_all. rewrite Hw0. split; [exact Hf|reflexivity].
Qed.

(** X26.  [count] follows a hard [delete]: after [delete] called with
    keyword filters, none of them named as a parameter of [read]
    (include_deleted, page, per_page), and [hard=True] has returned, the
    total of [count] without filters and with [include_deleted=True] is
    what it was before, less the number of records the delete returned. *)
Theorem count_after_hard_delete self n kwargs w found c c' :
  kwargs <> [] ->
  Forall (fun key => ~ In key read_parameters) (dict_keys kwargs) ->
  fst (delete self [] true kwargs w) = Ok found ->
  fst (count self true n [] w) = Ok c ->
  fst (count self true n [] (snd (delete self [] true kwargs w))) = Ok c' ->
  total c' = (total c - Z.of_nat (List.length found))%Z.
Proof.
  intros Hne _ Hdel Hc Hc'.
  apply count_all_inv in Hc. apply count_all_inv in Hc'.
  unfold live_bcond in Hc, Hc'. rewrite andb_false_r in Hc, Hc'.
  rewrite (filter_ext (where_ []) (fun _ => true)), filter_all in Hc, Hc'
    by reflexivity.
  revert Hdel Hc'. rewrite (delete_keywords_eq self true kwargs w Hne).
  rewrite bind_unfold.
  destruct (delete_one self true kwargs w) as [[found1|e] w1] eqn:E;
    [|discriminate].
  rewrite bind_unfold. unfold ret. cbn [fst snd]. rewrite List.app_nil_r.
  intros H Hc'. inversion H; subst found1. clear H.
  destruct (delete_one_removes self true kwargs w found w1 Hne
              (andb_false_r _) E) as [cs [Hfound Hrows]].
  apply result_map_length in Hfound.
  pose proof (filter_length (where_ cs) (rows w)) as Hsplit.
  rewrite Hrows in Hc'. rewrite Hc, Hc', Hfound. lia.
Qed.

Lemma count_after_hard_delete_witness :
  let w := world_of three_components in
  let kwargs := [("name", PStr "button")] in
  kwargs <> [] /\
  Forall (fun key => ~ In key read_parameters) (dict_keys kwargs) /\
  fst (delete (handle Component) [] true kwargs w)
    = Ok (instances_of (fst (delete (handle Component) [] true kwargs w))) /\
  List.length (instances_of (fst (delete (handle Component) [] true kwargs w)))
    = 2%nat /\
  fst (count (handle Component) true 10 [] w)
    = Ok {| total := 3; pages := 1; per_page := 10 |} /\
  fst (count (handle Component) true 10 []
         (snd (delete (handle Component) [] true kwargs w)))
    = Ok {| total := 1; pages := 1; per_page := 10 |} /\
  (1 = 3 - Z.of_nat (List.length
         (instances_of (fst (delete (handle Component) [] true kwargs w)))))%Z.
Proof.
  intros w kwargs.
  assert (Hne : kwargs <> []) by discriminate.
  assert (Hdel : fst (delete (handle Component) [] true kwargs w)
                 = Ok (instances_of (fst (delete (handle Component) [] true kwargs w))))
    by (vm_compute; reflexivity).
  assert (Hc : fst (count (handle Component) true 10 [] w)
               = Ok {| total := 3; pages := 1; per_page := 10 |})
    by (vm_compute; reflexivity).
  assert (Hc' : fst (count (handle Component) true 10 []
                       (snd (delete (handle Component) [] true kwargs w)))
                = Ok {| total := 1; pages := 1; per_page := 10 |})
    by (vm_compute; reflexivity).
  assert (Hkeys : Forall (fun key => ~ In key read_parameters) (dict_keys kwargs))
    by plain_keys.
  split; [exact Hne|]. split; [exact Hkeys|]. split; [exact Hdel|].
  split; [vm_compute; reflexivity|].
  split; [exact Hc|]. split; [exact Hc'|].
  exact (count_after_hard_delete (handle Component) 10 kwargs w _ _ _
           Hne Hkeys Hdel Hc Hc').
Defined.
